(** * UBC facility booker: a shallow embedding of [src/ubc.ts]

    The repository drives a headless browser (Playwright) against a
    third-party reservation portal.  Two revisions of [src/ubc.ts] are
    embedded here, each in a module of its own:

    - [Grid]: the revision stored as [src/src/ubc.ts]
      ([parseTimeFromText], [scanSingleCourtPage], a [checkAvailability]
      that recovers a failed scan locally);
    - [Booking]: the revision stored in [src/unnamed/part_003] (second
      document; the third document is the same text without [bookSlot]):
      [to24h], [durationMinutes], [extractSlotsFromScheduler], a sorting
      [checkAvailability] and the booking pipeline [bookSlot].

    Asynchronous code is written in a state-and-exception monad: the state
    is the list of browser commands issued so far, an exception is a
    rejected promise.  What the browser answers is not under the
    repository's control, so every function is parameterised by a [World]
    that answers each command (possibly with a rejection) as a function of
    the commands issued before it.  Logging ([console.log]) has no effect
    on results and is left out; options that only bound a wait
    ([{ timeout: ... }]) are left out as well, since an expired wait is a
    rejection like any other. *)

From Stdlib Require Import String Ascii List ZArith Lia Bool Arith PeanoNat.
From Stdlib Require Import Sorting.Sorted Sorting.Permutation OrderedTypeEx.
Import ListNotations.
Open Scope list_scope.
Open Scope string_scope.
Open Scope nat_scope.

(** ** JavaScript strings

    A JavaScript string is a sequence of UTF-16 code units.  It is modelled
    by [string], one [ascii] per code unit, which covers the code units
    below 256; the functions below are the restrictions of their
    JavaScript counterparts to that range. *)

Module JS.

(** [\s] of a regular expression, and the characters [trim] removes: tab,
    line feed, vertical tab, form feed, carriage return, space and
    no-break space. *)
Definition is_space (c : ascii) : bool :=
  let n := nat_of_ascii c in
  ((9 <=? n) && (n <=? 13)) || (n =? 32) || (n =? 160).

(** [\d], that is [[0-9]]. *)
Definition is_digit (c : ascii) : bool :=
  let n := nat_of_ascii c in (48 <=? n) && (n <=? 57).

Definition digit_val (c : ascii) : nat := nat_of_ascii c - 48.

(** Line terminators, which [.] of a regular expression does not match. *)
Definition is_line_terminator (c : ascii) : bool :=
  let n := nat_of_ascii c in (n =? 10) || (n =? 13).

Fixpoint trimStart (s : string) : string :=
  match s with
  | String c s' => if is_space c then trimStart s' else s
  | EmptyString => EmptyString
  end.

Fixpoint trimEnd (s : string) : string :=
  match s with
  | String c s' =>
      match trimEnd s' with
      | EmptyString => if is_space c then EmptyString else String c EmptyString
      | t => String c t
      end
  | EmptyString => EmptyString
  end.

(** [s.trim()] *)
Definition trim (s : string) : string := trimEnd (trimStart s).

(** [s.startsWith(p)] *)
Definition startsWith (s p : string) : bool := String.prefix p s.

(** [s.includes(sub)] *)
Fixpoint includes (s sub : string) : bool :=
  String.prefix sub s ||
  match s with
  | String _ s' => includes s' sub
  | EmptyString => false
  end.

Definition lower_char (c : ascii) : ascii :=
  let n := nat_of_ascii c in
  if ((65 <=? n) && (n <=? 90))
     || ((192 <=? n) && (n <=? 222) && negb (n =? 215))
  then ascii_of_nat (n + 32) else c.

(** [s.toLowerCase()] *)
Fixpoint toLowerCase (s : string) : string :=
  match s with
  | String c s' => String (lower_char c) (toLowerCase s')
  | EmptyString => EmptyString
  end.

(** Upper case of an ASCII letter.  [toUpperCase] is only ever applied to
    the [(AM|PM)] group of a match, which holds ASCII letters. *)
Definition upper_char (c : ascii) : ascii :=
  let n := nat_of_ascii c in
  if (97 <=? n) && (n <=? 122) then ascii_of_nat (n - 32) else c.

Fixpoint toUpperCase (s : string) : string :=
  match s with
  | String c s' => String (upper_char c) (toUpperCase s')
  | EmptyString => EmptyString
  end.

(** [s.split(sep)] for a one-character separator. *)
Fixpoint split (sep : ascii) (s : string) : list string :=
  match s with
  | EmptyString => [EmptyString]
  | String c s' =>
      if Ascii.eqb c sep then EmptyString :: split sep s'
      else match split sep s' with
           | w :: ws => String c w :: ws
           | [] => [String c EmptyString]
           end
  end.

(** [s.slice(0, n)] *)
Definition slice0 (n : nat) (s : string) : string := String.substring 0 n s.

(** The value of a run of decimal digits: [parseInt(g, 10)] and
    [Number(g)] for a group [g] matched by [\d+]. *)
Fixpoint digits_value_acc (acc : nat) (s : string) : nat :=
  match s with
  | String c s' =>
      if is_digit c then digits_value_acc (10 * acc + digit_val c) s' else acc
  | EmptyString => acc
  end.

Definition digits_value (s : string) : nat := digits_value_acc 0 s.

(** [parseInt(s, 10)]: the value of the leading digits, [None] (for
    [NaN]) when [s] does not start with a digit.  Leading blanks and
    signs, which [parseInt] accepts, are outside the model. *)
Definition parseInt (s : string) : option nat :=
  match s with
  | String c _ => if is_digit c then Some (digits_value s) else None
  | EmptyString => None
  end.

Definition all_digits (s : string) : bool :=
  forallb is_digit (list_ascii_of_string s).

(** [Number(s)]: the value of a string of decimal digits, 0 for the
    empty string, [None] (for [NaN]) when [s] holds another character.
    The strings converted this way are the halves of a clock time
    ["HH:MM"]; the other numeric literals (["1e3"], ["0x1f"], ["1.5"],
    signs, surrounding blanks) are outside the model. *)
Definition Number (s : string) : option nat :=
  if all_digits s then Some (digits_value s) else None.

Fixpoint digits_fuel (fuel n : nat) (acc : string) : string :=
  match fuel with
  | O => acc
  | S fuel' =>
      let acc' := String (ascii_of_nat (48 + n mod 10)) acc in
      if n / 10 =? 0 then acc' else digits_fuel fuel' (n / 10) acc'
  end.

(** [n.toString()] for a natural number. *)
Definition toString (n : nat) : string := digits_fuel (S n) n EmptyString.

(** [NaN.toString()] and template interpolation of a number. *)
Definition showNumber (n : option nat) : string :=
  match n with
  | Some k => toString k
  | None => "NaN"
  end.

(** [s.padStart(2, "0")] *)
Definition padStart2 (s : string) : string :=
  match String.length s with
  | 0 => "00"
  | 1 => "0" ++ s
  | _ => s
  end.

(** [re.test(s)] for a case-insensitive alternation of literals,
    [/lit1|lit2|.../i]. *)
Definition test_any_ci (lits : list string) (s : string) : bool :=
  existsb (fun lit => includes (toLowerCase s) (toLowerCase lit)) lits.

(** [a.*b] at the start of [s], [a] already consumed: [b] occurs later on
    the same line. *)
Fixpoint line_includes (s sub : string) : bool :=
  String.prefix sub s ||
  match s with
  | String c s' => if is_line_terminator c then false else line_includes s' sub
  | EmptyString => false
  end.

(** [/a.*b/.test(s)] for literals [a] and [b]. *)
Fixpoint test_dotstar (a b s : string) : bool :=
  (String.prefix a s
   && line_includes (String.substring (String.length a) (String.length s) s) b) ||
  match s with
  | String _ s' => test_dotstar a b s'
  | EmptyString => false
  end.

(** *** Clock labels

    The pieces of the regular expressions that read a 12-hour label,
    [(\d{1,2}):(\d{2})\s*(AM|PM)]. *)

(** [(\d{1,2}):(\d{2})] at the start of [s]: the two groups and the rest.
    The greedy [\d{1,2}] takes two digits when it can; giving one back
    never helps, since the next character would be a digit and not [:]. *)
Definition take_hm (s : string) : option (string * string * string) :=
  let after_colon (hh rest : string) :=
    match rest with
    | String m1 (String m2 rest') =>
        if is_digit m1 && is_digit m2
        then Some (hh, String m1 (String m2 EmptyString), rest')
        else None
    | _ => None
    end in
  match s with
  | String h1 (String c2 s2) =>
      if is_digit h1 then
        if Ascii.eqb c2 ":" then after_colon (String h1 EmptyString) s2
        else if is_digit c2 then
          match s2 with
          | String c3 s3 =>
              if Ascii.eqb c3 ":"
              then after_colon (String h1 (String c2 EmptyString)) s3
              else None
          | EmptyString => None
          end
        else None
      else None
  | _ => None
  end.

(** [\s*] at the start of [s]: the blanks and the rest. *)
Fixpoint take_spaces (s : string) : string * string :=
  match s with
  | String c s' =>
      if is_space c
      then let (ws, rest) := take_spaces s' in (String c ws, rest)
      else (EmptyString, s)
  | EmptyString => (EmptyString, EmptyString)
  end.

(** [(AM|PM)] at the start of [s], with the [i] flag when [ci]. *)
Definition take_ampm (ci : bool) (s : string) : option (string * string) :=
  match s with
  | String a (String m rest) =>
      let norm := if ci then upper_char else (fun c => c) in
      if (Ascii.eqb (norm a) "A" || Ascii.eqb (norm a) "P")
         && Ascii.eqb (norm m) "M"
      then Some (String a (String m EmptyString), rest)
      else None
  | _ => None
  end.

(** The groups of a clock label matched at the start of [s]. *)
Record ClockMatch : Type := mkClockMatch {
  cm_hh : string;      (* (\d{1,2}) *)
  cm_mm : string;      (* (\d{2}) *)
  cm_ws : string;      (* \s* *)
  cm_ampm : string;    (* (AM|PM) *)
  cm_rest : string     (* what follows the match *)
}.

Definition cm_text (m : ClockMatch) : string :=
  cm_hh m ++ ":" ++ cm_mm m ++ cm_ws m ++ cm_ampm m.

(** [(\d{1,2}):(\d{2})\s*(AM|PM)] at the start of [s]. *)
Definition clock_at (ci : bool) (s : string) : option ClockMatch :=
  match take_hm s with
  | Some (hh, mm, r1) =>
      let (ws, r2) := take_spaces r1 in
      match take_ampm ci r2 with
      | Some (ap, r3) => Some (mkClockMatch hh mm ws ap r3)
      | None => None
      end
  | None => None
  end.

(** The leftmost match of [(\d{1,2}):(\d{2})\s*(AM|PM)] in [s]. *)
Fixpoint clock_search (ci : bool) (s : string) : option ClockMatch :=
  match clock_at ci s with
  | Some m => Some m
  | None =>
      match s with
      | String _ s' => clock_search ci s'
      | EmptyString => None
      end
  end.

(** The groups of the leftmost match of
    [/([0-9]{1,2}:[0-9]{2}\s*(?:AM|PM))\s*-\s*([0-9]{1,2}:[0-9]{2}\s*(?:AM|PM))/]
    at the start of [s]. *)
Definition range_at (s : string) : option (string * string) :=
  match clock_at false s with
  | Some m1 =>
      match snd (take_spaces (cm_rest m1)) with
      | String "-" r =>
          match clock_at false (snd (take_spaces r)) with
          | Some m2 => Some (cm_text m1, cm_text m2)
          | None => None
          end
      | _ => None
      end
  | None => None
  end.

(** [s.match(...)] for the same expression: groups 1 and 2. *)
Fixpoint range_search (s : string) : option (string * string) :=
  match range_at s with
  | Some g => Some g
  | None =>
      match s with
      | String _ s' => range_search s'
      | EmptyString => None
      end
  end.

(** [/^book\s+now$/i.test(s)] *)
Definition is_book_now (s : string) : bool :=
  let l := toLowerCase s in
  String.prefix "book" l &&
  (let (ws, r) := take_spaces (String.substring 4 (String.length l) l) in
   match ws with
   | EmptyString => false
   | _ => String.eqb r "now"
   end).

(** [/^\d{4}-\d{2}-\d{2}$/.test(s)] *)
Definition is_iso_date (s : string) : bool :=
  match list_ascii_of_string s with
  | [y1; y2; y3; y4; d1; m1; m2; d2; a1; a2] =>
      forallb is_digit [y1; y2; y3; y4; m1; m2; a1; a2]
      && Ascii.eqb d1 "-" && Ascii.eqb d2 "-"
  | _ => false
  end.

End JS.

(** ** The browser

    Playwright objects and the commands the repository issues on them. *)

Definition Page : Type := nat.

(** A locator is a description of how to find elements; building one has
    no effect. *)
Inductive Locator : Type :=
| Loc (p : Page) (selector : string)        (* page.locator(selector) *)
| ByRole (p : Page) (role name : string)    (* page.getByRole(role, { name }) *)
| Within (l : Locator) (selector : string)  (* l.locator(selector) *)
| First (l : Locator)                       (* l.first() *)
| Nth (l : Locator) (i : nat)               (* l.nth(i) *)
| Or (l1 l2 : Locator)                      (* l1.or(l2) *)
| HasText (l : Locator) (re : string).      (* l.filter({ hasText: re }) *)

(** The asynchronous calls: each returns a promise, which may be
    rejected. *)
Inductive Cmd : Type :=
| Launch                                    (* chromium.launch({ headless: true }) *)
| NewContext                                (* browser.newContext() *)
| NewPage                                   (* context.newPage() *)
| Close                                     (* browser.close() *)
| Goto (p : Page) (url waitUntil : string)  (* page.goto(url, { waitUntil }) *)
| WaitForEventPage                          (* context.waitForEvent("page") *)
| WaitForLoadState (p : Page) (state : string)
| WaitForTimeout (p : Page) (ms : nat)
| WaitForNavigation (p : Page) (waitUntil : string)
| WaitForURL (p : Page) (re : string)
| WaitForSelector (p : Page) (selector : string)
| Title (p : Page)                          (* page.title() *)
| IsVisible (l : Locator)
| IsChecked (l : Locator)
| Count (l : Locator)
| Click (l : Locator) (force : bool)        (* l.click() / l.click({ force: true }) *)
| Fill (l : Locator) (value : string)
| WaitFor (l : Locator)                     (* l.waitFor() *)
| WaitForHidden (l : Locator)               (* l.waitFor({ state: 'hidden' }) *)
| InnerText (l : Locator)
| GetAttribute (l : Locator) (name : string)
| EvalTagName (l : Locator)                 (* l.evaluate(n => n.tagName) *)
| EvalSlotAvailable (l : Locator)           (* the availability probe of extractSlotsFromScheduler *)
| EvalDataDate (l : Locator)                (* the data-date probe of extractSlotsFromScheduler *)
| EvalRowHidden (l : Locator)               (* l.evaluate(el => el.style.display === 'none') *)
| EvalRemoveOverlays (p : Page)             (* removes every .k-overlay element *)
| EvalHideLoading (p : Page)                (* hides the loading containers *)
| EvalSetAttendees (p : Page) (num : nat).  (* sets the attendee-count widget *)

(** What a fulfilled promise of each command holds. *)
Definition resp (c : Cmd) : Type :=
  match c with
  | NewPage | WaitForEventPage => Page
  | IsVisible _ | IsChecked _ | EvalSlotAvailable _ | EvalRowHidden _ => bool
  | Count _ => nat
  | Title _ | InnerText _ | EvalTagName _ | EvalDataDate _ => string
  | GetAttribute _ _ => option string
  | EvalSetAttendees _ _ => (bool * string)%type
  | _ => unit
  end.

(** A thrown value: an [Error] with its [message]. *)
Record JsError : Type := mkError { message : string }.

Inductive Result (A : Type) : Type :=
| Ok (a : A)
| Err (e : JsError).
Arguments Ok {A} a.
Arguments Err {A} e.

Definition Trace : Type := list Cmd.

(** Everything outside the repository: the browser and the portal behind
    it, the clock, the process environment and the library functions
    whose results the code only passes on. *)
Record World : Type := mkWorld {
  (* the outcome of a command, given the commands issued before it *)
  respond : Trace -> forall c : Cmd, Result (resp c);
  (* page.url() *)
  page_url : Trace -> Page -> string;
  (* new Date().toISOString() *)
  now_iso : Trace -> string;
  (* process.env[name] *)
  process_env : string -> option string;
  (* new URL(href, base).toString() *)
  URL_resolve : string -> string -> Result string;
  (* new URL(url).searchParams.get(name) *)
  URL_searchParam : string -> string -> Result (option string);
  decodeURIComponent : string -> Result string;
  (* a.localeCompare(b) *)
  localeCompare : string -> string -> Z
}.

(** ** Asynchronous code

    [M A] is an [async] computation of an [A]: it runs in a world, extends
    the trace of commands and either returns or throws. *)

Definition M (A : Type) : Type := World -> Trace -> Result A * Trace.

Definition ret {A} (a : A) : M A := fun _ tr => (Ok a, tr).

Definition throw {A} (e : JsError) : M A := fun _ tr => (Err e, tr).

Definition bind {A B} (m : M A) (k : A -> M B) : M B :=
  fun w tr =>
    match m w tr with
    | (Ok a, tr') => k a w tr'
    | (Err e, tr') => (Err e, tr')
    end.

Notation "x <- c1 ;; c2" := (bind c1 (fun x => c2))
  (at level 61, c1 at next level, right associativity).
Notation "c1 ;; c2" := (bind c1 (fun _ => c2))
  (at level 61, right associativity).

(** [await c]: the command is recorded and the world decides its outcome. *)
Definition call (c : Cmd) : M (resp c) :=
  fun w tr => (respond w tr c, (tr ++ [c])%list).

(** [try { m } catch (e) { h e }], and [m.catch(h)] on a promise. *)
Definition try_catch {A} (m : M A) (h : JsError -> M A) : M A :=
  fun w tr =>
    match m w tr with
    | (Ok a, tr') => (Ok a, tr')
    | (Err e, tr') => h e w tr'
    end.

(** [m.catch(() => d)] *)
Definition or_else {A} (m : M A) (d : A) : M A :=
  try_catch m (fun _ => ret d).

(** [try { m } finally { f }]: [f] runs however [m] ends; if [f] throws,
    that exception replaces the outcome of [m]. *)
Definition try_finally {A} (m : M A) (f : M unit) : M A :=
  fun w tr =>
    match m w tr with
    | (r, tr') =>
        match f w tr' with
        | (Ok _, tr'') => (r, tr'')
        | (Err e, tr'') => (Err e, tr'')
        end
    end.

(** Synchronous reads of the world. *)
Definition url (p : Page) : M string :=
  fun w tr => (Ok (page_url w tr p), tr).

Definition todayIso : M string :=
  fun w tr => (Ok (JS.slice0 10 (now_iso w tr)), tr).

Definition env (name : string) : M (option string) :=
  fun w tr => (Ok (process_env w name), tr).

Definition lift {A} (f : World -> Result A) : M A :=
  fun w tr => (f w, tr).

Definition read {A} (f : World -> A) : M A :=
  fun w tr => (Ok (f w), tr).

(** The typed face of each command. *)
Definition goto (p : Page) (u waitUntil : string) : M unit := call (Goto p u waitUntil).
Definition waitForEventPage : M Page := call WaitForEventPage.
Definition waitForLoadState (p : Page) (state : string) : M unit := call (WaitForLoadState p state).
Definition waitForTimeout (p : Page) (ms : nat) : M unit := call (WaitForTimeout p ms).
Definition waitForNavigation (p : Page) (waitUntil : string) : M unit := call (WaitForNavigation p waitUntil).
Definition waitForURL (p : Page) (re : string) : M unit := call (WaitForURL p re).
Definition waitForSelector (p : Page) (sel : string) : M unit := call (WaitForSelector p sel).
Definition title (p : Page) : M string := call (Title p).
Definition isVisible (l : Locator) : M bool := call (IsVisible l).
Definition isChecked (l : Locator) : M bool := call (IsChecked l).
Definition count (l : Locator) : M nat := call (Count l).
Definition click (l : Locator) : M unit := call (Click l false).
Definition click_force (l : Locator) : M unit := call (Click l true).
Definition fill (l : Locator) (v : string) : M unit := call (Fill l v).
Definition waitFor (l : Locator) : M unit := call (WaitFor l).
Definition waitForHidden (l : Locator) : M unit := call (WaitForHidden l).
Definition innerText (l : Locator) : M string := call (InnerText l).
Definition getAttribute (l : Locator) (name : string) : M (option string) := call (GetAttribute l name).

(** [Promise.all([context.waitForEvent("page").catch(() => null), l.click()])]:
    rejected when the click is; otherwise the page that opened, if one
    did before the wait expired.  The wait is started before the click
    and settles after it: the trace holds each call at the point where
    the world decides its outcome, the click first. *)
Definition clickAndWaitForPage (l : Locator) : M (option Page) :=
  click l ;;
  or_else (p <- waitForEventPage ;; ret (Some p)) None.

(** The three lines every public operation starts with:
    [const browser = await chromium.launch({ headless: true });
     const context = await browser.newContext();
     let page = await context.newPage();] *)
Definition newSession : M Page :=
  call Launch ;;
  call NewContext ;;
  call NewPage.

(** Loops.  A body ends an iteration with [Continue] (falling through, or
    [continue]) or the loop with [Break]. *)
Inductive LoopStep (S : Type) : Type :=
| Continue (s : S)
| Break (s : S).
Arguments Continue {S} s.
Arguments Break {S} s.

(** [for (let i = from; i < from + n; i++) body], threading the variables
    the body assigns. *)
Fixpoint for_range {S} (n from : nat) (body : nat -> S -> M (LoopStep S)) (s : S) : M S :=
  match n with
  | O => ret s
  | Datatypes.S n' =>
      r <- body from s ;;
      match r with
      | Continue s' => for_range n' (Datatypes.S from) body s'
      | Break s' => ret s'
      end
  end.

(** [for (const x of xs) body] *)
Fixpoint for_of {X S} (xs : list X) (body : X -> S -> M (LoopStep S)) (s : S) : M S :=
  match xs with
  | [] => ret s
  | x :: xs' =>
      r <- body x s ;;
      match r with
      | Continue s' => for_of xs' body s'
      | Break s' => ret s'
      end
  end.

(** ** Data model *)

(** A JavaScript number that is an integer, or [NaN] ([None]). *)
Definition num : Type := option Z.

Definition num_of_nat (n : option nat) : num := option_map Z.of_nat n.

(** [a < b] and [a >= b]: both are false when [a] is [NaN]. *)
Definition num_ltb (a : num) (b : Z) : bool :=
  match a with
  | Some x => (x <? b)%Z
  | None => false
  end.

Definition num_geb (a : num) (b : Z) : bool :=
  match a with
  | Some x => (b <=? x)%Z
  | None => false
  end.

Record Preferences : Type := mkPreferences {
  days_ahead : option Z;
  start_hour : option Z;
  end_hour : option Z;
  min_minutes : option Z;
  indoor_only : option bool;
  locations : option (list string);
  dates : option (list string)
}.

Record Slot : Type := mkSlot {
  date_iso : string;
  time_24h : string;
  minutes : num;
  location : string;
  deep_link : option string
}.

Definition DEFAULT_BASE_URL : string :=
  "https://ubc.perfectmind.com/24063/Clients/BookMe4FacilityList/List?calendarId=e65c1527-c4f8-4316-b6d6-3b174041f00e&widgetId=c7c36ee3-2494-4de2-b2cb-d50a86487656&embed=False&singleCalendarWidget=true".

(** [a ?? b] *)
Definition nullish {A} (a : option A) (b : A) : A :=
  match a with
  | Some x => x
  | None => b
  end.

(** [a || b] on strings: the empty string is falsy. *)
Definition or_string (a b : string) : string :=
  match a with
  | EmptyString => b
  | _ => a
  end.

(** The placeholder slot both revisions fall back to:
    [{ date_iso: todayIso, time_24h: "19:00", minutes: prefs.min_minutes ?? 60,
       location: "UBC Tennis Centre – (stubbed)", deep_link: BASE_URL }]. *)
Definition stub_slot (today base_url : string) (prefs : Preferences) : Slot :=
  {| date_iso := today;
     time_24h := "19:00";
     minutes := Some (nullish (min_minutes prefs) 60%Z);
     location := "UBC Tennis Centre – (stubbed)";
     deep_link := Some base_url |}.

(** A double quote, for selectors that contain one. *)
Definition dq : string := String (ascii_of_nat 34) EmptyString.

(** [s] between double quotes. *)
Definition q (s : string) : string := dq ++ s ++ dq.

Definition newline : ascii := ascii_of_nat 10.

Definition nonempty (s : string) : bool :=
  match s with
  | EmptyString => false
  | _ => true
  end.

(** ** The revision in [src/src/ubc.ts] *)

Module Grid.

(** [const BASE_URL = env.ubc.baseUrl ?? DEFAULT_BASE_URL] *)
Definition BASE_URL : M string :=
  read (fun w => nullish (process_env w "UBC_BASE_URL") DEFAULT_BASE_URL).

(** [env.ubc.user] and [env.ubc.pass]; [config/env.ts] ends the process at
    start-up when one of them is missing or empty. *)
Definition env_ubc_user : M string :=
  read (fun w => nullish (process_env w "UBC_USER") EmptyString).

Definition env_ubc_pass : M string :=
  read (fun w => nullish (process_env w "UBC_PASS") EmptyString).

(** The control [ensureLoggedIn] probes first. *)
Definition loginButton (page : Page) : Locator :=
  First (Or (ByRole page "button" "/login/i") (ByRole page "link" "/login/i")).

Definition cwlButtonCandidates (authPage : Page) : list Locator :=
  [ ByRole authPage "button" "/cwl login/i";
    ByRole authPage "link" "/cwl login/i";
    Loc authPage ("a:has(img[alt*=" ++ q "CWL" ++ "])");
    Within (Loc authPage ("img[alt*=" ++ q "CWL" ++ "]")) "xpath=ancestor::a[1]" ].

(** [ensureLoggedIn(context, page)]; [context] is the one browser context
    of the world. *)
Definition ensureLoggedIn (page : Page) : M Page :=
  loginVisible <- or_else (isVisible (loginButton page)) false ;;
  if negb loginVisible then ret page
  else
    maybeNewPage <- clickAndWaitForPage (loginButton page) ;;
    let authPage := nullish maybeNewPage page in
    waitForLoadState authPage "domcontentloaded" ;;
    cwlButton <- for_of (cwlButtonCandidates authPage)
      (fun candidate (found : option Locator) =>
         v <- or_else (isVisible candidate) false ;;
         if v then ret (Break (Some candidate)) else ret (Continue found))
      None ;;
    authPage <- match cwlButton with
                | Some b =>
                    maybeCwlPage <- clickAndWaitForPage b ;;
                    let authPage' := nullish maybeCwlPage authPage in
                    waitForLoadState authPage' "domcontentloaded" ;;
                    ret authPage'
                | None => ret authPage
                end ;;
    user <- env_ubc_user ;;
    pass <- env_ubc_pass ;;
    let usernameLocator :=
      Loc authPage ("input[name=" ++ q "username" ++ "], #username, input[id*="
                    ++ q "Login" ++ "], input[id*=" ++ q "User"
                    ++ "], input[name=" ++ q "j_username" ++ "]") in
    let passwordLocator :=
      Loc authPage ("input[name=" ++ q "password" ++ "], #password, input[type="
                    ++ q "password" ++ "], input[name=" ++ q "j_password" ++ "]") in
    waitFor usernameLocator ;;
    waitFor passwordLocator ;;
    fill usernameLocator user ;;
    fill passwordLocator pass ;;
    let submitButton := First (ByRole authPage "button" "/login|sign in|submit/i") in
    click submitButton ;;
    waitForLoadState authPage "networkidle" ;;
    base <- BASE_URL ;;
    let baseNoQuery := hd EmptyString (JS.split "?" base) in
    u <- url authPage ;;
    (if negb (JS.startsWith u baseNoQuery)
     then goto authPage base "networkidle"
     else ret tt) ;;
    ret authPage.

Definition inferCourtName (chooseButton : Locator) : M string :=
  try_catch
    (let card := Within chooseButton "xpath=ancestor::div[1]" in
     t <- innerText card ;;
     let text := JS.trim t in
     let firstLine :=
       hd EmptyString (filter nonempty (map JS.trim (JS.split newline text))) in
     ret (or_string firstLine "Unknown court"))
    (fun _ => ret "Unknown court").

Definition getDesiredMinutes (prefs : Preferences) : Z :=
  let requested := nullish (min_minutes prefs) 60%Z in
  if (requested <=? 60)%Z then 60%Z else 120%Z.

Definition parseTimeFromText (raw : string) : option string :=
  let text := JS.trim raw in
  if negb (nonempty text) then None
  else
    match JS.clock_search true text with
    | None => None
    | Some m =>
        let hour := JS.digits_value (JS.cm_hh m) in
        let minute := JS.cm_mm m in
        let ampm := JS.toUpperCase (JS.cm_ampm m) in
        let hour := if (ampm =? "PM")%string && negb (hour =? 12) then hour + 12 else hour in
        let hour := if (ampm =? "AM")%string && (hour =? 12) then 0 else hour in
        let hh := JS.padStart2 (JS.toString hour) in
        Some (hh ++ ":" ++ minute)
    end.

Definition debugListClickable (page : Page) : M unit :=
  let clickable :=
    Loc page "button, a, [role='button'], input[type='button'], input[type='submit']" in
  cnt <- count clickable ;;
  let sampleCount := Nat.min cnt 30 in
  for_range sampleCount 0
    (fun i (_ : unit) =>
       let el := Nth clickable i in
       _ <- or_else (call (EvalTagName el)) "UNKNOWN" ;;
       _ <- or_else (getAttribute el "role") None ;;
       _ <- or_else (innerText el) EmptyString ;;
       _ <- or_else (getAttribute el "value") None ;;
       ret (Continue tt))
    tt.

(** The test that recognises the scheduler table,
    [/8:00 AM|9:00 AM|10:00 PM|Bookable 24hrs in advance/i]. *)
Definition looks_like_grid (snippet : string) : bool :=
  JS.test_any_ci ["8:00 AM"; "9:00 AM"; "10:00 PM"; "Bookable 24hrs in advance"] snippet.

Definition bookNowSelector : string :=
  "button:has-text(" ++ q "Book Now" ++ "), a:has-text(" ++ q "Book Now"
  ++ "), div:has-text(" ++ q "Book Now" ++ ")".

(** One iteration of the row loop of [scanSingleCourtPage]: the slot the
    table row [row] yields, or [None] when the row is skipped. *)
Definition slot_of_row (page : Page) (prefs : Preferences) (courtName todayIso : string)
  (row : Locator) : M (option Slot) :=
  let prefsStart := nullish (start_hour prefs) 0%Z in
  let prefsEnd := nullish (end_hour prefs) 24%Z in
  let minutes := nullish (min_minutes prefs) 60%Z in
  let timeCell := First (Within row "th, td") in
  t <- or_else (innerText timeCell) EmptyString ;;
  let rawTime := JS.trim t in
  match parseTimeFromText rawTime with
  | None => ret None
  | Some time24h =>
      let hhStr := hd EmptyString (JS.split ":" time24h) in
      let hh := num_of_nat (JS.parseInt hhStr) in
      if num_ltb hh prefsStart || num_geb hh prefsEnd then ret None
      else
        let bookNowInRow := Within row bookNowSelector in
        bookNowCount <- count bookNowInRow ;;
        if bookNowCount =? 0 then ret None
        else
          u <- url page ;;
          ret (Some {| date_iso := todayIso;
                       time_24h := time24h;
                       minutes := Some minutes;
                       location := or_string courtName "UBC Tennis Centre – court";
                       deep_link := Some u |})
  end.

Definition scanSingleCourtPage (page : Page) (prefs : Preferences) (courtName : string)
  : M (list Slot) :=
  or_else (waitForTimeout page 2000) tt ;;
  let tables := Loc page "table" in
  tableCount <- count tables ;;
  gridTable <- for_range tableCount 0
    (fun i (found : option Locator) =>
       let t := Nth tables i in
       txt <- or_else (innerText t) EmptyString ;;
       let snippet := JS.slice0 500 txt in
       if looks_like_grid snippet then ret (Break (Some t)) else ret (Continue found))
    None ;;
  match gridTable with
  | None => debugListClickable page ;; ret []
  | Some gridTable =>
      let rows := Within gridTable "tr" in
      rowCount <- count rows ;;
      todayIso <- todayIso ;;
      for_range rowCount 0
        (fun i (slots : list Slot) =>
           r <- slot_of_row page prefs courtName todayIso (Nth rows i) ;;
           match r with
           | Some slot => ret (Continue (slots ++ [slot])%list)
           | None => ret (Continue slots)
           end)
        []
  end.

Definition chooseButtons (page : Page) : Locator :=
  Or (Loc page ("button:has-text(" ++ q "Choose" ++ "), a:has-text(" ++ q "Choose" ++ ")"))
     (ByRole page "button" "/choose/i").

Definition scanCourtsAndSlots (page : Page) (prefs : Preferences) : M (list Slot) :=
  totalCourts <- count (chooseButtons page) ;;
  if totalCourts =? 0 then debugListClickable page ;; ret []
  else
    let maxCourts := Nat.min totalCourts 10 in
    base <- BASE_URL ;;
    for_range maxCourts 0
      (fun i (slots : list Slot) =>
         let button := Nth (chooseButtons page) i in
         courtName <- inferCourtName button ;;
         slots' <- try_catch
           (href <- getAttribute button "href" ;;
            (match href with
             | None | Some EmptyString => click button
             | Some h =>
                 facilityUrl <- lift (fun w => URL_resolve w h base) ;;
                 goto page facilityUrl "domcontentloaded"
             end) ;;
            courtSlots <- scanSingleCourtPage page prefs courtName ;;
            ret (slots ++ courtSlots)%list)
           (fun _ => ret slots) ;;
         try_catch
           (goto page base "domcontentloaded" ;; ret (Continue slots'))
           (fun _ => ret (Break slots')))
      [].

(** The body of [checkAvailability]'s inner [try]: the scanned slots when
    there are some ([return realSlots]), nothing when the scan found none
    or threw. *)
Definition scan_or_nothing (page : Page) (prefs : Preferences) : M (option (list Slot)) :=
  try_catch
    (realSlots <- scanCourtsAndSlots page prefs ;;
     if 0 <? List.length realSlots then ret (Some realSlots) else ret None)
    (fun _ => ret None).

(** The first two statements of the outer [try]: open the court list and
    make sure the session is logged in. *)
Definition open_list (page : Page) : M Page :=
  base <- BASE_URL ;;
  goto page base "networkidle" ;;
  ensureLoggedIn page.

(** The fallback [return [ { date_iso: todayIso, ... } ]]. *)
Definition placeholder (prefs : Preferences) : M (list Slot) :=
  todayIso <- todayIso ;;
  base <- BASE_URL ;;
  ret [stub_slot todayIso base prefs].

Definition checkAvailability (prefs : Preferences) : M (list Slot) :=
  page <- newSession ;;
  try_finally
    (page <- open_list page ;;
     found <- scan_or_nothing page prefs ;;
     match found with
     | Some realSlots => ret realSlots
     | None => placeholder prefs
     end)
    (call Close).

End Grid.

(** ** The revision in [src/unnamed/part_003] *)

Record BookingRequest : Type := mkBookingRequest {
  facility_url : string;
  req_time_24h : string;          (* time_24h *)
  duration_hours : nat;           (* 1 | 2 *)
  num_people : nat                (* 1 | 2 | 3 | 4 *)
}.

Record BookedSlot : Type := mkBookedSlot {
  bs_time : string;
  bs_duration : nat;
  bs_location : string
}.

Record BookingResult : Type := mkBookingResult {
  success : bool;
  confirmation_number : option string;
  result_message : string;        (* message *)
  booked_slot : option BookedSlot
}.

(** [{ success: false, message }] *)
Definition failure (msg : string) : BookingResult :=
  {| success := false; confirmation_number := None;
     result_message := msg; booked_slot := None |}.

(** [Array.prototype.sort(cmp)].  The language fixes the result for a
    consistent comparator: the stable sorted arrangement; insertion from
    the right computes it. *)
Fixpoint sort_insert {A} (cmp : A -> A -> Z) (x : A) (l : list A) : list A :=
  match l with
  | [] => [x]
  | y :: l' => if (cmp x y <=? 0)%Z then x :: y :: l' else y :: sort_insert cmp x l'
  end.

Fixpoint array_sort {A} (cmp : A -> A -> Z) (l : list A) : list A :=
  match l with
  | [] => []
  | x :: l' => sort_insert cmp x (array_sort cmp l')
  end.

Module Booking.

(** [const BASE_URL = process.env.UBC_BASE_URL ?? "https://..."] *)
Definition BASE_URL : M string :=
  read (fun w => nullish (process_env w "UBC_BASE_URL") DEFAULT_BASE_URL).

(** [process.env[name] || ""] *)
Definition env_or_empty (name : string) : M string :=
  read (fun w => nullish (process_env w name) EmptyString).

Definition loginButton (page : Page) : Locator := First (Loc page "text=Login").

Definition candidates (authPage : Page) : list Locator :=
  [ ByRole authPage "button" "/cwl login/i";
    ByRole authPage "link" "/cwl login/i";
    Loc authPage ("a:has(img[alt*=" ++ q "CWL" ++ "])");
    Within (Loc authPage ("img[alt*=" ++ q "CWL" ++ "]")) "xpath=ancestor::a[1]" ].

(** [ensureLoggedIn(context, page)] *)
Definition ensureLoggedIn (page : Page) : M Page :=
  loginVisible <- or_else (isVisible (loginButton page)) false ;;
  if negb loginVisible then ret page
  else
    maybeNewPage <- clickAndWaitForPage (loginButton page) ;;
    let authPage := nullish maybeNewPage page in
    waitForLoadState authPage "domcontentloaded" ;;
    cwlButton <- for_of (candidates authPage)
      (fun cand (found : option Locator) =>
         let first := First cand in
         v <- or_else (isVisible first) false ;;
         if v then ret (Break (Some first)) else ret (Continue found))
      None ;;
    authPage <- match cwlButton with
                | Some b =>
                    maybeCwlPage <- clickAndWaitForPage b ;;
                    let authPage' := nullish maybeCwlPage authPage in
                    waitForLoadState authPage' "domcontentloaded" ;;
                    ret authPage'
                | None => ret authPage
                end ;;
    user <- env_or_empty "UBC_USER" ;;
    pass <- env_or_empty "UBC_PASS" ;;
    if negb (nonempty user) || negb (nonempty pass)
    then throw (mkError "UBC_USER and UBC_PASS must be set in environment")
    else
      let usernameLocator :=
        Loc authPage ("input[name=" ++ q "username" ++ "], #username, input[id*="
                      ++ q "Login" ++ "], input[id*=" ++ q "User" ++ "]") in
      let passwordLocator :=
        Loc authPage ("input[name=" ++ q "password" ++ "], #password, input[type="
                      ++ q "password" ++ "]") in
      waitFor usernameLocator ;;
      waitFor passwordLocator ;;
      fill usernameLocator user ;;
      fill passwordLocator pass ;;
      let submitButton := First (ByRole authPage "button" "/login|sign in|submit/i") in
      click submitButton ;;
      waitForLoadState authPage "networkidle" ;;
      base <- BASE_URL ;;
      let baseNoQuery := hd EmptyString (JS.split "?" base) in
      u <- url authPage ;;
      (if negb (JS.startsWith u baseNoQuery)
       then goto authPage base "networkidle"
       else ret tt) ;;
      ret authPage.

(** [to24h(time12)]: ["03:00 PM"] becomes ["15:00"]. *)
Definition to24h (time12 : string) : option string :=
  match JS.clock_at true (JS.trim time12) with
  | Some m =>
      match JS.cm_rest m with
      | EmptyString =>
          let h := JS.digits_value (JS.cm_hh m) in
          let isPM := (JS.toUpperCase (JS.cm_ampm m) =? "PM")%string in
          let h := if (h =? 12) && negb isPM then 0
                   else if negb (h =? 12) && isPM then h + 12
                   else h in
          Some (JS.padStart2 (JS.toString h) ++ ":" ++ JS.cm_mm m)
      | _ => None
      end
  | None => None
  end.

(** [durationMinutes(start24, end24)]; [None] is [NaN]. *)
Definition durationMinutes (start24 end24 : string) : num :=
  match map JS.Number (JS.split ":" start24), map JS.Number (JS.split ":" end24) with
  | Some sh :: Some sm :: _, Some eh :: Some em :: _ =>
      Some ((Z.of_nat eh * 60 + Z.of_nat em) - (Z.of_nat sh * 60 + Z.of_nat sm))%Z
  | _, _ => None
  end.

Definition bookNowSpans (page : Page) : Locator :=
  HasText (Loc page "#scheduler .k-event-template.facility-booking-slot span") "/Book Now/i".

(** The preference filter of [extractSlotsFromScheduler], applied to an
    interval that starts at [start24] and lasts [mins] minutes: [true]
    when the interval is kept. *)
Definition passes_preferences (prefs : Preferences) (start24 : string) (mins : num) : bool :=
  let h := num_of_nat (JS.parseInt (hd EmptyString (JS.split ":" start24))) in
  negb (match start_hour prefs with
        | Some s => num_ltb h s
        | None => false
        end)
  && negb (match end_hour prefs with
           | Some e => num_geb h e
           | None => false
           end)
  && negb (match min_minutes prefs with
           | Some m => num_ltb mins m
           | None => false
           end).

(** The first half of an iteration of the loop of
    [extractSlotsFromScheduler]: the interval the marker [span] shows, as
    a pair of 24-hour times, or [None] when the marker is skipped (not
    visible, not labelled [Book Now], not available, or without a time
    range in its title). *)
Definition interval_of_span (span : Locator) : M (option (string * string)) :=
  visible <- or_else (isVisible span) false ;;
  if negb visible then ret None
  else
    t <- or_else (innerText span) EmptyString ;;
    let textContent := JS.trim t in
    if negb (JS.is_book_now textContent) then ret None
    else
      isAvailable <- call (EvalSlotAvailable span) ;;
      if negb isAvailable then ret None
      else
        a <- getAttribute span "title" ;;
        let titleAttr := nullish a EmptyString in
        match JS.range_search titleAttr with
        | None => ret None
        | Some (g1, g2) =>
            match to24h g1, to24h g2 with
            | Some start24, Some end24 => ret (Some (start24, end24))
            | _, _ => ret None
            end
        end.

(** The second half: the preference filter, then the slot. *)
Definition slot_of_interval (page : Page) (prefs : Preferences) (courtLabel : string)
  (span : Locator) (start24 end24 : string) : M (option Slot) :=
  let mins := durationMinutes start24 end24 in
  if negb (passes_preferences prefs start24 mins) then ret None
  else
    dateIso <- call (EvalDataDate span) ;;
    date_iso <- (if nonempty dateIso && JS.is_iso_date dateIso
                 then ret dateIso
                 else todayIso) ;;
    u <- url page ;;
    ret (Some {| date_iso := date_iso;
                 time_24h := start24;
                 minutes := mins;
                 location := courtLabel;
                 deep_link := Some u |}).

(** One iteration of the loop: the slot the marker [span] yields, or
    [None] when the marker is skipped. *)
Definition slot_of_span (page : Page) (prefs : Preferences) (courtLabel : string)
  (span : Locator) : M (option Slot) :=
  r <- interval_of_span span ;;
  match r with
  | Some (start24, end24) => slot_of_interval page prefs courtLabel span start24 end24
  | None => ret None
  end.

Definition extractSlotsFromScheduler (page : Page) (prefs : Preferences)
  (courtLabel : string) : M (list Slot) :=
  cnt <- count (bookNowSpans page) ;;
  for_range cnt 0
    (fun i (slots : list Slot) =>
       r <- slot_of_span page prefs courtLabel (Nth (bookNowSpans page) i) ;;
       match r with
       | Some slot => ret (Continue (slots ++ [slot])%list)
       | None => ret (Continue slots)
       end)
    [].

Definition chooseButtons (page : Page) : Locator :=
  Loc page ("a.pm-confirm-button.desktop-details:has-text(" ++ q "Choose" ++ ")").

(** The label read next to the [Choose] button, [dflt] when there is
    none: the first [try] of the loop of [scanCourtsAndSlots]. *)
Definition label_near_button (button : Locator) (dflt : string) : M string :=
  try_catch
    (let facilityItem :=
       First (Within button ("xpath=ancestor::div[contains(@class," ++ q "facility-item" ++ ")]")) in
     v <- or_else (isVisible facilityItem) false ;;
     if v then
       let heading := First (Within facilityItem ".facility-details h2") in
       v' <- or_else (isVisible heading) false ;;
       if v' then
         t <- innerText heading ;;
         let text := JS.trim t in
         ret (or_string text dflt)
       else ret dflt
     else ret dflt)
    (fun _ => ret dflt).

(** The name read from the facility page, [dflt] when there is none: the
    second [try] of the loop. *)
Definition label_on_page (page : Page) (dflt : string) : M string :=
  try_catch
    (let facilityNameHeading := First (Loc page "h1.facility-name") in
     v <- or_else (isVisible facilityNameHeading) false ;;
     if v then
       t <- innerText facilityNameHeading ;;
       let extractedName := JS.trim t in
       ret (or_string extractedName dflt)
     else ret dflt)
    (fun _ => ret dflt).

Definition scanCourtsAndSlots (page : Page) (prefs : Preferences) : M (list Slot) :=
  cnt <- count (chooseButtons page) ;;
  let limit := Nat.min cnt 10 in
  base <- BASE_URL ;;
  for_range limit 0
    (fun i (allSlots : list Slot) =>
       let button := Nth (chooseButtons page) i in
       courtLabel <- label_near_button button ("Court " ++ JS.toString (i + 1)) ;;
       href <- getAttribute button "href" ;;
       facilityUrl <- match href with
                      | None | Some EmptyString =>
                          click button ;;
                          waitForNavigation page "networkidle" ;;
                          url page
                      | Some h => lift (fun w => URL_resolve w h base)
                      end ;;
       goto page facilityUrl "networkidle" ;;
       courtLabel <- label_on_page page courtLabel ;;
       _ <- or_else (count (Loc page ("#scheduler tr[role=" ++ q "row" ++ "], #scheduler .k-scheduler-row"))) 0 ;;
       slotsHere <- extractSlotsFromScheduler page prefs courtLabel ;;
       goto page base "networkidle" ;;
       ret (Continue (allSlots ++ slotsHere)%list))
    [].

(** The comparator [checkAvailability] sorts with. *)
Definition compare_slots (w : World) (a b : Slot) : Z :=
  if (date_iso a =? date_iso b)%string
  then localeCompare w (time_24h a) (time_24h b)
  else localeCompare w (date_iso a) (date_iso b).

(** The first two statements of the [try]: open the court list and make
    sure the session is logged in. *)
Definition open_list (page : Page) : M Page :=
  base <- BASE_URL ;;
  goto page base "networkidle" ;;
  ensureLoggedIn page.

(** The fallback [return [ { date_iso: todayIso, ... } ]]. *)
Definition placeholder (prefs : Preferences) : M (list Slot) :=
  todayIso <- todayIso ;;
  base <- BASE_URL ;;
  ret [stub_slot todayIso base prefs].

Definition checkAvailability (prefs : Preferences) : M (list Slot) :=
  page <- newSession ;;
  try_finally
    (page <- open_list page ;;
     slots <- scanCourtsAndSlots page prefs ;;
     if 0 <? List.length slots
     then read (fun w => array_sort (compare_slots w) slots)
     else placeholder prefs)
    (call Close).

(** *** The booking pipeline

    [bookSlot] is one long [try] block whose steps return early on
    failure.  Each definition below is the rest of the block from one of
    its [STEP] banners on; they are stated last step first. *)

(** [/confirmation|thank you|order.*complete|booking.*confirmed|receipt/i] *)
Definition has_confirmation (pageText : string) : bool :=
  let l := JS.toLowerCase pageText in
  JS.includes l "confirmation" || JS.includes l "thank you"
  || JS.test_dotstar "order" "complete" l
  || JS.test_dotstar "booking" "confirmed" l
  || JS.includes l "receipt".

Definition placeOrderButton (page : Page) : Locator :=
  First (Loc page ("button.process-now, button:has-text(" ++ q "Place My Order" ++ ")")).

(** STEP 5: click [Place My Order] and classify the page that follows. *)
Definition step5 (page : Page) (request : BookingRequest) (courtName : string)
  : M BookingResult :=
  v <- or_else (isVisible (placeOrderButton page)) false ;;
  if negb v then ret (failure "Place My Order button not found")
  else
    click (placeOrderButton page) ;;
    waitForLoadState page "networkidle" ;;
    waitForTimeout page 3000 ;;
    pageText <- or_else (innerText (Loc page "body")) EmptyString ;;
    let hasConfirmation := has_confirmation pageText in
    let errorElement :=
      First (Loc page (".error, .alert-danger, .validation-error, [class*="
                       ++ q "error-message" ++ "]")) in
    errorText <- or_else (innerText errorElement) EmptyString ;;
    if nonempty errorText && negb hasConfirmation
    then ret (failure ("Booking failed: " ++ errorText))
    else
      confirmationNumber <-
        or_else
          (t <- innerText
                  (First (Loc page ("[class*=" ++ q "confirmation-number" ++ "], [class*="
                                    ++ q "order-number" ++ "], [class*="
                                    ++ q "receipt-number" ++ "]"))) ;;
           ret (Some t))
          None ;;
      ret {| success := true;
             confirmation_number := confirmationNumber;
             result_message := "Booking completed successfully";
             booked_slot := Some {| bs_time := req_time_24h request;
                                    bs_duration := duration_hours request * 60;
                                    bs_location := JS.trim courtName |} |}.

(** STEP 4: select the stored credit card when one is offered. *)
Definition step4 (page : Page) (request : BookingRequest) (courtName : string)
  : M BookingResult :=
  let existingCardOption :=
    First (Loc page ".org-payment-type:has(.icon-creditcard-visa, .icon-creditcard-mastercard)") in
  v <- or_else (isVisible existingCardOption) false ;;
  (if v then click existingCardOption ;; waitForTimeout page 1000 else ret tt) ;;
  step5 page request courtName.

Definition nextButtonSelectors : list string :=
  [ ".next-button-container a.bm-button";
    ".next-button-container a";
    ".bm-form-navbar a.bm-button";
    "a.bm-button:has-text(" ++ q "Next" ++ ")";
    "a:has(span:text(" ++ q "Next" ++ "))";
    ".bm-form-navbar a[title=" ++ q "Next" ++ "]";
    "button:has-text(" ++ q "Next" ++ ")";
    "input[type=" ++ q "submit" ++ "][value*=" ++ q "Next" ++ "]" ].

(** [await l.all()] *)
Definition all (l : Locator) : M (list Locator) :=
  n <- count l ;; ret (map (Nth l) (seq 0 n)).

Definition attendeeRows (page : Page) : Locator :=
  Loc page "table tbody tr.bm-selectable-row, #event-attendees tr.bm-selectable-row, .bm-participant-selection tr.bm-selectable-row".

Definition attendeeCheckbox (row : Locator) : Locator :=
  First (Within row ("input[type=" ++ q "checkbox" ++ "][id*=" ++ q "IsParticipating"
                     ++ "]:not(.disabled):not([disabled])")).

(** [rowClass?.includes("disabled") || false] *)
Definition class_disabled (rowClass : option string) : bool :=
  match rowClass with
  | Some c => JS.includes c "disabled"
  | None => false
  end.

(** The first loop over the attendee rows: looks for the row labelled
    [(You)]; the state is [selectedAttendeeName]. *)
Definition select_you (page : Page) (rowCount : nat) : M string :=
  for_range rowCount 0
    (fun i (selectedAttendeeName : string) =>
       let row := Nth (attendeeRows page) i in
       label <- or_else (innerText (Within row "label")) EmptyString ;;
       rowClass <- or_else (getAttribute row "class") (Some EmptyString) ;;
       isRowHidden <- or_else (call (EvalRowHidden row)) false ;;
       if isRowHidden then ret (Continue selectedAttendeeName)
       else if JS.includes label "(You)" then
         if class_disabled rowClass then ret (Continue label)
         else
           let checkbox := attendeeCheckbox row in
           c <- count checkbox ;;
           if 0 <? c then
             checked <- or_else (isChecked checkbox) false ;;
             (if negb checked then click_force checkbox else ret tt) ;;
             ret (Break label)
           else
             click row ;;
             ret (Break label)
       else ret (Continue selectedAttendeeName))
    EmptyString.

(** The fallback loop: the first enabled, visible attendee. *)
Definition select_first_available (page : Page) (rowCount : nat) : M string :=
  for_range rowCount 0
    (fun i (selectedAttendeeName : string) =>
       let row := Nth (attendeeRows page) i in
       rowClass <- or_else (getAttribute row "class") (Some EmptyString) ;;
       let isDisabled := class_disabled rowClass in
       isRowHidden <- or_else (call (EvalRowHidden row)) false ;;
       if negb isDisabled && negb isRowHidden then
         let checkbox := attendeeCheckbox row in
         c <- count checkbox ;;
         if 0 <? c then
           checked <- or_else (isChecked checkbox) false ;;
           (if negb checked then click_force checkbox else ret tt) ;;
           name <- or_else (innerText (Within row "label")) "Unknown" ;;
           ret (Break name)
         else ret (Continue selectedAttendeeName)
       else ret (Continue selectedAttendeeName))
    EmptyString.

(** STEP 3: select an attendee and click [Next]. *)
Definition step3 (page : Page) (request : BookingRequest) (courtName : string)
  : M BookingResult :=
  or_else (waitForSelector page "table tr.bm-selectable-row, #event-attendees, .bm-participant-selection") tt ;;
  _ <- or_else (title page) EmptyString ;;
  rowCount <- count (attendeeRows page) ;;
  selectedAttendeeName <- select_you page rowCount ;;
  selectedAttendeeName <-
    (if negb (nonempty selectedAttendeeName)
     then select_first_available page rowCount
     else ret selectedAttendeeName) ;;
  waitForTimeout page 3000 ;;
  if negb (nonempty selectedAttendeeName)
  then ret (failure "Could not select any attendee - none available or all disabled")
  else
    waitForTimeout page 2000 ;;
    nextButton <- for_of nextButtonSelectors
      (fun selector (found : option Locator) =>
         let btn := First (Loc page selector) in
         v <- or_else (isVisible btn) false ;;
         if v then ret (Break (Some btn)) else ret (Continue found))
      None ;;
    match nextButton with
    | None =>
        allButtons <- all (Loc page ("a.bm-button, button, input[type=" ++ q "submit" ++ "]")) ;;
        for_of (firstn 10 allButtons)
          (fun btn (_ : unit) =>
             _ <- or_else (innerText btn) EmptyString ;;
             _ <- or_else (getAttribute btn "href") (Some EmptyString) ;;
             ret (Continue tt))
          tt ;;
        ret (failure "Next button not found on attendee selection page")
    | Some nextButton =>
        click nextButton ;;
        waitForLoadState page "networkidle" ;;
        waitForTimeout page 2000 ;;
        step4 page request courtName
    end.

Definition reserveButton (page : Page) : Locator :=
  First (Loc page ("button.button-book[name=" ++ q "book-button" ++ "], button:has-text("
                   ++ q "Reserve" ++ ")")).

(** The re-authentication the pipeline runs when the [Reserve] click has
    led to a login page at [newUrl]. *)
Definition relogin (page : Page) (newUrl : string) : M unit :=
  returnUrl <- lift (fun w => URL_searchParam w newUrl "returnUrl") ;;
  let cwlButton :=
    First (Loc page ("a:has-text(" ++ q "CWL" ++ "), button:has-text(" ++ q "CWL"
                     ++ "), img[alt*=" ++ q "CWL" ++ "]")) in
  v <- or_else (isVisible cwlButton) false ;;
  (if v then click cwlButton ;; waitForLoadState page "domcontentloaded" else ret tt) ;;
  let usernameField :=
    First (Loc page ("input[name=" ++ q "username" ++ "], #username, input[type="
                     ++ q "text" ++ "][id*=" ++ q "user" ++ "]")) in
  let passwordField :=
    First (Loc page ("input[name=" ++ q "password" ++ "], #password, input[type="
                     ++ q "password" ++ "]")) in
  v <- or_else (isVisible usernameField) false ;;
  (if v then
     user <- env_or_empty "UBC_USER" ;;
     pass <- env_or_empty "UBC_PASS" ;;
     fill usernameField user ;;
     fill passwordField pass ;;
     let submitBtn :=
       First (Loc page ("button[type=" ++ q "submit" ++ "], input[type=" ++ q "submit"
                        ++ "], button:has-text(" ++ q "Login" ++ "), button:has-text("
                        ++ q "Sign" ++ ")")) in
     click submitBtn ;;
     waitForLoadState page "networkidle"
   else ret tt) ;;
  currentUrlAfterLogin <- url page ;;
  match returnUrl with
  | Some (String c r) =>
      if negb (JS.includes currentUrlAfterLogin "BookMe4EventParticipants") then
        decodedUrl <- lift (fun w => decodeURIComponent w (String c r)) ;;
        goto page decodedUrl "networkidle"
      else ret tt
  | _ => ret tt
  end.

(** STEP 2, after the slot has been clicked: the [Reserve] button, the
    attendee count, the click and what it leads to. *)
Definition step2 (page : Page) (request : BookingRequest) (courtName : string)
  : M BookingResult :=
  v <- or_else (isVisible (reserveButton page)) false ;;
  if negb v then ret (failure "Reserve button not found after clicking Book Now")
  else
    try_catch (waitForHidden (Loc page ".k-overlay"))
              (fun _ => call (EvalRemoveOverlays page)) ;;
    try_catch (waitForHidden (Loc page ".loading-container, .bm-loading-container, #bm-overlay"))
              (fun _ => call (EvalHideLoading page)) ;;
    let numAttendees := if num_people request =? 0 then 2 else num_people request in
    _ <- call (EvalSetAttendees page numAttendees) ;;
    waitForTimeout page 1000 ;;
    _ <- or_else (innerText (Loc page ".booking-summary")) EmptyString ;;
    call (EvalRemoveOverlays page) ;;
    click_force (reserveButton page) ;;
    or_else (waitForURL page "/BookMe4EventParticipants|Participant|Attendee|portal\.recreation|Login/i") tt ;;
    or_else (waitForLoadState page "networkidle") tt ;;
    waitForTimeout page 2000 ;;
    newUrl <- url page ;;
    (if JS.includes newUrl "portal.recreation.ubc.ca" || JS.includes newUrl "Login"
     then relogin page newUrl
     else ret tt) ;;
    u <- url page ;;
    if JS.includes u "BookMe4LandingPages/Facility" then
      click_force (reserveButton page) ;;
      waitForTimeout page 3000 ;;
      let altBookButton :=
        First (Loc page (".booking-summary button, .booking-summary a, [data-bind*="
                         ++ q "BookButton" ++ "] button")) in
      v <- or_else (isVisible altBookButton) false ;;
      (if v then
         call (EvalRemoveOverlays page) ;;
         click_force altBookButton ;;
         waitForTimeout page 3000
       else ret tt) ;;
      finalUrl <- url page ;;
      if JS.includes finalUrl "BookMe4LandingPages/Facility" then
        errorMsg <- or_else (innerText (First (Loc page ".error, .alert, .validation-error")))
                            EmptyString ;;
        if nonempty errorMsg
        then ret (failure ("Could not proceed with booking: " ++ errorMsg))
        else ret (failure "Reserve button click did not navigate to attendee selection page")
      else step3 page request courtName
    else step3 page request courtName.

(** The 12-hour label [bookSlot] looks for, [time12h]:
    [const [hour, minute] = request.time_24h.split(":").map(Number)] and
    the three lines that follow.  [minute.toString()] throws a
    [TypeError] when [time_24h] holds no colon. *)
Definition time12h (time_24h : string) : Result string :=
  let parts := map JS.Number (JS.split ":" time_24h) in
  let hour := hd None parts in
  match tl parts with
  | [] => Err (mkError "Cannot read properties of undefined (reading 'toString')")
  | minute :: _ =>
      let hour12 := match hour with
                    | Some h => if h =? 0 then Some 12
                                else if 12 <? h then Some (h - 12) else Some h
                    | None => None
                    end in
      let ampm := match hour with
                  | Some h => if 12 <=? h then "PM" else "AM"
                  | None => "AM"
                  end in
      Ok (JS.showNumber hour12 ++ ":" ++ JS.padStart2 (JS.showNumber minute) ++ " " ++ ampm)
  end.

(** The search of STEP 1: the first marker whose title contains the
    label, compared in lower case. *)
Definition find_target (page : Page) (label : string) (spanCount : nat) : M (option Locator) :=
  for_range spanCount 0
    (fun i (targetSpan : option Locator) =>
       let span := Nth (bookNowSpans page) i in
       a <- getAttribute span "title" ;;
       let titleAttr := nullish a EmptyString in
       if JS.includes (JS.toLowerCase titleAttr) (JS.toLowerCase label)
       then ret (Break (Some span))
       else ret (Continue targetSpan))
    None.

Definition not_found_message (request : BookingRequest) (label : string) : string :=
  "Could not find available slot at " ++ req_time_24h request ++ " (" ++ label ++ ")".

(** STEP 1: find and click the marker of the requested time. *)
Definition step1 (page : Page) (request : BookingRequest) (courtName : string)
  : M BookingResult :=
  label <- lift (fun _ => time12h (req_time_24h request)) ;;
  spanCount <- count (bookNowSpans page) ;;
  targetSpan <- find_target page label spanCount ;;
  match targetSpan with
  | None => ret (failure (not_found_message request label))
  | Some targetSpan =>
      click targetSpan ;;
      waitForTimeout page 2000 ;;
      step2 page request courtName
  end.

(** The head of the [try] block of [bookSlot]: reach the facility page,
    logged in, and read the court's name. *)
Definition arrive (page : Page) (request : BookingRequest) : M (Page * string) :=
  goto page (facility_url request) "networkidle" ;;
  page <- ensureLoggedIn page ;;
  u <- url page ;;
  (if negb (JS.includes u "BookMe4LandingPages/Facility")
   then goto page (facility_url request) "networkidle"
   else ret tt) ;;
  courtName <- or_else (innerText (First (Loc page "h1.facility-name"))) "Unknown Court" ;;
  ret (page, courtName).

(** The body of the [try] block of [bookSlot]. *)
Definition pipeline (page : Page) (request : BookingRequest) : M BookingResult :=
  r <- arrive page request ;;
  step1 (fst r) request (snd r).

(** The [catch] clause of [bookSlot]:
    [`Booking failed: ${error?.message || "Unknown error"}`]. *)
Definition booking_failed (error : JsError) : BookingResult :=
  failure ("Booking failed: " ++ or_string (message error) "Unknown error").

Definition bookSlot (request : BookingRequest) : M BookingResult :=
  page <- newSession ;;
  try_finally
    (try_catch (pipeline page request) (fun error => ret (booking_failed error)))
    (call Close).

End Booking.

(** ** Notions the statements use *)

(** Commands that navigate, click or type. *)
Definition is_interaction (c : Cmd) : bool :=
  match c with
  | Goto _ _ _ | Click _ _ | Fill _ _ => true
  | _ => false
  end.

Definition is_close (c : Cmd) : bool :=
  match c with
  | Close => true
  | _ => false
  end.

(** [browser.close()] has been called along the trace. *)
Definition closed (tr : Trace) : bool := existsb is_close tr.

(** A computation only ever adds commands to the trace. *)
Definition extends_trace {A} (m : M A) : Prop :=
  forall w tr r tr', m w tr = (r, tr') -> exists ext, tr' = (tr ++ ext)%list.

(** A computation reports success only after [Place My Order] has been
    clicked on [page]. *)
Definition success_after_order (page : Page) (m : M BookingResult) : Prop :=
  forall w tr r tr',
    m w tr = (Ok r, tr') -> success r = true ->
    In (Click (Booking.placeOrderButton page) false) tr'
    /\ result_message r = "Booking completed successfully".

(** A click on an attendee row or on its checkbox. *)
Definition clicks_attendee (c : Cmd) : bool :=
  match c with
  | Click (Nth (Loc _ _) _) _ => true
  | Click (First (Within (Nth (Loc _ _) _) _)) _ => true
  | _ => false
  end.

(** A [World] in which the court list opens, logged in, on [page]:
    what precedes the scan in [checkAvailability]. *)
Definition reaches_list (open_list : Page -> M Page) (w : World) (tr : Trace)
  (page : Page) (tr1 : Trace) : Prop :=
  (p <- newSession ;; open_list p) w tr = (Ok page, tr1).

(** [/^\d{2}:\d{2}$/.test(s)]: the form of [time_24h] that
    [BookingRequestSchema] lets through to [bookSlot]. *)
Definition is_hhmm (s : string) : bool :=
  match s with
  | String a (String b (String c (String d (String e EmptyString)))) =>
      JS.is_digit a && JS.is_digit b && Ascii.eqb c ":" && JS.is_digit d && JS.is_digit e
  | _ => false
  end.

(** The hour of the day a 12-hour reading denotes: 12 AM is midnight,
    12 PM is noon. *)
Definition hour24 (h : nat) (pm : bool) : nat := h mod 12 + (if pm then 12 else 0).

(** The minute of the day of a 24-hour reading, and of a 12-hour one. *)
Definition minute_of_day_24 (h m : nat) : Z := (Z.of_nat h * 60 + Z.of_nat m)%Z.

Definition minute_of_day_12 (h m : nat) (pm : bool) : Z :=
  minute_of_day_24 (hour24 h pm) m.

(** The label [h:mm AM] or [h:mm PM]. *)
Definition label12 (h m : nat) (pm : bool) : string :=
  JS.toString h ++ ":" ++ JS.padStart2 (JS.toString m) ++ " " ++ (if pm then "PM" else "AM").

(** The same label with its hour on two digits, as the portal's titles
    write it ([03:00 PM]). *)
Definition label12_padded (h m : nat) (pm : bool) : string :=
  JS.padStart2 (JS.toString h) ++ ":" ++ JS.padStart2 (JS.toString m) ++ " "
  ++ (if pm then "PM" else "AM").

(** The 24-hour time [HH:MM]. *)
Definition clock24 (h m : nat) : string :=
  JS.padStart2 (JS.toString h) ++ ":" ++ JS.padStart2 (JS.toString m).

(** The hour, minute and half of the day written in a 12-hour label. *)
Definition read_label (g : string) : option (nat * nat * bool) :=
  match JS.clock_at true (JS.trim g) with
  | Some m =>
      match JS.cm_rest m with
      | EmptyString =>
          Some (JS.digits_value (JS.cm_hh m), JS.digits_value (JS.cm_mm m),
                (JS.toUpperCase (JS.cm_ampm m) =? "PM")%string)
      | _ => None
      end
  | None => None
  end.

(** The hour [passes_preferences] compares with the window. *)
Definition start_hour_of (start24 : string) : num :=
  num_of_nat (JS.parseInt (hd EmptyString (JS.split ":" start24))).

(** The window of the specification: inclusive below, exclusive above,
    no bound where the preference is absent. *)
Definition in_window (prefs : Preferences) (h mins : Z) : Prop :=
  (forall s, start_hour prefs = Some s -> (s <= h)%Z) /\
  (forall e, end_hour prefs = Some e -> (h < e)%Z) /\
  (forall m, min_minutes prefs = Some m -> (m <= mins)%Z).

(** The hour window alone. *)
Definition in_hours (prefs : Preferences) (h : Z) : Prop :=
  (forall s, start_hour prefs = Some s -> (s <= h)%Z) /\
  (forall e, end_hour prefs = Some e -> (h < e)%Z).

(** [localeCompare] orders strings totally and tells distinct strings
    apart. *)
Definition consistent_collation (w : World) : Prop :=
  (forall a b, localeCompare w a b = 0%Z <-> a = b) /\
  (forall a b, (localeCompare w a b < 0)%Z <-> (0 < localeCompare w b a)%Z) /\
  (forall a b c, (localeCompare w a b <= 0)%Z -> (localeCompare w b c <= 0)%Z ->
                 (localeCompare w a c <= 0)%Z).

(** The order of the specification: by date, then by time. *)
Definition slot_le (w : World) (a b : Slot) : Prop :=
  (localeCompare w (date_iso a) (date_iso b) < 0)%Z \/
  (date_iso a = date_iso b /\ (localeCompare w (time_24h a) (time_24h b) <= 0)%Z).

(** ** Sample worlds *)

(** What a fulfilled promise holds when nothing more is said. *)
Definition default_resp (c : Cmd) : resp c :=
  match c as c0 return resp c0 with
  | NewPage => 0
  | WaitForEventPage => 0
  | IsVisible _ => false
  | IsChecked _ => false
  | EvalSlotAvailable _ => true
  | EvalRowHidden _ => false
  | Count _ => 0
  | Title _ => EmptyString
  | InnerText _ => EmptyString
  | EvalTagName _ => EmptyString
  | EvalDataDate _ => EmptyString
  | GetAttribute _ _ => None
  | EvalSetAttendees _ _ => (true, "kendo")
  | Launch => tt
  | NewContext => tt
  | Close => tt
  | Goto _ _ _ => tt
  | WaitForLoadState _ _ => tt
  | WaitForTimeout _ _ => tt
  | WaitForNavigation _ _ => tt
  | WaitForURL _ _ => tt
  | WaitForSelector _ _ => tt
  | Click _ _ => tt
  | Fill _ _ => tt
  | WaitFor _ => tt
  | WaitForHidden _ => tt
  | EvalRemoveOverlays _ => tt
  | EvalHideLoading _ => tt
  end.

(** Comparison of code units, as a [localeCompare]. *)
Definition code_unit_compare (a b : string) : Z :=
  match String.compare a b with
  | Lt => (-1)%Z
  | Eq => 0%Z
  | Gt => 1%Z
  end.

(** A page described by what its elements show. *)
Record Script : Type := mkScript {
  sc_reject : Cmd -> bool;                       (* the commands that are rejected *)
  sc_visible : Locator -> bool;
  sc_count : Locator -> nat;
  sc_text : Locator -> string;
  sc_attr : Locator -> string -> option string;
  sc_url : Trace -> string
}.

Definition world_of (sc : Script) : World :=
  {| respond := fun _ c =>
       if sc_reject sc c then Err (mkError "rejected")
       else match c as c0 return Result (resp c0) with
            | IsVisible l => Ok (sc_visible sc l)
            | Count l => Ok (sc_count sc l)
            | InnerText l => Ok (sc_text sc l)
            | GetAttribute l name => Ok (sc_attr sc l name)
            | c0 => Ok (default_resp c0)
            end;
     page_url := fun tr _ => sc_url sc tr;
     now_iso := fun _ => "2026-11-03T17:00:00.000Z";
     process_env := fun _ => None;
     URL_resolve := fun href _ => Ok ("https://ubc.perfectmind.com" ++ href);
     URL_searchParam := fun _ _ => Ok None;
     decodeURIComponent := fun s => Ok s;
     localeCompare := code_unit_compare |}.

Definition no_prefs : Preferences :=
  {| days_ahead := None; start_hour := None; end_hour := None; min_minutes := None;
     indoor_only := None; locations := None; dates := None |}.

(** Evenings only: from 18:00, before 22:00. *)
Definition evening_prefs : Preferences :=
  {| days_ahead := None; start_hour := Some 18%Z; end_hour := Some 22%Z;
     min_minutes := None; indoor_only := None; locations := None; dates := None |}.

(** At least an hour and a half. *)
Definition long_prefs : Preferences :=
  {| days_ahead := None; start_hour := None; end_hour := None;
     min_minutes := Some 90%Z; indoor_only := None; locations := None; dates := None |}.

(** A court list with no [Login] control and no [Choose] button. *)
Definition empty_list_page : Script :=
  {| sc_reject := fun _ => false;
     sc_visible := fun _ => false;
     sc_count := fun _ => 0;
     sc_text := fun _ => EmptyString;
     sc_attr := fun _ _ => None;
     sc_url := fun _ => DEFAULT_BASE_URL |}.

(** The same, in a browser that cannot create a context. *)
Definition no_context : Script :=
  {| sc_reject := fun c => match c with NewContext => true | _ => false end;
     sc_visible := fun _ => false;
     sc_count := fun _ => 0;
     sc_text := fun _ => EmptyString;
     sc_attr := fun _ _ => None;
     sc_url := fun _ => DEFAULT_BASE_URL |}.

(** A machine on which the browser does not start. *)
Definition no_browser : Script :=
  {| sc_reject := fun c => match c with Launch => true | _ => false end;
     sc_visible := fun _ => false;
     sc_count := fun _ => 0;
     sc_text := fun _ => EmptyString;
     sc_attr := fun _ _ => None;
     sc_url := fun _ => DEFAULT_BASE_URL |}.

(** A portal with one court whose schedule shows the bookable markers
    titled [titles], in that order. *)
Definition marker_page (titles : list string) : Script :=
  {| sc_reject := fun _ => false;
     sc_visible := fun l => match l with Nth (HasText _ _) _ => true | _ => false end;
     sc_count := fun l =>
       match l with
       | HasText _ _ => List.length titles
       | Loc _ sel => if JS.includes sel "Choose" then 1 else 0
       | _ => 0
       end;
     sc_text := fun l => match l with Nth (HasText _ _) _ => "Book Now" | _ => EmptyString end;
     sc_attr := fun l name =>
       match l with
       | Nth (HasText _ _) i => if (name =? "title")%string then nth_error titles i else None
       | Nth (Loc _ _) _ => if (name =? "href")%string then Some "/court-01" else None
       | _ => None
       end;
     sc_url := fun _ => "https://ubc.perfectmind.com/24063/Clients/BookMe4LandingPages/Facility?facilityId=1" |}.

(** A portal with two courts; the schedule of each is a table whose rows
    are labelled [labels] and all hold a [Book Now] cell. *)
Definition grid_page (labels : list string) : Script :=
  {| sc_reject := fun _ => false;
     sc_visible := fun _ => false;
     sc_count := fun l =>
       match l with
       | Or _ _ => 2                                         (* Choose buttons *)
       | Loc _ sel => if (sel =? "table")%string then 1 else 0
       | Within (Nth (Loc _ _) _) _ => List.length labels    (* rows of the table *)
       | Within (Nth (Within _ _) _) _ => 1                  (* Book Now cells of a row *)
       | _ => 0
       end;
     sc_text := fun l =>
       match l with
       | Nth (Loc _ _) _ => "Time 8:00 AM 9:00 AM"           (* the table *)
       | First (Within (Nth (Within _ _) i) _) => nth i labels EmptyString
       | Within (Nth (Or _ _) 0) _ => "Court 01"
       | Within (Nth (Or _ _) _) _ => "Court 02"
       | _ => EmptyString
       end;
     sc_attr := fun l name =>
       match l with
       | Nth (Or _ _) _ => if (name =? "href")%string then Some "/court" else None
       | _ => None
       end;
     sc_url := fun _ => "https://ubc.perfectmind.com/24063/Clients/BookMe4LandingPages/Facility?facilityId=1" |}.

(** A booking that goes through, on a page whose only attendee, the
    user, is disabled.  The address changes once [Reserve] has been
    clicked. *)
Definition you_disabled_page : Script :=
  {| sc_reject := fun _ => false;
     sc_visible := fun l =>
       match l with
       | Nth (HasText _ _) _ => true
       | First (Loc _ sel) =>
           JS.includes sel "Reserve" || JS.includes sel ".next-button-container a.bm-button"
           || JS.includes sel "Place My Order"
       | _ => false
       end;
     sc_count := fun l =>
       match l with
       | HasText _ _ => 1
       | Loc _ sel => if JS.includes sel "bm-selectable-row" then 1 else 0
       | _ => 0
       end;
     sc_text := fun l =>
       match l with
       | Nth (HasText _ _) _ => "Book Now"
       | Within (Nth (Loc _ _) _) _ => "Jane Doe (You)"
       | Loc _ sel => if (sel =? "body")%string then "Thank you for your order" else EmptyString
       | First (Loc _ sel) =>
           if (sel =? "h1.facility-name")%string then "Court 01" else EmptyString
       | _ => EmptyString
       end;
     sc_attr := fun l name =>
       match l with
       | Nth (HasText _ _) _ =>
           if (name =? "title")%string then Some "9:00 AM-10:00 AM" else None
       | Nth (Loc _ _) _ =>
           if (name =? "class")%string then Some "bm-selectable-row disabled" else None
       | _ => None
       end;
     sc_url := fun tr =>
       if existsb (fun c => match c with Click _ true => true | _ => false end) tr
       then "https://ubc.perfectmind.com/24063/Menu/BookMe4EventParticipants?eventId=1"
       else "https://ubc.perfectmind.com/24063/Clients/BookMe4LandingPages/Facility?facilityId=1" |}.

Definition sample_request (time : string) : BookingRequest :=
  {| facility_url := "https://ubc.perfectmind.com/24063/Clients/BookMe4LandingPages/Facility?facilityId=1";
     req_time_24h := time;
     duration_hours := 1;
     num_people := 2 |}.


(** ** Checks over the clock

    There are finitely many clock readings; what is claimed of all of
    them is decided by running the conversions on each. *)

Definition is_some (o : option string) (t : string) : bool :=
  match o with
  | Some s => (s =? t)%string
  | None => false
  end.

Definition is_ok (r : Result string) (t : string) : bool :=
  match r with
  | Ok s => (s =? t)%string
  | Err _ => false
  end.

(** The 12-hour reading [h:m] converts to the 24-hour time of the same
    instant, and back. *)
Definition check_12 (h m : nat) (pm : bool) : bool :=
  let t := clock24 (hour24 h pm) m in
  is_some (Booking.to24h (label12 h m pm)) t
  && is_some (Booking.to24h (label12_padded h m pm)) t
  && is_some (Grid.parseTimeFromText (label12 h m pm)) t
  && is_some (Grid.parseTimeFromText (label12_padded h m pm)) t
  && is_ok (Booking.time12h t) (label12 h m pm).

(** The 24-hour time [h:m] converts to a label that converts back to it. *)
Definition check_24 (h m : nat) : bool :=
  match Booking.time12h (clock24 h m) with
  | Ok l => is_some (Booking.to24h l) (clock24 h m)
            && is_some (Grid.parseTimeFromText l) (clock24 h m)
  | Err _ => false
  end.

(** ** The HTTP layer ([src/index.ts])

    A route handler is a computation that ends in the response it sends.
    The body of a request reaches a handler through a [zod] schema; what
    the handler does depends on the outcome of that parse only, which is
    therefore the handler's argument: [Ok] with the parsed data, or
    [Err] with the [ZodError]. *)

(** [s.slice(n)] *)
Definition slice_from (n : nat) (s : string) : string :=
  String.substring n (String.length s - n) s.

(** The values the handlers put in a response body. *)
Inductive Json : Type :=
| JString (s : string)
| JBool (b : bool)
| JSlots (slots : list Slot)
| JBooked (b : BookedSlot).

(** [res.status(code).json({ ... })]; [res.json] alone answers 200. *)
Record Response : Type := mkResponse {
  status : nat;
  body : list (string * Json)
}.

Module Server.

(** [header.startsWith("Bearer ") ? header.slice(7) : ""], where [header]
    is [req.get("Authorization") || ""]. *)
Definition bearer_token (authorization : option string) : string :=
  let header := nullish authorization EmptyString in
  if JS.startsWith header "Bearer " then slice_from 7 header else EmptyString.

(** [token !== process.env.BOOKER_GPT_TOKEN] *)
Definition differs (token : string) (expected : option string) : bool :=
  match expected with
  | Some e => negb (token =? e)%string
  | None => true
  end.

(** [requireBearer(req, res, next)]: the middleware in front of every
    [POST] route; [next] is the route handler. *)
Definition requireBearer (authorization : option string) (next : M Response) : M Response :=
  let token := bearer_token authorization in
  expected <- env "BOOKER_GPT_TOKEN" ;;
  if negb (nonempty token) || differs token expected
  then ret {| status := 401; body := [("error", JString "Unauthorized")] |}
  else next.

(** [POST /check_now] of [src/src/index.ts], first revision:
    [safeParse], then [checkAvailability], with no [try]. *)
Definition check_now (checkAvailability : Preferences -> M (list Slot))
  (authorization : option string) (parsed : Result Preferences) : M Response :=
  requireBearer authorization
    (match parsed with
     | Err e => ret {| status := 400; body := [("error", JString (message e))] |}
     | Ok preferences =>
         slots <- checkAvailability preferences ;;
         ret {| status := 200; body := [("slots", JSlots slots)] |}
     end).

(** [String(err?.message || err)]: the message of the error or, when it
    is empty, the error printed, which is the name of its class
    ([printed], not recorded in a [JsError]). *)
Definition detail_of (printed : string) (err : JsError) : string :=
  or_string (message err) printed.

(** [POST /check_now] of the later revisions ([src/src/index.ts], second
    document, and [src/unnamed/part_001]): [parse] and
    [checkAvailability] inside one [try]. *)
Definition check_now_guarded (printed : string)
  (checkAvailability : Preferences -> M (list Slot))
  (authorization : option string) (parsed : Result Preferences) : M Response :=
  requireBearer authorization
    (try_catch
       (preferences <- lift (fun _ => parsed) ;;
        slots <- checkAvailability preferences ;;
        ret {| status := 200; body := [("slots", JSlots slots)] |})
       (fun err =>
          ret {| status := 400;
                 body := [("error", JString "Invalid request");
                          ("detail", JString (detail_of printed err))] |})).

(** [{ ok: true, ...result }] for a [BookingResult]; a field that is
    [undefined] is left out by [JSON.stringify]. *)
Definition json_of_result (r : BookingResult) : list (string * Json) :=
  [("ok", JBool true); ("success", JBool (success r))]
  ++ match confirmation_number r with
     | Some n => [("confirmation_number", JString n)]
     | None => []
     end
  ++ [("message", JString (result_message r))]
  ++ match booked_slot r with
     | Some b => [("booked_slot", JBooked b)]
     | None => []
     end.

(** [POST /book] ([src/unnamed/part_001]). *)
Definition book (printed : string) (bookSlot : BookingRequest -> M BookingResult)
  (authorization : option string) (parsed : Result BookingRequest) : M Response :=
  requireBearer authorization
    (try_catch
       (request <- lift (fun _ => parsed) ;;
        result <- bookSlot request ;;
        if success result
        then ret {| status := 200; body := json_of_result result |}
        else ret {| status := 400;
                    body := [("ok", JBool false);
                             ("error", JString (result_message result))] |})
       (fun err =>
          ret {| status := 400;
                 body := [("error", JString "Booking failed");
                          ("detail", JString (detail_of printed err))] |})).

End Server.

(** The request carries the server's token: its [Authorization] header is
    [Bearer ] followed by the non-empty value of [BOOKER_GPT_TOKEN]. *)
Definition bears_token (w : World) (authorization : option string) : Prop :=
  exists token,
    token <> EmptyString
    /\ authorization = Some ("Bearer " ++ token)
    /\ process_env w "BOOKER_GPT_TOKEN" = Some token.

Definition unauthorized : Response :=
  {| status := 401; body := [("error", JString "Unauthorized")] |}.

(** A configuration with the token [s3cret-token-42], and a browser that
    finds an empty court list. *)
Definition token_world (sc : Script) : World :=
  {| respond := respond (world_of sc);
     page_url := page_url (world_of sc);
     now_iso := now_iso (world_of sc);
     process_env := fun name =>
       if (name =? "BOOKER_GPT_TOKEN")%string then Some "s3cret-token-42" else None;
     URL_resolve := URL_resolve (world_of sc);
     URL_searchParam := URL_searchParam (world_of sc);
     decodeURIComponent := decodeURIComponent (world_of sc);
     localeCompare := localeCompare (world_of sc) |}.

(** ** The region check ([src/unnamed/part_006])

    [validRegions] is a module-level [Set]; it is the state the function
    reads and writes, here a list without repetition in insertion
    order. *)

Module Region.

(** [validRegions.has(region)] *)
Definition has (validRegions : list string) (region : string) : bool :=
  existsb (String.eqb region) validRegions.

(** [validRegions.add(region)] *)
Definition add (validRegions : list string) (region : string) : list string :=
  if has validRegions region then validRegions else validRegions ++ [region].

Definition not_accepted (region : string) : JsError :=
  mkError ("Region not accepted: region=" ++ q region
           ++ " is not a valid hostname component.").

(** [checkRegion(region, check)] *)
Definition checkRegion (region : string) (check : string -> bool)
  (validRegions : list string) : Result unit * list string :=
  if negb (has validRegions region) && negb (check region)
  then (Err (not_accepted region), validRegions)
  else (Ok tt, add validRegions region).

(** A sequence of calls, each with its own [check]; the answers are
    collected in order. *)
Fixpoint checkRegions (calls : list (string * (string -> bool)))
  (validRegions : list string) : list (Result unit) * list string :=
  match calls with
  | [] => ([], validRegions)
  | (region, check) :: rest =>
      let (r, validRegions') := checkRegion region check validRegions in
      let (rs, validRegions'') := checkRegions rest validRegions' in
      (r :: rs, validRegions'')
  end.

End Region.

Definition is_ok_result {A} (r : Result A) : bool :=
  match r with
  | Ok _ => true
  | Err _ => false
  end.

(** ** What a run does

    [yields P Q m]: whatever the world answers, [m] issues only commands
    that satisfy [P], and a value it returns satisfies [Q]. *)
Definition yields {A} (P : Cmd -> bool) (Q : A -> Prop) (m : M A) : Prop :=
  forall w tr r tr',
    m w tr = (r, tr') ->
    (exists ext, tr' = (tr ++ ext)%list /\ forallb P ext = true)
    /\ (forall a, r = Ok a -> Q a).

Definition issues_only {A} (P : Cmd -> bool) (m : M A) : Prop :=
  yields P (fun _ => True) m.

(** A command that only reads or waits: no navigation, click or typing. *)
Definition passive (c : Cmd) : bool := negb (is_interaction c).

(** The text a locator is built from, selectors and patterns, holds
    [text]. *)
Fixpoint mentions (text : string) (l : Locator) : bool :=
  match l with
  | Loc _ selector => JS.includes selector text
  | ByRole _ role name => JS.includes role text || JS.includes name text
  | Within l' selector => mentions text l' || JS.includes selector text
  | First l' => mentions text l'
  | Nth l' _ => mentions text l'
  | Or l1 l2 => mentions text l1 || mentions text l2
  | HasText l' re => mentions text l' || JS.includes re text
  end.

(** A click on a control of the booking dialogue: a [Book Now] marker,
    [Reserve] or [Place My Order]. *)
Definition is_booking_click (c : Cmd) : bool :=
  match c with
  | Click l _ =>
      mentions "Book Now" l || mentions "Reserve" l || mentions "Place My Order" l
  | _ => false
  end.

Definition no_booking (c : Cmd) : bool := negb (is_booking_click c).

(** A click on [Place My Order]. *)
Definition is_order_click (c : Cmd) : bool :=
  match c with
  | Click l _ => mentions "Place My Order" l
  | _ => false
  end.

Definition no_order (c : Cmd) : bool := negb (is_order_click c).

(** The number of clicks on [Place My Order] along a trace. *)
Definition orders (tr : Trace) : nat := List.length (filter is_order_click tr).

(** Whatever the world answers, [m] clicks [Place My Order] at most
    once. *)
Definition orders_at_most_once {A} (m : M A) : Prop :=
  forall w tr r tr',
    m w tr = (r, tr') -> exists ext, tr' = (tr ++ ext)%list /\ orders ext <= 1.

(** Whatever the world answers, [m] returns: no exception leaves it. *)
Definition never_throws {A} (m : M A) : Prop :=
  forall w tr, exists a tr', m w tr = (Ok a, tr').

(** The locator [debugListClickable] counts. *)
Definition clickable (page : Page) : Locator :=
  Loc page "button, a, [role='button'], input[type='button'], input[type='submit']".

(** What a [BookingResult] should hold for [request]: a success names
    the slot that was asked for, a failure names no slot and no
    confirmation number. *)
Definition well_formed_result (request : BookingRequest) (r : BookingResult) : Prop :=
  if success r
  then result_message r = "Booking completed successfully"
       /\ exists location,
            booked_slot r = Some {| bs_time := req_time_24h request;
                                    bs_duration := duration_hours request * 60;
                                    bs_location := location |}
  else booked_slot r = None /\ confirmation_number r = None.

Definition any_command (c : Cmd) : bool := true.

(** The element [bookSlot] reads an error message from, after the
    order. *)
Definition orderError (page : Page) : Locator :=
  First (Loc page (".error, .alert-danger, .validation-error, [class*="
                   ++ q "error-message" ++ "]")).

(** [await l.innerText().catch(() => "")] as the world answers it. *)
Definition text_or_empty (w : World) (tr : Trace) (l : Locator) : string :=
  match respond w tr (InnerText l) with
  | Ok t => t
  | Err _ => EmptyString
  end.

(** The trace once [Place My Order] has been clicked and the two waits
    that follow are over. *)
Definition ordered (page : Page) (tr : Trace) : Trace :=
  (tr ++ [IsVisible (Booking.placeOrderButton page);
          Click (Booking.placeOrderButton page) false;
          WaitForLoadState page "networkidle";
          WaitForTimeout page 3000])%list.

(** A page on which every element is visible and none shows any text. *)
Definition silent_page : Script :=
  {| sc_reject := fun _ => false;
     sc_visible := fun _ => true;
     sc_count := fun _ => 0;
     sc_text := fun _ => EmptyString;
     sc_attr := fun _ _ => None;
     sc_url := fun _ => EmptyString |}.

(** The reads of the titles of the markers [from], ..., [from + n - 1]. *)
Definition title_reads (page : Page) (from n : nat) : Trace :=
  map (fun i => GetAttribute (Nth (Booking.bookNowSpans page) i) "title") (seq from n).

(** The title of a marker holds [label], both in lower case: the test
    of STEP 1. *)
Definition title_holds (label : string) (a : option string) : bool :=
  JS.includes (JS.toLowerCase (nullish a EmptyString)) (JS.toLowerCase label).

(** The fields and the button of the CWL form, as [ensureLoggedIn] of
    [src/unnamed/part_003] locates them on the authentication page. *)
Definition cwlUsername (authPage : Page) : Locator :=
  Loc authPage ("input[name=" ++ q "username" ++ "], #username, input[id*="
                ++ q "Login" ++ "], input[id*=" ++ q "User" ++ "]").

Definition cwlPassword (authPage : Page) : Locator :=
  Loc authPage ("input[name=" ++ q "password" ++ "], #password, input[type="
                ++ q "password" ++ "]").

Definition cwlSubmit (authPage : Page) : Locator :=
  First (ByRole authPage "button" "/login|sign in|submit/i").

(** The six commands that type the credentials and submit them. *)
Definition types_credentials (authPage : Page) (user pass : string) : Trace :=
  [WaitFor (cwlUsername authPage); WaitFor (cwlPassword authPage);
   Fill (cwlUsername authPage) user; Fill (cwlPassword authPage) pass;
   Click (cwlSubmit authPage) false; WaitForLoadState authPage "networkidle"].

Definition no_fill (c : Cmd) : bool :=
  match c with
  | Fill _ _ => false
  | _ => true
  end.

(** A portal that shows its [Login] control, to a process that knows the
    credentials [alice] and [correct horse]. *)
Definition login_world : World :=
  let sc := {| sc_reject := fun _ => false;
               sc_visible := fun l =>
                 match l with
                 | First (Loc _ sel) => (sel =? "text=Login")%string
                 | _ => false
                 end;
               sc_count := fun _ => 0;
               sc_text := fun _ => EmptyString;
               sc_attr := fun _ _ => None;
               sc_url := fun _ => DEFAULT_BASE_URL |} in
  {| respond := respond (world_of sc);
     page_url := page_url (world_of sc);
     now_iso := now_iso (world_of sc);
     process_env := fun name =>
       if (name =? "UBC_USER")%string then Some "alice"
       else if (name =? "UBC_PASS")%string then Some "correct horse"
       else None;
     URL_resolve := URL_resolve (world_of sc);
     URL_searchParam := URL_searchParam (world_of sc);
     decodeURIComponent := decodeURIComponent (world_of sc);
     localeCompare := localeCompare (world_of sc) |}.

(** ** Notifications ([src/notify.ts], [src/config/env.ts], [src/index.ts])

    A notification leaves the process as an HTTP request to the Telegram
    API or as a mail handed to an SMTP transport.  As for the browser,
    the calls are recorded in a trace and answered by the outside. *)

Module Notify.

(** [createTransport({ host, port, secure, auth: { user, pass } })]; a
    value that is [undefined] is [None], a port that is [NaN] is [None]. *)
Record Transport : Type := mkTransport {
  t_host : option string;
  t_port : option nat;
  t_secure : bool;
  t_user : option string;
  t_pass : option string
}.

(** [sendMail({ from, to, subject, text })] *)
Record Mail : Type := mkMail {
  m_from : option string;
  m_to : string;
  m_subject : string;
  m_text : string
}.

Inductive Out : Type :=
| Fetch (url chat_id text : string)
    (* fetch(url, { method: "POST", headers, body: JSON.stringify({ chat_id, text }) }) *)
| RespText
    (* resp.text() *)
| SendMail (transport : Transport) (mail : Mail).
    (* (await import("nodemailer")).createTransport(transport).sendMail(mail) *)

(** What a fulfilled promise holds: [resp.ok] and [resp.status] for a
    request. *)
Definition answer (o : Out) : Type :=
  match o with
  | Fetch _ _ _ => (bool * nat)%type
  | RespText => string
  | SendMail _ _ => unit
  end.

Record Net : Type := mkNet {
  reply : list Out -> forall o : Out, Result (answer o);
  net_env : string -> option string        (* process.env[name] *)
}.

Definition N (A : Type) : Type := Net -> list Out -> Result A * list Out.

Definition ret {A} (a : A) : N A := fun _ tr => (Ok a, tr).

Definition throw {A} (e : JsError) : N A := fun _ tr => (Err e, tr).

Definition bind {A B} (m : N A) (k : A -> N B) : N B :=
  fun net tr =>
    match m net tr with
    | (Ok a, tr') => k a net tr'
    | (Err e, tr') => (Err e, tr')
    end.

Notation "x <~ c1 ;; c2" := (bind c1 (fun x => c2))
  (at level 61, c1 at next level, right associativity).

Definition call (o : Out) : N (answer o) :=
  fun net tr => (reply net tr o, (tr ++ [o])%list).

Definition try_catch {A} (m : N A) (h : JsError -> N A) : N A :=
  fun net tr =>
    match m net tr with
    | (Ok a, tr') => (Ok a, tr')
    | (Err e, tr') => h e net tr'
    end.

Definition getenv (name : string) : N (option string) :=
  fun net tr => (Ok (net_env net name), tr).

(** The configuration object [env] of [config/env.ts], as far as
    notifications read it. *)
Record Smtp : Type := mkSmtp {
  host : string;
  port : option nat;
  user : option string;
  pass : option string;
  from : option string;
  to : option string
}.

Record Telegram : Type := mkTelegram {
  botToken : string;
  chatId : option string
}.

Record Env : Type := mkEnv {
  smtp : option Smtp;
  telegram : option Telegram
}.

Record NotifyTarget : Type := mkNotifyTarget {
  email : option string;
  sms : option string;
  telegram_chat_id : option string
}.

Record NotifyPayload : Type := mkNotifyPayload {
  notify_target : option NotifyTarget;     (* notify *)
  text : string;
  priority : option string
}.

(** [{ via: "telegram", chat_id }] and [{ via: "email", to }] *)
Inductive Via : Type :=
| ViaTelegram (chat_id : string)
| ViaEmail (recipient : string).

(** [a || b] where both may be [undefined]. *)
Definition first_truthy (a b : option string) : option string :=
  match a with
  | Some (String c s) => Some (String c s)
  | _ => b
  end.

Definition truthy (a : option string) : bool :=
  match a with
  | Some (String _ _) => true
  | _ => false
  end.

Definition sendMessageUrl (token : string) : string :=
  "https://api.telegram.org/bot" ++ token ++ "/sendMessage".

(** The request of both [sendTelegram] functions, and the error thrown
    when the answer is not [ok]. *)
Definition postMessage (token text chat : string) : N unit :=
  resp <~ call (Fetch (sendMessageUrl token) chat text) ;;
  if negb (fst resp) then
    body <~ call RespText ;;
    throw (mkError ("Telegram sendMessage failed: " ++ JS.toString (snd resp)
                    ++ " " ++ body))
  else ret tt.

(** [sendTelegram(text, chatId)] of [src/notify.ts] *)
Definition sendTelegram (env : Env) (text chat : string) : N unit :=
  match telegram env with
  | None => throw (mkError "Telegram is not configured")
  | Some t => postMessage (botToken t) text chat
  end.

(** [port === 465] *)
Definition is_465 (p : option nat) : bool :=
  match p with
  | Some n => n =? 465
  | None => false
  end.

(** [sendEmail(to, text)] of [src/notify.ts] *)
Definition sendEmail (env : Env) (recipient text : string) : N unit :=
  match smtp env with
  | None => throw (mkError "SMTP is not configured")
  | Some s =>
      call (SendMail {| t_host := Some (host s); t_port := port s;
                        t_secure := is_465 (port s);
                        t_user := user s; t_pass := pass s |}
                     {| m_from := from s; m_to := recipient;
                        m_subject := "UBC Tennis Booker"; m_text := text |})
  end.

Definition nothing_available : JsError :=
  mkError "No notifier configured or no recipient provided (Telegram and SMTP both unavailable).".

(** The chat [notify] writes to: [userChat || defaultChat]. *)
Definition chat_of (t : Telegram) (payload : NotifyPayload) : option string :=
  let userChat :=
    match notify_target payload with
    | Some n => option_map JS.trim (telegram_chat_id n)
    | None => None
    end in
  let defaultChat := option_map JS.trim (chatId t) in
  first_truthy userChat defaultChat.

(** The recipient of the mail:
    [(notify?.email || env.smtp.to || "").trim()]. *)
Definition recipient_of (s : Smtp) (payload : NotifyPayload) : string :=
  let requested :=
    match notify_target payload with
    | Some n => email n
    | None => None
    end in
  JS.trim (nullish (first_truthy requested (first_truthy (to s) None)) EmptyString).

(** The second half of [notify]: the mail, or the final error. *)
Definition notify_by_mail (env : Env) (payload : NotifyPayload) : N Via :=
  match smtp env with
  | Some s =>
      let recipient := recipient_of s payload in
      if nonempty recipient then
        _ <~ sendEmail env recipient (text payload) ;;
        ret (ViaEmail recipient)
      else throw nothing_available
  | None => throw nothing_available
  end.

(** [notify(payload)] of [src/notify.ts] *)
Definition notify (env : Env) (payload : NotifyPayload) : N Via :=
  match telegram env with
  | Some t =>
      match chat_of t payload with
      | Some (String c s) =>
          _ <~ sendTelegram env (text payload) (String c s) ;;
          ret (ViaTelegram (String c s))
      | _ => notify_by_mail env payload
      end
  | None => notify_by_mail env payload
  end.

(** *** The routes

    [requireBearer] in front of a notification route. *)
Definition requireBearer (authorization : option string) (next : N Response) : N Response :=
  let token := Server.bearer_token authorization in
  expected <~ getenv "BOOKER_GPT_TOKEN" ;;
  if negb (nonempty token) || Server.differs token expected
  then ret unauthorized
  else next.

Definition lift {A} (r : Result A) : N A := fun _ tr => (r, tr).

Definition json_of_via (v : Via) : list (string * Json) :=
  match v with
  | ViaTelegram chat => [("ok", JBool true); ("via", JString "telegram");
                         ("chat_id", JString chat)]
  | ViaEmail recipient => [("ok", JBool true); ("via", JString "email");
                           ("to", JString recipient)]
  end.

Definition notify_failed (printed : string) (err : JsError) : Response :=
  {| status := 502;
     body := [("error", JString "Notify failed");
              ("detail", JString (Server.detail_of printed err))] |}.

(** [POST /notify] of [src/unnamed/part_001], in front of [notify]. *)
Definition notify_route (printed : string) (env : Env)
  (authorization : option string) (parsed : Result NotifyPayload) : N Response :=
  requireBearer authorization
    (try_catch
       (payload <~ lift parsed ;;
        result <~ notify env payload ;;
        ret {| status := 200; body := json_of_via result |})
       (fun err => ret (notify_failed printed err))).

(** [sendTelegramMessage(text, chatId)] of [src/src/index.ts] *)
Definition sendTelegramMessage (text chat : string) : N unit :=
  token <~ getenv "TELEGRAM_BOT_TOKEN" ;;
  match token with
  | Some (String c s) => postMessage (String c s) text chat
  | _ => throw (mkError "TELEGRAM_BOT_TOKEN is not set")
  end.

(** [sendEmailMessage(to, text)] of [src/src/index.ts] *)
Definition sendEmailMessage (recipient text : string) : N unit :=
  smtpHost <~ getenv "SMTP_HOST" ;;
  smtpPort <~ getenv "SMTP_PORT" ;;
  let port := JS.parseInt (nullish (first_truthy smtpPort None) "465") in
  smtpUser <~ getenv "SMTP_USER" ;;
  smtpPass <~ getenv "SMTP_PASS" ;;
  emailFrom <~ getenv "EMAIL_FROM" ;;
  call (SendMail {| t_host := smtpHost; t_port := port; t_secure := is_465 port;
                    t_user := smtpUser; t_pass := smtpPass |}
                 {| m_from := emailFrom; m_to := recipient;
                    m_subject := "UBC Tennis Booker"; m_text := text |}).

Definition no_recipient : Response :=
  {| status := 400;
     body := [("error",
               JString "No email recipient set. Provide notify.email or set EMAIL_TO on the server.")] |}.

Definition no_notifier : Response :=
  {| status := 500;
     body := [("error",
               JString "No notifier configured. Set TELEGRAM_BOT_TOKEN/TELEGRAM_CHAT_ID or SMTP_* env vars.")] |}.

(** [POST /notify] of [src/src/index.ts], second document: Telegram
    first, then mail, all inside one [try]. *)
Definition notify_inline (printed : string)
  (authorization : option string) (parsed : Result NotifyPayload) : N Response :=
  requireBearer authorization
    (try_catch
       (payload <~ lift parsed ;;
        let target := notify_target payload in
        let userChatId :=
          JS.trim (nullish (first_truthy
                              (match target with
                               | Some n => telegram_chat_id n
                               | None => None
                               end) None) EmptyString) in
        envChat <~ getenv "TELEGRAM_CHAT_ID" ;;
        let envChatId := JS.trim (nullish (first_truthy envChat None) EmptyString) in
        let chatIdToUse := or_string userChatId envChatId in
        botToken <~ getenv "TELEGRAM_BOT_TOKEN" ;;
        if nonempty chatIdToUse && truthy botToken then
          _ <~ sendTelegramMessage (text payload) chatIdToUse ;;
          ret {| status := 200; body := json_of_via (ViaTelegram chatIdToUse) |}
        else
          smtpHost <~ getenv "SMTP_HOST" ;;
          smtpUser <~ getenv "SMTP_USER" ;;
          smtpPass <~ getenv "SMTP_PASS" ;;
          emailFrom <~ getenv "EMAIL_FROM" ;;
          let smtpReady :=
            truthy smtpHost && truthy smtpUser && truthy smtpPass && truthy emailFrom in
          if smtpReady then
            emailTo <~ getenv "EMAIL_TO" ;;
            let recipient :=
              JS.trim (nullish (first_truthy
                                  (match target with
                                   | Some n => email n
                                   | None => None
                                   end)
                                  (first_truthy emailTo None)) EmptyString) in
            if negb (nonempty recipient) then ret no_recipient
            else
              _ <~ sendEmailMessage recipient (text payload) ;;
              ret {| status := 200; body := json_of_via (ViaEmail recipient) |}
          else ret no_notifier)
       (fun err => ret (notify_failed printed err))).

End Notify.

(** The outgoing calls that hand a message over. *)
Definition is_send (o : Notify.Out) : bool :=
  match o with
  | Notify.Fetch _ _ _ => true
  | Notify.SendMail _ _ => true
  | Notify.RespText => false
  end.

Definition is_mail (o : Notify.Out) : bool :=
  match o with
  | Notify.SendMail _ _ => true
  | _ => false
  end.

(** A chat to write to, and a recipient to mail to, are at hand. *)
Definition chat_available (env : Notify.Env) (payload : Notify.NotifyPayload) : Prop :=
  exists t c s,
    Notify.telegram env = Some t /\ Notify.chat_of t payload = Some (String c s).

Definition recipient_available (env : Notify.Env) (payload : Notify.NotifyPayload) : Prop :=
  exists s, Notify.smtp env = Some s /\ Notify.recipient_of s payload <> EmptyString.

(** The request carries the token a notification route expects. *)
Definition net_bears_token (net : Notify.Net) (authorization : option string) : Prop :=
  exists token,
    token <> EmptyString
    /\ authorization = Some ("Bearer " ++ token)
    /\ Notify.net_env net "BOOKER_GPT_TOKEN" = Some token.

(** The outside took the message [o], issued after [tr]: the request was
    answered with [resp.ok], the mail was accepted. *)
Definition delivered (net : Notify.Net) (tr : list Notify.Out) (o : Notify.Out) : bool :=
  match o with
  | Notify.Fetch u c t =>
      match Notify.reply net tr (Notify.Fetch u c t) with
      | Ok (true, _) => true
      | _ => false
      end
  | Notify.SendMail tp m =>
      match Notify.reply net tr (Notify.SendMail tp m) with
      | Ok _ => true
      | Err _ => false
      end
  | Notify.RespText => false
  end.

(** A network that accepts every request and every mail. *)
Definition obliging (env : string -> option string) : Notify.Net :=
  {| Notify.reply := fun _ o =>
       match o as o0 return Result (Notify.answer o0) with
       | Notify.Fetch _ _ _ => Ok (true, 200)
       | Notify.RespText => Ok EmptyString
       | Notify.SendMail _ _ => Ok tt
       end;
     Notify.net_env := env |}.

(** A Telegram API that refuses every request with status 403. *)
Definition refusing (env : string -> option string) : Notify.Net :=
  {| Notify.reply := fun _ o =>
       match o as o0 return Result (Notify.answer o0) with
       | Notify.Fetch _ _ _ => Ok (false, 403)
       | Notify.RespText => Ok "Forbidden"
       | Notify.SendMail _ _ => Ok tt
       end;
     Notify.net_env := env |}.

(** Both notifiers configured. *)
Definition both_env : Notify.Env :=
  {| Notify.smtp := Some {| Notify.host := "smtp.example.org"; Notify.port := Some 465;
                            Notify.user := Some "mailer"; Notify.pass := Some "pw";
                            Notify.from := Some "booker@example.org";
                            Notify.to := Some "me@example.org" |};
     Notify.telegram := Some {| Notify.botToken := "123:abc";
                                Notify.chatId := Some " 42 " |} |}.

Definition plain_payload : Notify.NotifyPayload :=
  {| Notify.notify_target := None; Notify.text := "Court 3 is free at 19:00";
     Notify.priority := None |}.

(** ** The first notifier ([src/unnamed/part_000]) *)

Module NotifyAny.

Import Notify.

(** [sendTelegram(text)]: [false] when the bot or the chat is not
    configured; otherwise the request is made and, whatever its status,
    [true]. *)
Definition sendTelegram (text : string) : N bool :=
  token <~ getenv "TELEGRAM_BOT_TOKEN" ;;
  chatId <~ getenv "TELEGRAM_CHAT_ID" ;;
  match token, chatId with
  | Some (String c1 s1), Some (String c2 s2) =>
      _ <~ call (Fetch (sendMessageUrl (String c1 s1)) (String c2 s2) text) ;;
      ret true
  | _, _ => ret false
  end.

(** [sendEmail({ to, subject, text })] *)
Definition sendEmail (recipient subject text : string) : N unit :=
  smtpHost <~ getenv "SMTP_HOST" ;;
  smtpPort <~ getenv "SMTP_PORT" ;;
  let port := JS.parseInt (nullish (first_truthy smtpPort None) "465") in
  smtpUser <~ getenv "SMTP_USER" ;;
  smtpPass <~ getenv "SMTP_PASS" ;;
  emailFrom <~ getenv "EMAIL_FROM" ;;
  call (SendMail {| t_host := smtpHost; t_port := port; t_secure := is_465 port;
                    t_user := smtpUser; t_pass := smtpPass |}
                 {| m_from := emailFrom; m_to := recipient;
                    m_subject := subject; m_text := text |}).

(** The second half of [notifyAny]: the mail, to the requested recipient
    or else to [EMAIL_TO], when the SMTP credentials are set. *)
Definition mail_fallback (emailTo : option string) (text : string) : N unit :=
  smtpUser <~ getenv "SMTP_USER" ;;
  smtpPass <~ getenv "SMTP_PASS" ;;
  envTo <~ getenv "EMAIL_TO" ;;
  if truthy emailTo && truthy smtpUser && truthy smtpPass then
    sendEmail (nullish emailTo EmptyString) "UBC Tennis Booker" text
  else if truthy envTo && truthy smtpUser && truthy smtpPass then
    sendEmail (nullish envTo EmptyString) "UBC Tennis Booker" text
  else ret tt.

(** [notifyAny({ emailTo, text })] *)
Definition notifyAny (emailTo : option string) (text : string) : N unit :=
  teleOK <~ try_catch (sendTelegram text) (fun _ => ret false) ;;
  if teleOK then ret tt else mail_fallback emailTo text.

End NotifyAny.

(** The bot and its chat are configured in the process environment. *)
Definition telegram_set (net : Notify.Net) : Prop :=
  Notify.truthy (Notify.net_env net "TELEGRAM_BOT_TOKEN") = true
  /\ Notify.truthy (Notify.net_env net "TELEGRAM_CHAT_ID") = true.

(** A mail can be sent: credentials and a recipient, requested or
    configured. *)
Definition mail_set (net : Notify.Net) (emailTo : option string) : Prop :=
  Notify.truthy (Notify.net_env net "SMTP_USER") = true
  /\ Notify.truthy (Notify.net_env net "SMTP_PASS") = true
  /\ (Notify.truthy emailTo = true \/ Notify.truthy (Notify.net_env net "EMAIL_TO") = true).

Definition telegram_only (name : string) : option string :=
  if (name =? "TELEGRAM_BOT_TOKEN")%string then Some "123:abc"
  else if (name =? "TELEGRAM_CHAT_ID")%string then Some "42"
  else if (name =? "SMTP_USER")%string then Some "mailer"
  else if (name =? "SMTP_PASS")%string then Some "pw"
  else if (name =? "EMAIL_TO")%string then Some "me@example.org"
  else None.

(** ** The courts a scan visits *)

(** The locator a command works on. *)
Definition locator_of (c : Cmd) : option Locator :=
  match c with
  | IsVisible l | IsChecked l | Count l | Click l _ | Fill l _ | WaitFor l
  | WaitForHidden l | InnerText l | GetAttribute l _ | EvalTagName l
  | EvalSlotAvailable l | EvalDataDate l | EvalRowHidden l => Some l
  | _ => None
  end.

(** The index of the [Choose] button a locator is built on: [i] for
    [chooseButtons.nth(i)] and for every locator derived from it. *)
Fixpoint court_of_locator (l : Locator) : option nat :=
  match l with
  | Nth l' i => if mentions "hoose" l' then Some i else court_of_locator l'
  | Within l' _ => court_of_locator l'
  | First l' => court_of_locator l'
  | HasText l' _ => court_of_locator l'
  | _ => None
  end.

Definition court_of (c : Cmd) : option nat :=
  match locator_of c with
  | Some l => court_of_locator l
  | None => None
  end.

(** The command concerns none of the courts from [limit] on. *)
Definition court_below (limit : nat) (c : Cmd) : bool :=
  match court_of c with
  | Some i => i <? limit
  | None => true
  end.

(** ** Rejections that [bookSlot] catches where they occur

    The value that stands for a rejection of [c] wherever [bookSlot] and
    the [ensureLoggedIn] it calls issue [c]: the [d] of the
    [.catch(() => d)] on the call ([false] for the probes, the empty
    string for the reads, nothing for the waits).  [None] for the
    commands that are issued without such a handler somewhere. *)
Definition forgiven (c : Cmd) : option (resp c) :=
  match c as c0 return option (resp c0) with
  | IsVisible _ => Some false
  | IsChecked _ => Some false
  | EvalRowHidden _ => Some false
  | Title _ => Some EmptyString
  | WaitForURL _ _ => Some tt
  | WaitForSelector _ _ => Some tt
  | GetAttribute _ name =>
      if (name =? "class")%string || (name =? "href")%string
      then Some (Some EmptyString) else None
  | _ => None
  end.

(** The world that answers as [w] does, except that it answers [d] where
    [w] rejects a command for which [d] stands. *)
Definition soften (w : World) : World :=
  {| respond := fun tr c =>
       match respond w tr c, forgiven c with
       | Err _, Some d => Ok d
       | r, _ => r
       end;
     page_url := page_url w;
     now_iso := now_iso w;
     process_env := process_env w;
     URL_resolve := URL_resolve w;
     URL_searchParam := URL_searchParam w;
     decodeURIComponent := decodeURIComponent w;
     localeCompare := localeCompare w |}.

(** [m] runs in [soften w] as it does in [w]. *)
Definition same_run {A} (m : M A) : Prop :=
  forall w tr, m (soften w) tr = m w tr.

(** The commands of [rest], issued one after the other after [before],
    that [w] rejects. *)
Fixpoint rejections (w : World) (before rest : Trace) : list Cmd :=
  match rest with
  | [] => []
  | c :: rest' =>
      ((if is_ok_result (respond w before c) then [] else [c])
       ++ rejections w (before ++ [c]) rest')%list
  end.

(** A booking on a page whose attendee can be selected, in a browser
    that rejects the wait for the address to change, the wait for the
    attendee table, the probe of the stored card and the read of the page
    after the order. *)
Definition flaky_page : Script :=
  {| sc_reject := fun c =>
       match c with
       | WaitForURL _ _ => true
       | WaitForSelector _ _ => true
       | IsVisible (First (Loc _ sel)) => JS.includes sel "org-payment-type"
       | InnerText (Loc _ sel) => (sel =? "body")%string
       | _ => false
       end;
     sc_visible := sc_visible you_disabled_page;
     sc_count := sc_count you_disabled_page;
     sc_text := sc_text you_disabled_page;
     sc_attr := fun l name =>
       match l with
       | Nth (HasText _ _) _ =>
           if (name =? "title")%string then Some "9:00 AM-10:00 AM" else None
       | Nth (Loc _ _) _ =>
           if (name =? "class")%string then Some "bm-selectable-row" else None
       | _ => None
       end;
     sc_url := sc_url you_disabled_page |}.

(** ** The iterations of a scan

    [runs_in_turn f w n from tr steps tr']: the iterations [f from], ...,
    [f (from + n - 1)] have run one after the other from the trace [tr] to
    the trace [tr'], each returned, and [steps] holds for each the trace
    it started from and what it returned. *)
Fixpoint runs_in_turn {X} (f : nat -> M X) (w : World) (n from : nat) (tr : Trace)
  (steps : list (Trace * X)) (tr' : Trace) : Prop :=
  match n, steps with
  | O, [] => tr' = tr
  | S n', (t, r) :: steps' =>
      t = tr
      /\ exists tr1, f from w tr = (Ok r, tr1) /\ runs_in_turn f w n' (S from) tr1 steps' tr'
  | _, _ => False
  end.

(** The slots the iterations pushed, in their order. *)
Definition kept {X} (steps : list (Trace * option X)) : list X :=
  flat_map (fun step => match snd step with Some x => [x] | None => [] end) steps.

(** The reads of the texts of the tables [from], ..., [from + n - 1]. *)
Definition table_reads (page : Page) (from n : nat) : Trace :=
  map (fun i => InnerText (Nth (Loc page "table") i)) (seq from n).

(** The text of a table is recognised as the scheduler's. *)
Definition shows_grid (w : World) (tr : Trace) (table : Locator) : bool :=
  Grid.looks_like_grid (JS.slice0 500 (text_or_empty w tr table)).

(** Two hours at least. *)
Definition two_hour_prefs : Preferences :=
  {| days_ahead := None; start_hour := None; end_hour := None;
     min_minutes := Some 120%Z; indoor_only := None; locations := None; dates := None |}.
(** * Properties *)

(** ** The monad *)

Lemma bind_ok {A B} (m : M A) (k : A -> M B) w tr a tr1 :
  m w tr = (Ok a, tr1) -> bind m k w tr = k a w tr1.
Proof. intros H. unfold bind. now rewrite H. Qed.

Lemma bind_err {A B} (m : M A) (k : A -> M B) w tr e tr1 :
  m w tr = (Err e, tr1) -> bind m k w tr = (Err e, tr1).
Proof. intros H. unfold bind. now rewrite H. Qed.

Lemma bind_inv_ok {A B} (m : M A) (k : A -> M B) w tr b tr2 :
  bind m k w tr = (Ok b, tr2) ->
  exists a tr1, m w tr = (Ok a, tr1) /\ k a w tr1 = (Ok b, tr2).
Proof.
  unfold bind. destruct (m w tr) as [[a | e] tr1]; intros H.
  - now exists a, tr1.
  - discriminate.
Qed.

Lemma try_finally_inv_ok {A} (m : M A) (f : M unit) w tr a tr2 :
  try_finally m f w tr = (Ok a, tr2) ->
  exists tr1, m w tr = (Ok a, tr1) /\ f w tr1 = (Ok tt, tr2).
Proof.
  unfold try_finally. destruct (m w tr) as [r tr1].
  destruct (f w tr1) as [[[] | e] tr2'] eqn:Hf; intros H; inversion H; subst.
  now exists tr1.
Qed.

Lemma try_finally_close {A} (m : M A) w tr :
  snd (try_finally m (call Close) w tr) = (snd (m w tr) ++ [Close])%list.
Proof.
  unfold try_finally, call. destruct (m w tr) as [r tr1]. simpl.
  now destruct (respond w tr1 Close) as [[] | e].
Qed.

Lemma try_catch_total {A} (m : M A) (h : JsError -> A) w tr :
  exists a tr', try_catch m (fun e => ret (h e)) w tr = (Ok a, tr').
Proof.
  unfold try_catch, ret. destruct (m w tr) as [[a | e] tr']; eauto.
Qed.

(** ** Login *)

(** C8.  On a page that shows no [Login] control (the probe answers
    [false], or is rejected), [ensureLoggedIn] returns the page it was
    given and issues nothing but the probe: no navigation, no click, no
    credential is typed.  Run a second time on the page it returned, it
    again does nothing but probe. *)
Theorem ensureLoggedIn_idempotent :
  forall (w : World) (tr : Trace) (page : Page),
    respond w tr (IsVisible (Grid.loginButton page)) <> Ok true ->
    Grid.ensureLoggedIn page w tr = (Ok page, (tr ++ [IsVisible (Grid.loginButton page)])%list)
    /\ is_interaction (IsVisible (Grid.loginButton page)) = false
    /\ (respond w (tr ++ [IsVisible (Grid.loginButton page)])%list
                (IsVisible (Grid.loginButton page)) <> Ok true ->
        (p <- Grid.ensureLoggedIn page ;; Grid.ensureLoggedIn p) w tr =
          (Ok page, (tr ++ [IsVisible (Grid.loginButton page);
                            IsVisible (Grid.loginButton page)])%list)).
Proof.
  intros w tr page Hprobe.
  assert (Hone : forall tr0,
             respond w tr0 (IsVisible (Grid.loginButton page)) <> Ok true ->
             Grid.ensureLoggedIn page w tr0 =
               (Ok page, (tr0 ++ [IsVisible (Grid.loginButton page)])%list)).
  { intros tr0 H0.
    unfold Grid.ensureLoggedIn, bind, or_else, try_catch, isVisible, call, ret.
    destruct (respond w tr0 (IsVisible (Grid.loginButton page))) as [[|] | e];
      [contradiction | reflexivity | reflexivity]. }
  split; [now apply Hone | split; [reflexivity |]].
  intros Hagain.
  rewrite (bind_ok _ _ _ _ _ _ (Hone tr Hprobe)).
  rewrite (Hone _ Hagain). now rewrite <- app_assoc.
Qed.

Lemma ensureLoggedIn_idempotent_witness :
  Grid.ensureLoggedIn 0 (world_of empty_list_page) [] =
    (Ok 0, [IsVisible (Grid.loginButton 0)])
  /\ is_interaction (IsVisible (Grid.loginButton 0)) = false
  /\ (respond (world_of empty_list_page) [IsVisible (Grid.loginButton 0)]
              (IsVisible (Grid.loginButton 0)) <> Ok true ->
      (p <- Grid.ensureLoggedIn 0 ;; Grid.ensureLoggedIn p) (world_of empty_list_page) [] =
        (Ok 0, [IsVisible (Grid.loginButton 0); IsVisible (Grid.loginButton 0)])).
Proof.
  apply (ensureLoggedIn_idempotent (world_of empty_list_page) [] 0).
  simpl. discriminate.
Defined.

(** The other revision behaves alike. *)
Lemma ensureLoggedIn_idempotent_booking :
  forall (w : World) (tr : Trace) (page : Page),
    respond w tr (IsVisible (Booking.loginButton page)) <> Ok true ->
    Booking.ensureLoggedIn page w tr =
      (Ok page, (tr ++ [IsVisible (Booking.loginButton page)])%list).
Proof.
  intros w tr page H0.
  unfold Booking.ensureLoggedIn, bind, or_else, try_catch, isVisible, call, ret.
  destruct (respond w tr (IsVisible (Booking.loginButton page))) as [[|] | e];
    [contradiction | reflexivity | reflexivity].
Qed.

Lemma ensureLoggedIn_idempotent_booking_witness :
  Booking.ensureLoggedIn 0 (world_of empty_list_page) [] =
    (Ok 0, [IsVisible (Booking.loginButton 0)]).
Proof.
  apply (ensureLoggedIn_idempotent_booking (world_of empty_list_page) [] 0).
  simpl. discriminate.
Defined.

(** ** The placeholder *)

Lemma scan_or_nothing_some page prefs w tr l tr' :
  Grid.scan_or_nothing page prefs w tr = (Ok (Some l), tr') -> l <> [].
Proof.
  unfold Grid.scan_or_nothing, try_catch, bind, ret.
  destruct (Grid.scanCourtsAndSlots page prefs w tr) as [[slots | e] tr1].
  - destruct slots as [| s slots]; simpl; intros H; inversion H; subst. discriminate.
  - intros H; inversion H.
Qed.

Lemma scan_or_nothing_none page prefs w tr r tr' :
  Grid.scanCourtsAndSlots page prefs w tr = (r, tr') ->
  (r = Ok [] \/ exists e, r = Err e) ->
  Grid.scan_or_nothing page prefs w tr = (Ok None, tr').
Proof.
  intros Hscan Hr. unfold Grid.scan_or_nothing, try_catch, bind, ret.
  rewrite Hscan. destruct Hr as [-> | [e ->]]; reflexivity.
Qed.

Lemma placeholder_run prefs w tr :
  Grid.placeholder prefs w tr =
    (Ok [stub_slot (JS.slice0 10 (now_iso w tr))
                   (nullish (process_env w "UBC_BASE_URL") DEFAULT_BASE_URL) prefs], tr).
Proof. reflexivity. Qed.

Lemma slice0_app day rest :
  JS.slice0 (String.length day) (day ++ rest) = day.
Proof.
  unfold JS.slice0. induction day as [| c day IH]; cbn.
  - now destruct rest.
  - now rewrite IH.
Qed.

(** C1.  [checkAvailability] ([src/src/ubc.ts]) never returns an empty
    list.  Once the court list is open, a scan that collects no slot or
    throws makes it return exactly one slot, the placeholder: its
    [date_iso] is the first ten characters of the current instant in ISO
    form, that is the current date, its time is [19:00], its minutes are
    [min_minutes] or 60, its location is the fixed text and its link the
    address of the court list.  A court list with no [Choose] button is
    such a scan. *)
Theorem checkAvailability_never_empty :
  forall (w : World) (prefs : Preferences) (tr : Trace),
    (forall l tr', Grid.checkAvailability prefs w tr = (Ok l, tr') -> l <> [])
    /\
    (forall page tr1 r tr2,
        reaches_list Grid.open_list w tr page tr1 ->
        Grid.scanCourtsAndSlots page prefs w tr1 = (r, tr2) ->
        (r = Ok [] \/ exists e, r = Err e) ->
        respond w tr2 Close = Ok tt ->
        exists slot,
          Grid.checkAvailability prefs w tr = (Ok [slot], (tr2 ++ [Close])%list)
          /\ slot = stub_slot (JS.slice0 10 (now_iso w tr2))
                      (nullish (process_env w "UBC_BASE_URL") DEFAULT_BASE_URL) prefs
          /\ date_iso slot = JS.slice0 10 (now_iso w tr2)
          /\ (forall day rest,
                String.length day = 10 -> now_iso w tr2 = day ++ rest ->
                date_iso slot = day)
          /\ time_24h slot = "19:00"
          /\ minutes slot = Some (nullish (min_minutes prefs) 60%Z)
          /\ location slot = "UBC Tennis Centre – (stubbed)"
          /\ deep_link slot = Some (nullish (process_env w "UBC_BASE_URL") DEFAULT_BASE_URL))
    /\
    (forall page tr1,
        reaches_list Grid.open_list w tr page tr1 ->
        respond w tr1 (Count (Grid.chooseButtons page)) = Ok 0 ->
        exists r tr2,
          Grid.scanCourtsAndSlots page prefs w tr1 = (r, tr2)
          /\ (r = Ok [] \/ exists e, r = Err e)).
Proof.
  intros w prefs tr. split; [| split].
  - intros l tr' H. unfold Grid.checkAvailability in H.
    apply bind_inv_ok in H. destruct H as (p0 & tr0 & _ & H).
    apply try_finally_inv_ok in H. destruct H as (tr1 & H & _).
    apply bind_inv_ok in H. destruct H as (p1 & tr2 & _ & H).
    apply bind_inv_ok in H. destruct H as (found & tr3 & Hfound & H).
    destruct found as [realSlots |].
    + unfold ret in H. inversion H; subst.
      now apply scan_or_nothing_some in Hfound.
    + rewrite placeholder_run in H. inversion H. discriminate.
  - intros page tr1 r tr2 Hreach Hscan Hr Hclose.
    eexists. split; [| split; [reflexivity |]].
    + unfold reaches_list in Hreach. apply bind_inv_ok in Hreach.
      destruct Hreach as (p0 & tr0 & Hsession & Hopen).
      unfold Grid.checkAvailability.
      rewrite (bind_ok _ _ _ _ _ _ Hsession).
      unfold try_finally.
      rewrite (bind_ok _ _ _ _ _ _ Hopen).
      rewrite (bind_ok _ _ _ _ _ _ (scan_or_nothing_none _ _ _ _ _ _ Hscan Hr)).
      rewrite placeholder_run. unfold call. now rewrite Hclose.
    + cbn [stub_slot date_iso time_24h minutes location deep_link].
      repeat split.
      intros day rest Hlen Hnow. rewrite Hnow, <- Hlen. apply slice0_app.
  - intros page tr1 _ Hzero.
    unfold Grid.scanCourtsAndSlots.
    rewrite (bind_ok (count (Grid.chooseButtons page)) _ w tr1 0
               (tr1 ++ [Count (Grid.chooseButtons page)])%list)
      by (unfold count, call; now rewrite Hzero).
    cbn [Nat.eqb]. unfold bind at 1.
    destruct (Grid.debugListClickable page w
                (tr1 ++ [Count (Grid.chooseButtons page)])%list) as [[[] | e] tr2].
    + exists (Ok []), tr2. split; [reflexivity | now left].
    + exists (Err e), tr2. split; [reflexivity | right; now exists e].
Qed.

Lemma checkAvailability_never_empty_witness :
  exists slot,
    Grid.checkAvailability no_prefs (world_of empty_list_page) [] =
      (Ok [slot],
       [Launch; NewContext; NewPage; Goto 0 DEFAULT_BASE_URL "networkidle";
        IsVisible (Grid.loginButton 0); Count (Grid.chooseButtons 0);
        Count (Loc 0 "button, a, [role='button'], input[type='button'], input[type='submit']");
        Close])
    /\ date_iso slot = "2026-11-03"
    /\ time_24h slot = "19:00"
    /\ minutes slot = Some 60%Z.
Proof.
  destruct (checkAvailability_never_empty (world_of empty_list_page) no_prefs [])
    as (_ & Hstub & _).
  destruct (Hstub 0
           [Launch; NewContext; NewPage; Goto 0 DEFAULT_BASE_URL "networkidle";
            IsVisible (Grid.loginButton 0)]
           (Ok [])
           [Launch; NewContext; NewPage; Goto 0 DEFAULT_BASE_URL "networkidle";
            IsVisible (Grid.loginButton 0); Count (Grid.chooseButtons 0);
            Count (Loc 0 "button, a, [role='button'], input[type='button'], input[type='submit']")]
           eq_refl eq_refl (or_introl eq_refl) eq_refl)
    as (slot & Hrun & _ & _ & Hday & Htime & Hmin & _).
  exists slot. split; [exact Hrun |]. split; [| split; [exact Htime | exact Hmin]].
  exact (Hday "2026-11-03" "T17:00:00.000Z" eq_refl eq_refl).
Defined.

(** ** Release of the browser *)

(** Once the session exists, every public operation ends by calling
    [browser.close()], whatever happened in between. *)
Lemma close_is_last_after_session :
  forall (w : World) (tr : Trace) (page : Page) (tr0 : Trace),
    newSession w tr = (Ok page, tr0) ->
    (forall prefs, exists tr1,
        snd (Grid.checkAvailability prefs w tr) = (tr1 ++ [Close])%list)
    /\ (forall prefs, exists tr1,
        snd (Booking.checkAvailability prefs w tr) = (tr1 ++ [Close])%list)
    /\ (forall request, exists tr1,
        snd (Booking.bookSlot request w tr) = (tr1 ++ [Close])%list).
Proof.
  intros w tr page tr0 Hsession. repeat split; intros x.
  - unfold Grid.checkAvailability. rewrite (bind_ok _ _ _ _ _ _ Hsession).
    rewrite try_finally_close. eauto.
  - unfold Booking.checkAvailability. rewrite (bind_ok _ _ _ _ _ _ Hsession).
    rewrite try_finally_close. eauto.
  - unfold Booking.bookSlot. rewrite (bind_ok _ _ _ _ _ _ Hsession).
    rewrite try_finally_close. eauto.
Qed.

Lemma close_is_last_after_session_witness :
  exists tr1,
    snd (Booking.bookSlot (sample_request "09:00") (world_of empty_list_page) [])
    = (tr1 ++ [Close])%list.
Proof.
  exact (proj2 (proj2 (close_is_last_after_session (world_of empty_list_page) [] 0
                         [Launch; NewContext; NewPage] eq_refl))
               (sample_request "09:00")).
Defined.

(** C9.  When [browser.newContext()] is rejected, each public operation
    rejects after two commands, [chromium.launch] and
    [browser.newContext]: the browser that was launched is never closed.
    The three acquisition lines stand before the [try] whose [finally]
    closes the browser. *)
Theorem browser_not_closed_when_context_fails :
  Grid.checkAvailability no_prefs (world_of no_context) [] =
    (Err (mkError "rejected"), [Launch; NewContext])
  /\ Booking.checkAvailability no_prefs (world_of no_context) [] =
    (Err (mkError "rejected"), [Launch; NewContext])
  /\ Booking.bookSlot (sample_request "09:00") (world_of no_context) [] =
    (Err (mkError "rejected"), [Launch; NewContext])
  /\ closed [Launch; NewContext] = false.
Proof. repeat split. Qed.

(** ** Clock conversions *)

Lemma is_some_eq o t : is_some o t = true -> o = Some t.
Proof.
  destruct o as [s |]; simpl; [| discriminate].
  intros H. apply String.eqb_eq in H. now subst.
Qed.

Lemma is_ok_eq r t : is_ok r t = true -> r = Ok t.
Proof.
  destruct r as [s | e]; simpl; [| discriminate].
  intros H. apply String.eqb_eq in H. now subst.
Qed.

Lemma forallb_seq (f : nat -> bool) (a n : nat) :
  forallb f (seq a n) = true -> forall x, a <= x < a + n -> f x = true.
Proof.
  intros H x Hx. rewrite forallb_forall in H. apply H. now apply in_seq.
Qed.

Lemma check_all_12_holds :
  forallb (fun h => forallb (fun m => check_12 h m false && check_12 h m true) (seq 0 60))
          (seq 1 12) = true.
Proof. vm_compute. reflexivity. Qed.

Lemma check_all_24_holds :
  forallb (fun h => forallb (fun m => check_24 h m) (seq 0 60)) (seq 0 24) = true.
Proof. vm_compute. reflexivity. Qed.

Lemma check_12_holds h m pm : 1 <= h <= 12 -> m <= 59 -> check_12 h m pm = true.
Proof.
  intros Hh Hm.
  pose proof (forallb_seq _ _ _ (forallb_seq _ _ _ check_all_12_holds h ltac:(lia))
                m ltac:(lia)) as H.
  apply andb_prop in H. now destruct pm.
Qed.

Lemma check_24_holds h m : h <= 23 -> m <= 59 -> check_24 h m = true.
Proof.
  intros Hh Hm.
  exact (forallb_seq _ _ _ (forallb_seq _ _ _ check_all_24_holds h ltac:(lia))
           m ltac:(lia)).
Qed.

(** C4.  A 12-hour label [h:mm AM] or [h:mm PM] with [h] from 1 to 12
    (written with or without a leading zero) converts, by [to24h] and by
    [parseTimeFromText] alike, to the 24-hour time of the same minute of
    the day, and the conversion of the booking pipeline takes that time
    back to the label.  12:00 AM, 12:00 PM and 1:00 PM become 00:00,
    12:00 and 13:00.  Every 24-hour time converts to a label that
    converts back to it. *)
Theorem clock_round_trip :
  (forall h m pm, 1 <= h <= 12 -> m <= 59 ->
     Booking.to24h (label12 h m pm) = Some (clock24 (hour24 h pm) m)
     /\ Booking.to24h (label12_padded h m pm) = Some (clock24 (hour24 h pm) m)
     /\ Grid.parseTimeFromText (label12 h m pm) = Some (clock24 (hour24 h pm) m)
     /\ Grid.parseTimeFromText (label12_padded h m pm) = Some (clock24 (hour24 h pm) m)
     /\ minute_of_day_24 (hour24 h pm) m = minute_of_day_12 h m pm
     /\ Booking.time12h (clock24 (hour24 h pm) m) = Ok (label12 h m pm))
  /\ (Booking.to24h "12:00 AM" = Some "00:00"
      /\ Booking.to24h "12:00 PM" = Some "12:00"
      /\ Booking.to24h "1:00 PM" = Some "13:00"
      /\ Grid.parseTimeFromText "12:00 AM" = Some "00:00"
      /\ Grid.parseTimeFromText "12:00 PM" = Some "12:00"
      /\ Grid.parseTimeFromText "1:00 PM" = Some "13:00")
  /\ (forall h m, h <= 23 -> m <= 59 ->
        exists l, Booking.time12h (clock24 h m) = Ok l
                  /\ Booking.to24h l = Some (clock24 h m)
                  /\ Grid.parseTimeFromText l = Some (clock24 h m)).
Proof.
  split; [| split].
  - intros h m pm Hh Hm. pose proof (check_12_holds h m pm Hh Hm) as H.
    unfold check_12 in H. cbv zeta in H.
    repeat (apply andb_prop in H; destruct H as [H ?]).
    repeat split; auto using is_some_eq, is_ok_eq.
  - repeat split.
  - intros h m Hh Hm. pose proof (check_24_holds h m Hh Hm) as H.
    unfold check_24 in H.
    destruct (Booking.time12h (clock24 h m)) as [l | e]; [| discriminate].
    apply andb_prop in H. destruct H as [H1 H2].
    exists l. auto using is_some_eq.
Qed.

Lemma clock_round_trip_witness :
  Booking.to24h "7:05 PM" = Some "19:05"
  /\ Booking.to24h "07:05 PM" = Some "19:05"
  /\ Grid.parseTimeFromText "7:05 PM" = Some "19:05"
  /\ Grid.parseTimeFromText "07:05 PM" = Some "19:05"
  /\ minute_of_day_24 19 5 = minute_of_day_12 7 5 true
  /\ Booking.time12h "19:05" = Ok "7:05 PM".
Proof.
  exact (proj1 clock_round_trip 7 5 true ltac:(lia) ltac:(lia)).
Defined.

(** ** Booking: the requested slot is not on the page *)

Lemma find_target_none page label w :
  forall n from tr acc,
    (forall i tr2, from <= i < from + n -> exists a,
        respond w tr2 (GetAttribute (Nth (Booking.bookNowSpans page) i) "title") = Ok a
        /\ JS.includes (JS.toLowerCase (nullish a EmptyString)) (JS.toLowerCase label) = false) ->
    exists tr',
      for_range n from
        (fun i (targetSpan : option Locator) =>
           let span := Nth (Booking.bookNowSpans page) i in
           a <- getAttribute span "title" ;;
           let titleAttr := nullish a EmptyString in
           if JS.includes (JS.toLowerCase titleAttr) (JS.toLowerCase label)
           then ret (Break (Some span))
           else ret (Continue targetSpan))
        acc w tr = (Ok acc, tr').
Proof.
  induction n as [| n IH]; intros from tr acc Htitles.
  - exists tr. reflexivity.
  - destruct (Htitles from tr ltac:(lia)) as (a & Ha & Hno).
    cbn [for_range]. unfold bind at 1. unfold bind at 1.
    unfold getAttribute, call. rewrite Ha. cbv zeta. rewrite Hno.
    unfold ret at 1.
    apply IH. intros i tr2 Hi. apply Htitles. lia.
Qed.

(** C7.  For a request whose [time_24h] has the form [HH:MM] the API's
    schema requires: when the facility page has been reached and none of
    its bookable markers has a title that contains the 12-hour label of
    the requested time (titles and label compared in lower case, as the
    code does), [bookSlot] returns [{ success: false }] with the message
    [Could not find available slot at <time_24h> (<label>)]. *)
Theorem bookSlot_slot_not_found :
  forall (w : World) (request : BookingRequest) (tr : Trace)
         (page0 : Page) (tr0 : Trace) (page : Page) (courtName : string) (tr1 : Trace)
         (label : string) (n : nat),
    newSession w tr = (Ok page0, tr0) ->
    Booking.arrive page0 request w tr0 = (Ok (page, courtName), tr1) ->
    is_hhmm (req_time_24h request) = true ->
    Booking.time12h (req_time_24h request) = Ok label ->
    respond w tr1 (Count (Booking.bookNowSpans page)) = Ok n ->
    (forall i tr2, i < n -> exists a,
        respond w tr2 (GetAttribute (Nth (Booking.bookNowSpans page) i) "title") = Ok a
        /\ JS.includes (JS.toLowerCase (nullish a EmptyString)) (JS.toLowerCase label) = false) ->
    (forall tr2, respond w tr2 Close = Ok tt) ->
    exists tr',
      Booking.bookSlot request w tr =
        (Ok (failure (Booking.not_found_message request label)), tr')
      /\ success (failure (Booking.not_found_message request label)) = false
      /\ JS.includes (result_message (failure (Booking.not_found_message request label)))
                     "Could not find available slot" = true.
Proof.
  intros w request tr page0 tr0 page courtName tr1 label n
         Hsession Harrive Hform Hlabel Hcount Htitles Hclose.
  destruct (find_target_none page label w n 0
              (tr1 ++ [Count (Booking.bookNowSpans page)])%list None) as (tr2 & Hfind).
  { intros i tr2 Hi. apply Htitles. lia. }
  exists (tr2 ++ [Close])%list. split; [| split; reflexivity].
  assert (Hstep : Booking.step1 page request courtName w tr1 =
                    (Ok (failure (Booking.not_found_message request label)), tr2)).
  { unfold Booking.step1.
    rewrite (bind_ok (lift _) _ w tr1 label tr1)
      by (unfold lift; now rewrite Hlabel).
    rewrite (bind_ok (count _) _ w tr1 n (tr1 ++ [Count (Booking.bookNowSpans page)])%list)
      by (unfold count, call; now rewrite Hcount).
    rewrite (bind_ok (Booking.find_target page label n) _ w _ None tr2 Hfind).
    reflexivity. }
  unfold Booking.bookSlot. rewrite (bind_ok _ _ _ _ _ _ Hsession).
  unfold try_finally, try_catch, Booking.pipeline.
  rewrite (bind_ok _ _ _ _ _ _ Harrive). cbn [fst snd].
  rewrite Hstep. unfold call. now rewrite Hclose.
Qed.

Lemma bookSlot_slot_not_found_witness :
  exists tr',
    Booking.bookSlot (sample_request "09:00")
      (world_of (marker_page ["3:00 PM-4:00 PM"; "7:00 PM-8:00 PM"])) [] =
      (Ok (failure "Could not find available slot at 09:00 (9:00 AM)"), tr')
    /\ success (failure "Could not find available slot at 09:00 (9:00 AM)") = false
    /\ JS.includes
         (result_message (failure "Could not find available slot at 09:00 (9:00 AM)"))
         "Could not find available slot" = true.
Proof.
  refine (bookSlot_slot_not_found
            (world_of (marker_page ["3:00 PM-4:00 PM"; "7:00 PM-8:00 PM"]))
            (sample_request "09:00") [] 0 [Launch; NewContext; NewPage] 0 EmptyString
            _ "9:00 AM" 2 eq_refl eq_refl eq_refl eq_refl eq_refl _ (fun _ => eq_refl)).
  intros i tr2 Hi.
  destruct i as [| [| i]]; [eexists; split; reflexivity .. | lia].
Defined.

(** ** Booking: exceptions and success *)

Lemma prefix_refl t : String.prefix t t = true.
Proof.
  induction t as [| c t IH]; simpl; [reflexivity |].
  destruct (ascii_dec c c) as [_ | Hne]; [exact IH | now elim Hne].
Qed.

Lemma includes_of_prefix s sub : String.prefix sub s = true -> JS.includes s sub = true.
Proof. intros H. destruct s; cbn [JS.includes]; now rewrite H. Qed.

Lemma includes_refl s : JS.includes s s = true.
Proof. apply includes_of_prefix, prefix_refl. Qed.

Lemma includes_app_r a b : JS.includes (a ++ b) b = true.
Proof.
  induction a as [| c a IH]; cbn [append JS.includes].
  - apply includes_refl.
  - rewrite IH. apply orb_true_r.
Qed.

Lemma includes_empty s : JS.includes s EmptyString = true.
Proof. apply includes_of_prefix. now destruct s. Qed.

(** The message of the [catch] clause contains the message of the error
    it caught. *)
Lemma booking_failed_message e :
  success (Booking.booking_failed e) = false
  /\ JS.includes (result_message (Booking.booking_failed e)) (message e) = true.
Proof.
  split; [reflexivity |].
  unfold Booking.booking_failed, failure, result_message.
  destruct (message e) as [| c s] eqn:Hm.
  - apply includes_empty.
  - unfold or_string. apply includes_app_r.
Qed.

Lemma extends_ret {A} (a : A) : extends_trace (ret a).
Proof. intros w tr r tr' H. inversion H. exists []. now rewrite app_nil_r. Qed.

Lemma extends_call c : extends_trace (call c).
Proof. intros w tr r tr' H. inversion H. now exists [c]. Qed.

Lemma extends_bind {A B} (m : M A) (k : A -> M B) :
  extends_trace m -> (forall a, extends_trace (k a)) -> extends_trace (bind m k).
Proof.
  intros Hm Hk w tr r tr'. unfold bind.
  destruct (m w tr) as [[a | e] tr1] eqn:E; intros H.
  - destruct (Hm _ _ _ _ E) as (x1 & ->). destruct (Hk a _ _ _ _ H) as (x2 & ->).
    exists (x1 ++ x2)%list. now rewrite app_assoc.
  - inversion H; subst. exact (Hm _ _ _ _ E).
Qed.

Lemma extends_try_catch {A} (m : M A) (h : JsError -> M A) :
  extends_trace m -> (forall e, extends_trace (h e)) -> extends_trace (try_catch m h).
Proof.
  intros Hm Hh w tr r tr'. unfold try_catch.
  destruct (m w tr) as [[a | e] tr1] eqn:E; intros H.
  - inversion H; subst. exact (Hm _ _ _ _ E).
  - destruct (Hm _ _ _ _ E) as (x1 & ->). destruct (Hh e _ _ _ _ H) as (x2 & ->).
    exists (x1 ++ x2)%list. now rewrite app_assoc.
Qed.

Lemma extends_or_else {A} (m : M A) (d : A) : extends_trace m -> extends_trace (or_else m d).
Proof. intros Hm. apply extends_try_catch; [exact Hm | intros e; apply extends_ret]. Qed.

Lemma extends_keeps {A} (m : M A) (c : Cmd) w tr r tr' :
  extends_trace m -> In c tr -> m w tr = (r, tr') -> In c tr'.
Proof.
  intros Hm Hin H. destruct (Hm _ _ _ _ H) as (ext & ->).
  apply in_or_app. now left.
Qed.

Lemma success_bind {A} page (m : M A) (k : A -> M BookingResult) :
  (forall a, success_after_order page (k a)) -> success_after_order page (bind m k).
Proof.
  intros Hk w tr r tr' H. apply bind_inv_ok in H. destruct H as (a & tr1 & _ & H).
  exact (Hk a _ _ _ _ H).
Qed.

Lemma success_failure page msg : success_after_order page (ret (failure msg)).
Proof. intros w tr r tr' H Hs. inversion H; subst. discriminate. Qed.

Ltac success_steps :=
  repeat lazymatch goal with
    | |- success_after_order _ (bind _ _) => apply success_bind; intros ?
    | |- success_after_order _ (ret (failure _)) => apply success_failure
    | |- success_after_order _ (if ?c then _ else _) => destruct c
    | |- success_after_order _ (match ?x with _ => _ end) => destruct x
    end.

Ltac extends_steps :=
  unfold goto, waitForEventPage, waitForLoadState, waitForTimeout, waitForNavigation,
    waitForURL, waitForSelector, title, isVisible, isChecked, count, click, click_force,
    fill, waitFor, waitForHidden, innerText, getAttribute;
  repeat first [ apply extends_ret
               | match goal with |- extends_trace (call ?c) => exact (extends_call c) end
               | apply extends_or_else
               | apply extends_bind; [| intros ?]
               | match goal with
                 | |- extends_trace (if ?c then _ else _) => destruct c
                 end ].

Ltac invert_binds H :=
  repeat (let a := fresh "a" in let t := fresh "t" in let E := fresh "E" in
          apply bind_inv_ok in H; destruct H as (a & t & E & H)).

Lemma step5_success page request courtName :
  success_after_order page (Booking.step5 page request courtName).
Proof.
  unfold Booking.step5.
  apply success_bind; intros v. destruct (negb v); [apply success_failure |].
  intros w tr r tr' H Hs.
  unfold bind at 1 in H. unfold click at 1, call at 1 in H.
  destruct (respond w tr (Click (Booking.placeOrderButton page) false)) as [[] | e];
    [| discriminate].
  match type of H with
  | ?m w ?tr0 = _ => assert (Hext : extends_trace m) by extends_steps
  end.
  split.
  - eapply extends_keeps; [exact Hext | | exact H]. apply in_or_app. right. now left.
  - clear Hext. invert_binds H.
    match type of H with
    | (if ?c then _ else _) _ _ = _ => destruct c
    end.
    + inversion H; subst. discriminate.
    + invert_binds H. inversion H; subst. reflexivity.
Qed.

Lemma step4_success page request courtName :
  success_after_order page (Booking.step4 page request courtName).
Proof.
  unfold Booking.step4. success_steps. apply step5_success.
Qed.

Lemma step3_success page request courtName :
  success_after_order page (Booking.step3 page request courtName).
Proof.
  unfold Booking.step3. success_steps. apply step4_success.
Qed.

Lemma step2_success page request courtName :
  success_after_order page (Booking.step2 page request courtName).
Proof.
  unfold Booking.step2. success_steps; apply step3_success.
Qed.

Lemma step1_success page request courtName :
  success_after_order page (Booking.step1 page request courtName).
Proof.
  unfold Booking.step1. success_steps. apply step2_success.
Qed.

(** ** Rejections caught where they occur *)

Lemma same_ret {A} (a : A) : same_run (ret a).
Proof. intros w tr. reflexivity. Qed.

Lemma same_throw {A} (e : JsError) : same_run (@throw A e).
Proof. intros w tr. reflexivity. Qed.

Lemma same_bind {A B} (m : M A) (k : A -> M B) :
  same_run m -> (forall a, same_run (k a)) -> same_run (bind m k).
Proof.
  intros Hm Hk w tr. unfold bind. rewrite Hm.
  destruct (m w tr) as [[a | e] tr1]; [apply Hk | reflexivity].
Qed.

Lemma same_try_catch {A} (m : M A) (h : JsError -> M A) :
  same_run m -> (forall e, same_run (h e)) -> same_run (try_catch m h).
Proof.
  intros Hm Hh w tr. unfold try_catch. rewrite Hm.
  destruct (m w tr) as [[a | e] tr1]; [reflexivity | apply Hh].
Qed.

Lemma same_or_else {A} (m : M A) (d : A) : same_run m -> same_run (or_else m d).
Proof. intros Hm. apply same_try_catch; [exact Hm | intros e; apply same_ret]. Qed.

Lemma same_try_finally {A} (m : M A) (f : M unit) :
  same_run m -> same_run f -> same_run (try_finally m f).
Proof.
  intros Hm Hf w tr. unfold try_finally. rewrite Hm.
  destruct (m w tr) as [r tr1]. now rewrite Hf.
Qed.

(** A command that is nowhere forgiven is answered alike. *)
Lemma same_call (c : Cmd) : forgiven c = None -> same_run (call c).
Proof.
  intros Hc w tr. unfold call, soften. cbn [respond]. rewrite Hc.
  now destruct (respond w tr c).
Qed.

(** A forgiven command under its handler: the rejection and the value
    that stands for it lead to the same state. *)
Lemma same_forgiven (c : Cmd) (d : resp c) :
  forgiven c = Some d -> same_run (or_else (call c) d).
Proof.
  intros Hc w tr. unfold or_else, try_catch, call, ret, soften. cbn [respond].
  rewrite Hc. now destruct (respond w tr c).
Qed.

Lemma same_for_range {S} (body : nat -> S -> M (LoopStep S)) n :
  (forall i s, same_run (body i s)) -> forall from s, same_run (for_range n from body s).
Proof.
  intros Hbody. induction n as [| n IH]; intros from s; cbn [for_range].
  - apply same_ret.
  - apply same_bind; [apply Hbody |]. intros [s' | s']; [apply IH | apply same_ret].
Qed.

Lemma same_for_of {X S} (body : X -> S -> M (LoopStep S)) xs :
  (forall x s, same_run (body x s)) -> forall s, same_run (for_of xs body s).
Proof.
  intros Hbody. induction xs as [| x xs IH]; intros s; cbn [for_of].
  - apply same_ret.
  - apply same_bind; [apply Hbody |]. intros [s' | s']; [apply IH | apply same_ret].
Qed.

Ltac same_step :=
  lazymatch goal with
  | |- same_run (ret _) => apply same_ret
  | |- same_run (throw _) => apply same_throw
  | |- same_run (or_else (call ?c) ?d) =>
      first [ apply (same_forgiven c d); reflexivity
            | apply same_or_else; apply (same_call c); reflexivity ]
  | |- same_run (call ?c) => apply (same_call c); reflexivity
  | |- same_run (bind _ _) => apply same_bind; [| intros ?]
  | |- same_run (or_else _ _) => apply same_or_else
  | |- same_run (try_catch _ _) => apply same_try_catch; [| intros ?]
  | |- same_run (try_finally _ _) => apply same_try_finally
  | |- same_run (for_range _ _ _ _) => apply same_for_range; intros ? ?
  | |- same_run (for_of _ _ _) => apply same_for_of; intros ? ?
  | |- same_run (url _) => intros ? ?; reflexivity
  | |- same_run todayIso => intros ? ?; reflexivity
  | |- same_run (read _) => intros ? ?; reflexivity
  | |- same_run (lift _) => intros ? ?; reflexivity
  | |- same_run (env _) => intros ? ?; reflexivity
  | |- same_run (if ?c then _ else _) => destruct c
  | |- same_run (match ?x with _ => _ end) => destruct x
  | |- _ => progress cbv beta zeta
  end.

Ltac same_steps :=
  unfold clickAndWaitForPage, newSession, Booking.all;
  unfold goto, waitForEventPage, waitForLoadState, waitForTimeout, waitForNavigation,
    waitForURL, waitForSelector, title, isVisible, isChecked, count, click, click_force,
    fill, waitFor, waitForHidden, innerText, getAttribute, Booking.BASE_URL,
    Booking.env_or_empty;
  repeat same_step.

Lemma ensureLoggedIn_same page : same_run (Booking.ensureLoggedIn page).
Proof. unfold Booking.ensureLoggedIn. same_steps. Qed.

Lemma step5_same page request courtName : same_run (Booking.step5 page request courtName).
Proof. unfold Booking.step5. same_steps. Qed.

Lemma step4_same page request courtName : same_run (Booking.step4 page request courtName).
Proof. unfold Booking.step4. same_steps. all: apply step5_same. Qed.

Lemma step3_same page request courtName : same_run (Booking.step3 page request courtName).
Proof.
  unfold Booking.step3, Booking.select_you, Booking.select_first_available.
  same_steps. all: apply step4_same.
Qed.

Lemma relogin_same page newUrl : same_run (Booking.relogin page newUrl).
Proof. unfold Booking.relogin. same_steps. Qed.

Lemma step2_same page request courtName : same_run (Booking.step2 page request courtName).
Proof.
  unfold Booking.step2. same_steps.
  all: first [apply step3_same | apply relogin_same].
Qed.

Lemma step1_same page request courtName : same_run (Booking.step1 page request courtName).
Proof.
  unfold Booking.step1, Booking.find_target. same_steps. all: apply step2_same.
Qed.

Lemma arrive_same page request : same_run (Booking.arrive page request).
Proof. unfold Booking.arrive. same_steps. all: apply ensureLoggedIn_same. Qed.

Lemma bookSlot_same request : same_run (Booking.bookSlot request).
Proof.
  unfold Booking.bookSlot, Booking.pipeline. same_steps.
  - apply arrive_same.
  - apply step1_same.
Qed.




(** Two runs of [bookSlot] outside the above.  When the browser does
    not start, the rejection of [chromium.launch] reaches the caller.  On
    a page whose only attendee, the user, is disabled, the row's label is
    taken as the selected attendee before the row is found disabled: no
    attendee is clicked and the booking is carried through. *)
Lemma bookSlot_throws_and_goes_on :
  Booking.bookSlot (sample_request "09:00") (world_of no_browser) [] =
    (Err (mkError "rejected"), [Launch])
  /\ (exists r tr',
        Booking.bookSlot (sample_request "09:00") (world_of you_disabled_page) [] = (Ok r, tr')
        /\ success r = true
        /\ existsb clicks_attendee tr' = false).
Proof.
  split; [reflexivity |].
  eexists. eexists. split; [vm_compute; reflexivity | split; reflexivity].
Qed.

(** ** Order of the result *)

Section InsertionSort.

Context {A : Type} (cmp : A -> A -> Z).

Hypothesis cmp_total : forall a b, (0 < cmp a b)%Z -> (cmp b a <= 0)%Z.
Hypothesis cmp_trans :
  forall a b c, (cmp a b <= 0)%Z -> (cmp b c <= 0)%Z -> (cmp a c <= 0)%Z.

Lemma sort_insert_perm x l : Permutation (x :: l) (sort_insert cmp x l).
Proof.
  induction l as [| y l IH]; simpl; [reflexivity |].
  destruct (cmp x y <=? 0)%Z; [reflexivity |].
  rewrite perm_swap. now constructor.
Qed.

Lemma array_sort_perm l : Permutation l (array_sort cmp l).
Proof.
  induction l as [| x l IH]; simpl; [constructor |].
  rewrite <- sort_insert_perm. now constructor.
Qed.

Lemma sort_insert_sorted x l :
  StronglySorted (fun a b => (cmp a b <= 0)%Z) l ->
  StronglySorted (fun a b => (cmp a b <= 0)%Z) (sort_insert cmp x l).
Proof.
  induction l as [| y l IH]; intros Hs; simpl.
  - repeat constructor.
  - inversion Hs as [| ? ? Hs' Hall]; subst.
    destruct (cmp x y <=? 0)%Z eqn:E.
    + apply Z.leb_le in E. constructor; [exact Hs |].
      constructor; [exact E |].
      eapply Forall_impl; [| exact Hall]. intros b Hb. now apply cmp_trans with y.
    + apply Z.leb_gt in E. constructor; [now apply IH |].
      apply (Permutation_Forall (sort_insert_perm x l)).
      constructor; [now apply cmp_total | exact Hall].
Qed.

Lemma array_sort_sorted l :
  StronglySorted (fun a b => (cmp a b <= 0)%Z) (array_sort cmp l).
Proof.
  induction l as [| x l IH]; simpl; [constructor | now apply sort_insert_sorted].
Qed.

End InsertionSort.

Lemma compare_slots_le w a b :
  consistent_collation w -> (Booking.compare_slots w a b <= 0)%Z <-> slot_le w a b.
Proof.
  intros (Heq & Hanti & _). unfold Booking.compare_slots, slot_le.
  destruct (date_iso a =? date_iso b)%string eqn:E.
  - apply String.eqb_eq in E. rewrite E.
    assert (H0 : localeCompare w (date_iso b) (date_iso b) = 0%Z) by now apply Heq.
    rewrite H0. split; [intros H; right; now split | intros [H | [_ H]]; [lia | exact H]].
  - apply String.eqb_neq in E.
    assert (Hne : localeCompare w (date_iso a) (date_iso b) <> 0%Z)
      by (intros H; apply E; now apply Heq).
    split; [intros H; left; lia | intros [H | [H _]]; [lia | contradiction]].
Qed.

Lemma compare_slots_total w a b :
  consistent_collation w ->
  (0 < Booking.compare_slots w a b)%Z -> (Booking.compare_slots w b a <= 0)%Z.
Proof.
  intros (Heq & Hanti & _). unfold Booking.compare_slots.
  rewrite (String.eqb_sym (date_iso b) (date_iso a)).
  destruct (date_iso a =? date_iso b)%string; intros H; apply Hanti in H; lia.
Qed.

Lemma slot_le_trans w a b c :
  consistent_collation w -> slot_le w a b -> slot_le w b c -> slot_le w a c.
Proof.
  intros (Heq & Hanti & Htrans). unfold slot_le.
  intros [Hab | [Eab Hab]] [Hbc | [Ebc Hbc]].
  - left.
    assert (Hle : (localeCompare w (date_iso a) (date_iso c) <= 0)%Z)
      by (apply Htrans with (date_iso b); lia).
    destruct (Z.eq_dec (localeCompare w (date_iso a) (date_iso c)) 0) as [H0 | H0]; [| lia].
    apply Heq in H0. rewrite <- H0 in Hbc. apply Hanti in Hbc. lia.
  - left. now rewrite <- Ebc.
  - left. now rewrite Eab.
  - right. split; [congruence | now apply Htrans with (time_24h b)].
Qed.

Lemma compare_slots_trans w a b c :
  consistent_collation w ->
  (Booking.compare_slots w a b <= 0)%Z -> (Booking.compare_slots w b c <= 0)%Z ->
  (Booking.compare_slots w a c <= 0)%Z.
Proof.
  intros Hw Hab Hbc. apply compare_slots_le in Hab, Hbc; try exact Hw.
  apply compare_slots_le; [exact Hw |]. now apply slot_le_trans with b.
Qed.

Lemma StronglySorted_impl {A} (R R' : A -> A -> Prop) l :
  (forall a b, R a b -> R' a b) -> StronglySorted R l -> StronglySorted R' l.
Proof.
  intros Himp H. induction H as [| x l' Hs IH Hall]; constructor; [exact IH |].
  eapply Forall_impl; [| exact Hall]. intros b. apply Himp.
Qed.

Lemma sorted_slots w l :
  consistent_collation w ->
  StronglySorted (slot_le w) (array_sort (Booking.compare_slots w) l).
Proof.
  intros Hw.
  apply StronglySorted_impl with (R := fun a b => (Booking.compare_slots w a b <= 0)%Z).
  - intros a b. now apply compare_slots_le.
  - apply array_sort_sorted.
    + intros a b. now apply compare_slots_total.
    + intros a b c. now apply compare_slots_trans.
Qed.

Lemma code_unit_collation sc : consistent_collation (world_of sc).
Proof.
  unfold consistent_collation, world_of, localeCompare, code_unit_compare.
  split; [| split].
  - intros a b. destruct (a ?= b)%string eqn:C.
    + split; [intros _; now apply String_as_OT.cmp_eq | reflexivity].
    + split; [discriminate | intros H; apply String_as_OT.cmp_eq in H; unfold String_as_OT.cmp in H; congruence].
    + split; [discriminate | intros H; apply String_as_OT.cmp_eq in H; unfold String_as_OT.cmp in H; congruence].
  - intros a b. rewrite (String.compare_antisym b a).
    destruct (a ?= b)%string; simpl; split; intros H; lia.
  - intros a b c.
    destruct (a ?= b)%string eqn:Eab; [| | intros H; exfalso; lia].
    + apply String_as_OT.cmp_eq in Eab. now subst.
    + destruct (b ?= c)%string eqn:Ebc; [| | intros _ H; exfalso; lia].
      * apply String_as_OT.cmp_eq in Ebc. subst. now rewrite Eab.
      * apply String_as_OT.cmp_lt in Eab, Ebc.
        pose proof (String_as_OT.lt_trans _ _ _ Eab Ebc) as H.
        apply String_as_OT.cmp_lt in H. unfold String_as_OT.cmp in H. now rewrite H.
Qed.

(** C6, as amended.  [checkAvailability] of the revision that has
    [bookSlot] returns a list sorted ascending by date, then time, under
    [localeCompare]: whatever slots the scan found, in whatever order, it
    returns a sorted arrangement of them.  [checkAvailability] of
    [src/src/ubc.ts] returns the scanner's list as it is. *)
Theorem checkAvailability_order :
  forall (w : World) (prefs : Preferences) (tr : Trace),
    consistent_collation w ->
    (forall l tr', Booking.checkAvailability prefs w tr = (Ok l, tr') ->
       StronglySorted (slot_le w) l)
    /\ (forall page tr1 slots tr2,
          reaches_list Booking.open_list w tr page tr1 ->
          Booking.scanCourtsAndSlots page prefs w tr1 = (Ok slots, tr2) ->
          slots <> [] ->
          respond w tr2 Close = Ok tt ->
          exists l,
            Booking.checkAvailability prefs w tr = (Ok l, (tr2 ++ [Close])%list)
            /\ Permutation slots l /\ StronglySorted (slot_le w) l)
    /\ (forall page tr1 slots tr2,
          reaches_list Grid.open_list w tr page tr1 ->
          Grid.scanCourtsAndSlots page prefs w tr1 = (Ok slots, tr2) ->
          slots <> [] ->
          respond w tr2 Close = Ok tt ->
          Grid.checkAvailability prefs w tr = (Ok slots, (tr2 ++ [Close])%list)).
Proof.
  intros w prefs tr Hw. split; [| split].
  - intros l tr' H. unfold Booking.checkAvailability in H.
    apply bind_inv_ok in H. destruct H as (p0 & tr0 & _ & H).
    apply try_finally_inv_ok in H. destruct H as (tr1 & H & _).
    apply bind_inv_ok in H. destruct H as (p1 & tr2 & _ & H).
    apply bind_inv_ok in H. destruct H as (slots & tr3 & _ & H).
    destruct (0 <? List.length slots).
    + unfold read in H. inversion H; subst. now apply sorted_slots.
    + unfold Booking.placeholder, bind, todayIso, Booking.BASE_URL, read, ret in H.
      inversion H; subst. repeat constructor.
  - intros page tr1 slots tr2 Hreach Hscan Hne Hclose.
    unfold reaches_list in Hreach. apply bind_inv_ok in Hreach.
    destruct Hreach as (p0 & tr0 & Hsession & Hopen).
    exists (array_sort (Booking.compare_slots w) slots).
    split; [| split; [apply array_sort_perm | now apply sorted_slots]].
    unfold Booking.checkAvailability. rewrite (bind_ok _ _ _ _ _ _ Hsession).
    unfold try_finally.
    rewrite (bind_ok _ _ _ _ _ _ Hopen). rewrite (bind_ok _ _ _ _ _ _ Hscan).
    destruct slots as [| s slots]; [contradiction |].
    cbn [List.length Nat.ltb Nat.leb]. unfold read, call. now rewrite Hclose.
  - intros page tr1 slots tr2 Hreach Hscan Hne Hclose.
    unfold reaches_list in Hreach. apply bind_inv_ok in Hreach.
    destruct Hreach as (p0 & tr0 & Hsession & Hopen).
    unfold Grid.checkAvailability. rewrite (bind_ok _ _ _ _ _ _ Hsession).
    unfold try_finally. rewrite (bind_ok _ _ _ _ _ _ Hopen).
    assert (Hfound : Grid.scan_or_nothing page prefs w tr1 = (Ok (Some slots), tr2)).
    { unfold Grid.scan_or_nothing, try_catch. rewrite (bind_ok _ _ _ _ _ _ Hscan).
      destruct slots as [| s slots]; [contradiction | reflexivity]. }
    rewrite (bind_ok _ _ _ _ _ _ Hfound). unfold ret, call. now rewrite Hclose.
Qed.

Lemma checkAvailability_order_witness :
  exists slots tr2 l,
    Booking.scanCourtsAndSlots 0 no_prefs
      (world_of (marker_page ["7:00 PM-8:00 PM"; "3:00 PM-4:00 PM"]))
      [Launch; NewContext; NewPage; Goto 0 DEFAULT_BASE_URL "networkidle";
       IsVisible (Booking.loginButton 0)] = (Ok slots, tr2)
    /\ Booking.checkAvailability no_prefs
         (world_of (marker_page ["7:00 PM-8:00 PM"; "3:00 PM-4:00 PM"])) [] =
       (Ok l, (tr2 ++ [Close])%list)
    /\ Permutation slots l
    /\ StronglySorted (slot_le (world_of (marker_page ["7:00 PM-8:00 PM"; "3:00 PM-4:00 PM"]))) l.
Proof.
  destruct (checkAvailability_order
              (world_of (marker_page ["7:00 PM-8:00 PM"; "3:00 PM-4:00 PM"]))
              no_prefs []
              (code_unit_collation (marker_page ["7:00 PM-8:00 PM"; "3:00 PM-4:00 PM"])))
    as (_ & Hsorts & _).
  destruct (Booking.scanCourtsAndSlots 0 no_prefs
              (world_of (marker_page ["7:00 PM-8:00 PM"; "3:00 PM-4:00 PM"]))
              [Launch; NewContext; NewPage; Goto 0 DEFAULT_BASE_URL "networkidle";
               IsVisible (Booking.loginButton 0)]) as [[slots | e] tr2] eqn:Hscan;
    [| vm_compute in Hscan; discriminate].
  destruct (Hsorts 0 _ slots tr2 eq_refl Hscan) as (l & Hl).
  - vm_compute in Hscan. inversion Hscan. discriminate.
  - reflexivity.
  - exists slots, tr2, l. split; [reflexivity | exact Hl].
Defined.

(** The run the witness is about: two markers, the later one first on
    the page, come back in the order of their times. *)
Lemma checkAvailability_sorts_two_markers :
  option_map (map time_24h)
    (match fst (Booking.checkAvailability no_prefs
                  (world_of (marker_page ["7:00 PM-8:00 PM"; "3:00 PM-4:00 PM"])) []) with
     | Ok l => Some l
     | Err _ => None
     end) = Some ["15:00"; "19:00"].
Proof. vm_compute. reflexivity. Qed.

(** C6, as stated, fails on [src/src/ubc.ts].  With two courts whose
    schedules both offer 8:00 AM and 9:00 AM, [checkAvailability] returns
    08:00, 09:00, 08:00, 09:00, all dated today: court by court, not in
    order of time. *)
Lemma grid_checkAvailability_unsorted :
  exists l tr',
    Grid.checkAvailability no_prefs (world_of (grid_page ["8:00 AM"; "9:00 AM"])) [] = (Ok l, tr')
    /\ map date_iso l = ["2026-11-03"; "2026-11-03"; "2026-11-03"; "2026-11-03"]
    /\ map time_24h l = ["08:00"; "09:00"; "08:00"; "09:00"]
    /\ ~ Sorted (slot_le (world_of (grid_page ["8:00 AM"; "9:00 AM"]))) l.
Proof.
  eexists. eexists. split; [vm_compute; reflexivity |].
  split; [reflexivity | split; [reflexivity |]].
  intros H. inversion H as [| ? ? H1 _]; subst.
  inversion H1 as [| ? ? _ H2]; subst.
  inversion H2 as [| ? ? H3]; subst.
  destruct H3 as [H3 | [_ H3]]; vm_compute in H3; [discriminate | now apply H3].
Qed.

(** ** Decimal digits *)

Lemma append_assoc_s (a b c : string) : (a ++ b) ++ c = a ++ (b ++ c).
Proof. induction a as [| x a IH]; cbn [append]; [reflexivity | now rewrite IH]. Qed.

Lemma append_nil_s (a : string) : a ++ EmptyString = a.
Proof. induction a as [| x a IH]; cbn [append]; [reflexivity | now rewrite IH]. Qed.

Lemma length_append_s (a b : string) :
  String.length (a ++ b) = String.length a + String.length b.
Proof. induction a as [| x a IH]; cbn [append String.length]; [reflexivity | now rewrite IH]. Qed.

Lemma digit_char d :
  d < 10 ->
  JS.is_digit (ascii_of_nat (48 + d)) = true
  /\ JS.digit_val (ascii_of_nat (48 + d)) = d.
Proof.
  intros H. do 10 (destruct d as [| d]; [split; reflexivity |]). lia.
Qed.

Lemma digit_not_colon c : JS.is_digit c = true -> Ascii.eqb c ":" = false.
Proof.
  intros H. destruct (Ascii.eqb_spec c ":") as [-> | Hne]; [discriminate | reflexivity].
Qed.

Lemma all_digits_cons c s : JS.all_digits (String c s) = JS.is_digit c && JS.all_digits s.
Proof. reflexivity. Qed.

Lemma all_digits_app a b :
  JS.all_digits (a ++ b) = JS.all_digits a && JS.all_digits b.
Proof.
  induction a as [| c a IH]; [reflexivity |].
  cbn [append]. rewrite !all_digits_cons, IH. now rewrite andb_assoc.
Qed.

Lemma digits_fuel_spec :
  forall fuel n acc,
    n < fuel ->
    exists ds,
      JS.digits_fuel fuel n acc = ds ++ acc
      /\ JS.all_digits ds = true
      /\ ds <> EmptyString
      /\ forall a rest,
           JS.digits_value_acc a (ds ++ rest) =
           JS.digits_value_acc (a * 10 ^ String.length ds + n) rest.
Proof.
  induction fuel as [| fuel IH]; intros n acc Hn; [lia |].
  cbn [JS.digits_fuel].
  destruct (digit_char (n mod 10)) as (Hd & Hv);
    [apply Nat.mod_upper_bound; lia |].
  pose proof (Nat.div_mod_eq n 10) as Hdm.
  destruct (n / 10 =? 0) eqn:E.
  - apply Nat.eqb_eq in E.
    exists (String (ascii_of_nat (48 + n mod 10)) EmptyString).
    repeat split.
    + rewrite all_digits_cons, Hd. reflexivity.
    + discriminate.
    + intros a rest. cbn [append JS.digits_value_acc String.length]. rewrite Hd, Hv.
      f_equal. cbn [Nat.pow]. lia.
  - apply Nat.eqb_neq in E.
    destruct (IH (n / 10) (String (ascii_of_nat (48 + n mod 10)) acc))
      as (ds & Hds & Hall & Hne & Hval); [lia |].
    exists (ds ++ String (ascii_of_nat (48 + n mod 10)) EmptyString).
    repeat split.
    + rewrite Hds. now rewrite append_assoc_s.
    + rewrite all_digits_app, Hall, all_digits_cons, Hd. reflexivity.
    + destruct ds; [now elim Hne | discriminate].
    + intros a rest. rewrite append_assoc_s. rewrite Hval.
      cbn [append JS.digits_value_acc]. rewrite Hd, Hv. f_equal.
      rewrite length_append_s. cbn [String.length].
      rewrite Nat.add_1_r. cbn [Nat.pow]. nia.
Qed.

Lemma toString_digits n :
  JS.all_digits (JS.toString n) = true
  /\ JS.toString n <> EmptyString
  /\ JS.digits_value (JS.toString n) = n.
Proof.
  unfold JS.toString.
  destruct (digits_fuel_spec (S n) n EmptyString) as (ds & Hds & Hall & Hne & Hval); [lia |].
  rewrite Hds, append_nil_s. repeat split; [exact Hall | exact Hne |].
  unfold JS.digits_value. rewrite <- (append_nil_s ds) at 1. rewrite Hval. reflexivity.
Qed.

Lemma padStart2_digits s :
  JS.all_digits s = true -> s <> EmptyString ->
  JS.all_digits (JS.padStart2 s) = true
  /\ JS.padStart2 s <> EmptyString
  /\ JS.digits_value (JS.padStart2 s) = JS.digits_value s.
Proof.
  intros Hall Hne. unfold JS.padStart2.
  destruct s as [| c [| d s]]; [now elim Hne | | ]; cbn [String.length].
  - split; [| split; [discriminate | reflexivity]].
    cbn [append]. rewrite all_digits_cons. exact Hall.
  - split; [exact Hall | split; [discriminate | reflexivity]].
Qed.

Lemma split_digits b : JS.all_digits b = true -> JS.split ":" b = [b].
Proof.
  induction b as [| c b IH]; intros H; [reflexivity |].
  rewrite all_digits_cons in H. apply andb_prop in H. destruct H as [Hc Hb].
  cbn [JS.split]. rewrite (digit_not_colon c Hc). now rewrite (IH Hb).
Qed.

Lemma split_colon a b :
  JS.all_digits a = true -> JS.split ":" (a ++ String ":" b) = a :: JS.split ":" b.
Proof.
  induction a as [| c a IH]; intros H; [reflexivity |].
  rewrite all_digits_cons in H. apply andb_prop in H. destruct H as [Hc Ha].
  cbn [append JS.split]. rewrite (digit_not_colon c Hc). now rewrite (IH Ha).
Qed.

Lemma Number_digits s :
  JS.all_digits s = true -> s <> EmptyString -> JS.Number s = Some (JS.digits_value s).
Proof.
  intros Hall Hne. unfold JS.Number. destruct s; [now elim Hne | now rewrite Hall].
Qed.

Lemma parseInt_digits s :
  JS.all_digits s = true -> s <> EmptyString -> JS.parseInt s = Some (JS.digits_value s).
Proof.
  intros Hall Hne. unfold JS.parseInt. destruct s as [| c s]; [now elim Hne |].
  rewrite all_digits_cons in Hall. apply andb_prop in Hall. now rewrite (proj1 Hall).
Qed.

(** The parts of a time written [HH:MM], as the code reads them back. *)
Lemma clock_parts h mm :
  JS.all_digits mm = true -> mm <> EmptyString ->
  map JS.Number (JS.split ":" (JS.padStart2 (JS.toString h) ++ ":" ++ mm)) =
    [Some h; Some (JS.digits_value mm)]
  /\ start_hour_of (JS.padStart2 (JS.toString h) ++ ":" ++ mm) = Some (Z.of_nat h).
Proof.
  intros Hmm Hne.
  destruct (toString_digits h) as (Hall & Hnz & Hval).
  destruct (padStart2_digits _ Hall Hnz) as (Hall' & Hnz' & Hval').
  unfold start_hour_of.
  cbn [append]. rewrite (split_colon _ _ Hall'), (split_digits _ Hmm).
  cbn [map hd].
  rewrite (Number_digits _ Hall' Hnz'), (Number_digits _ Hmm Hne),
    (parseInt_digits _ Hall' Hnz'), Hval', Hval.
  split; reflexivity.
Qed.

Lemma take_hm_shape s hh mm rest :
  JS.take_hm s = Some (hh, mm, rest) ->
  JS.all_digits hh = true /\ hh <> EmptyString
  /\ JS.all_digits mm = true /\ mm <> EmptyString.
Proof.
  assert (Hafter : forall hh0 r,
             match r with
             | String m1 (String m2 rest') =>
                 if JS.is_digit m1 && JS.is_digit m2
                 then Some (hh0, String m1 (String m2 EmptyString), rest')
                 else None
             | _ => None
             end = Some (hh, mm, rest) ->
             hh = hh0 /\ JS.all_digits mm = true /\ mm <> EmptyString).
  { intros hh0 r. destruct r as [| m1 [| m2 r]]; try discriminate.
    destruct (JS.is_digit m1) eqn:M1; [| discriminate].
    destruct (JS.is_digit m2) eqn:M2; [| discriminate].
    cbn [andb]. intros H; inversion H; subst.
    rewrite !all_digits_cons, M1, M2. repeat split; discriminate. }
  unfold JS.take_hm.
  destruct s as [| h1 [| c2 s2]]; try discriminate.
  destruct (JS.is_digit h1) eqn:H1; [| discriminate].
  destruct (Ascii.eqb c2 ":").
  - intros H. apply Hafter in H. destruct H as (-> & Hmm & Hne).
    rewrite all_digits_cons, H1. repeat split; auto; discriminate.
  - destruct (JS.is_digit c2) eqn:H2; [| discriminate].
    destruct s2 as [| c3 s3]; [discriminate |].
    destruct (Ascii.eqb c3 ":"); [| discriminate].
    intros H. apply Hafter in H. destruct H as (-> & Hmm & Hne).
    rewrite !all_digits_cons, H1, H2. repeat split; auto; discriminate.
Qed.

Lemma clock_at_shape ci s m :
  JS.clock_at ci s = Some m ->
  JS.all_digits (JS.cm_hh m) = true /\ JS.cm_hh m <> EmptyString
  /\ JS.all_digits (JS.cm_mm m) = true /\ JS.cm_mm m <> EmptyString.
Proof.
  unfold JS.clock_at.
  destruct (JS.take_hm s) as [[[hh mm] r1] |] eqn:E; [| discriminate].
  destruct (JS.take_spaces r1) as [ws r2].
  destruct (JS.take_ampm ci r2) as [[ap r3] |]; [| discriminate].
  intros H; inversion H; subst. cbn. now apply take_hm_shape with (s := s) (rest := r1).
Qed.

(** The hour [to24h] and [parseTimeFromText] compute from the hour [h]
    of a label. *)
Lemma code_hour_is_hour24 h pm :
  1 <= h <= 12 ->
  (if (h =? 12) && negb pm then 0 else if negb (h =? 12) && pm then h + 12 else h)
  = hour24 h pm.
Proof.
  intros Hh. unfold hour24.
  destruct (Nat.eqb_spec h 12) as [-> | Hne]; destruct pm; cbn [andb negb]; try reflexivity.
  - rewrite Nat.mod_small by lia. lia.
  - rewrite Nat.mod_small by lia. lia.
Qed.

(** What [to24h] returns, in terms of what the label reads. *)
Lemma to24h_reads g s :
  Booking.to24h g = Some s ->
  exists h m pm mm,
    read_label g = Some (h, m, pm)
    /\ JS.all_digits mm = true /\ mm <> EmptyString /\ JS.digits_value mm = m
    /\ s = JS.padStart2
             (JS.toString (if (h =? 12) && negb pm then 0
                           else if negb (h =? 12) && pm then h + 12 else h))
           ++ ":" ++ mm.
Proof.
  unfold Booking.to24h, read_label.
  destruct (JS.clock_at true (JS.trim g)) as [m |] eqn:E; [| discriminate].
  destruct (clock_at_shape _ _ _ E) as (_ & _ & Hmm & Hne).
  destruct (JS.cm_rest m); [| discriminate].
  intros H; inversion H; subst.
  exists (JS.digits_value (JS.cm_hh m)), (JS.digits_value (JS.cm_mm m)),
    (JS.toUpperCase (JS.cm_ampm m) =? "PM")%string, (JS.cm_mm m).
  repeat split; auto.
Qed.

(** ** Intervals and the preference window *)

Lemma to24h_parts g s :
  Booking.to24h g = Some s ->
  exists H M h m pm,
    read_label g = Some (h, m, pm)
    /\ map JS.Number (JS.split ":" s) = [Some H; Some M]
    /\ start_hour_of s = Some (Z.of_nat H)
    /\ M = m
    /\ (1 <= h <= 12 -> H = hour24 h pm).
Proof.
  intros Hs. destruct (to24h_reads g s Hs) as (h & m & pm & mm & Hread & Hall & Hne & Hm & ->).
  destruct (clock_parts
              (if (h =? 12) && negb pm then 0 else if negb (h =? 12) && pm then h + 12 else h)
              mm Hall Hne) as (Hparts & Hhour).
  exists (if (h =? 12) && negb pm then 0 else if negb (h =? 12) && pm then h + 12 else h).
  exists (JS.digits_value mm), h, m, pm.
  repeat split; [exact Hread | exact Hparts | exact Hhour | exact Hm |].
  intros Hh. now apply code_hour_is_hour24.
Qed.

Lemma durationMinutes_parts s e sh sm eh em :
  map JS.Number (JS.split ":" s) = [Some sh; Some sm] ->
  map JS.Number (JS.split ":" e) = [Some eh; Some em] ->
  Booking.durationMinutes s e = Some (minute_of_day_24 eh em - minute_of_day_24 sh sm)%Z.
Proof.
  intros Hs He. unfold Booking.durationMinutes. now rewrite Hs, He.
Qed.

Lemma call_inv_ok (c : Cmd) w tr (a : resp c) tr1 :
  call c w tr = (Ok a, tr1) -> respond w tr c = Ok a /\ tr1 = (tr ++ [c])%list.
Proof.
  unfold call. intros H. inversion H. auto.
Qed.

Lemma or_else_call_trace (c : Cmd) (d : resp c) w tr a tr1 :
  or_else (call c) d w tr = (Ok a, tr1) -> tr1 = (tr ++ [c])%list.
Proof.
  unfold or_else, try_catch, call, ret.
  destruct (respond w tr c); intros H; now inversion H.
Qed.

Lemma interval_of_span_inv span w tr s e tr1 :
  Booking.interval_of_span span w tr = (Ok (Some (s, e)), tr1) ->
  exists a g1 g2,
    respond w (tr ++ [IsVisible span; InnerText span; EvalSlotAvailable span])%list
            (GetAttribute span "title") = Ok a
    /\ JS.range_search (nullish a EmptyString) = Some (g1, g2)
    /\ Booking.to24h g1 = Some s
    /\ Booking.to24h g2 = Some e
    /\ tr1 = (tr ++ [IsVisible span; InnerText span; EvalSlotAvailable span;
                     GetAttribute span "title"])%list.
Proof.
  unfold Booking.interval_of_span. intros H.
  apply bind_inv_ok in H. destruct H as (visible & t1 & Hvis & H).
  apply (or_else_call_trace (IsVisible span)) in Hvis. subst t1.
  destruct (negb visible); [discriminate |].
  apply bind_inv_ok in H. destruct H as (t & t2 & Htext & H).
  apply (or_else_call_trace (InnerText span)) in Htext. subst t2.
  destruct (negb (JS.is_book_now (JS.trim t))); [discriminate |].
  apply bind_inv_ok in H. destruct H as (avail & t3 & Hav & H).
  apply call_inv_ok in Hav. destruct Hav as [_ ->].
  destruct (negb avail); [discriminate |].
  apply bind_inv_ok in H. destruct H as (a & t4 & Hattr & H).
  apply (call_inv_ok (GetAttribute span "title")) in Hattr. destruct Hattr as [Hattr ->].
  rewrite <- !app_assoc in Hattr. cbn [app] in Hattr.
  destruct (JS.range_search (nullish a EmptyString)) as [[g1 g2] |] eqn:Erange;
    [| discriminate].
  destruct (Booking.to24h g1) as [s' |] eqn:E1; [| discriminate].
  destruct (Booking.to24h g2) as [e' |] eqn:E2; [| discriminate].
  unfold ret in H. inversion H; subst.
  exists a, g1, g2. repeat split; auto.
  now rewrite <- !app_assoc.
Qed.

Lemma passes_preferences_window prefs s h d :
  start_hour_of s = Some h ->
  Booking.passes_preferences prefs s (Some d) = true <-> in_window prefs h d.
Proof.
  unfold start_hour_of, Booking.passes_preferences, in_window. intros ->.
  destruct (start_hour prefs) as [ps |], (end_hour prefs) as [pe |],
    (min_minutes prefs) as [pm |]; cbn [num_ltb num_geb negb andb];
    rewrite ?andb_true_iff, ?negb_true_iff, ?Z.ltb_ge, ?Z.leb_gt; split.
  all: try (intros H; repeat split; intros x Hx; inversion Hx; subst; lia).
  all: try (intros (H1 & H2 & H3); repeat split;
            try apply (H1 _ eq_refl); try apply (H2 _ eq_refl); try apply (H3 _ eq_refl);
            reflexivity).
Qed.

Lemma slot_of_interval_kept page prefs label span s e w tr d :
  Booking.passes_preferences prefs s (Booking.durationMinutes s e) = true ->
  respond w tr (EvalDataDate span) = Ok d ->
  exists slot tr',
    Booking.slot_of_interval page prefs label span s e w tr = (Ok (Some slot), tr')
    /\ time_24h slot = s /\ minutes slot = Booking.durationMinutes s e.
Proof.
  intros Hpass Hdate. unfold Booking.slot_of_interval. rewrite Hpass. cbn [negb].
  unfold bind at 1. unfold call at 1. rewrite Hdate.
  destruct (nonempty d && JS.is_iso_date d);
    unfold bind, ret, todayIso, url, read; cbn; eauto.
Qed.

Lemma slot_of_interval_dropped page prefs label span s e w tr :
  Booking.passes_preferences prefs s (Booking.durationMinutes s e) = false ->
  Booking.slot_of_interval page prefs label span s e w tr = (Ok None, tr).
Proof.
  intros Hpass. unfold Booking.slot_of_interval. now rewrite Hpass.
Qed.

Lemma slot_of_span_inv page prefs label span w tr slot tr' :
  Booking.slot_of_span page prefs label span w tr = (Ok (Some slot), tr') ->
  exists s e tr1,
    Booking.interval_of_span span w tr = (Ok (Some (s, e)), tr1)
    /\ Booking.passes_preferences prefs s (Booking.durationMinutes s e) = true
    /\ time_24h slot = s
    /\ minutes slot = Booking.durationMinutes s e.
Proof.
  unfold Booking.slot_of_span. intros H.
  apply bind_inv_ok in H. destruct H as ([[s e] |] & tr1 & Hint & H); [| discriminate].
  exists s, e, tr1. split; [exact Hint |].
  unfold Booking.slot_of_interval in H.
  destruct (Booking.passes_preferences prefs s (Booking.durationMinutes s e));
    [| discriminate].
  split; [reflexivity |]. cbn [negb] in H.
  apply bind_inv_ok in H. destruct H as (d & t2 & _ & H).
  apply bind_inv_ok in H. destruct H as (date & t3 & _ & H).
  apply bind_inv_ok in H. destruct H as (u & t4 & _ & H).
  unfold ret in H. inversion H; subst. auto.
Qed.

Lemma interval_times s e g1 g2 :
  Booking.to24h g1 = Some s -> Booking.to24h g2 = Some e ->
  exists H1 M1 H2 M2,
    start_hour_of s = Some (Z.of_nat H1)
    /\ Booking.durationMinutes s e
       = Some (minute_of_day_24 H2 M2 - minute_of_day_24 H1 M1)%Z
    /\ (forall h1 m1 pm1 h2 m2 pm2,
          read_label g1 = Some (h1, m1, pm1) -> read_label g2 = Some (h2, m2, pm2) ->
          1 <= h1 <= 12 -> 1 <= h2 <= 12 ->
          minute_of_day_24 H1 M1 = minute_of_day_12 h1 m1 pm1
          /\ minute_of_day_24 H2 M2 = minute_of_day_12 h2 m2 pm2).
Proof.
  intros Hs He.
  destruct (to24h_parts _ _ Hs) as (H1 & M1 & h1 & m1 & pm1 & R1 & P1 & S1 & E1 & V1).
  destruct (to24h_parts _ _ He) as (H2 & M2 & h2 & m2 & pm2 & R2 & P2 & S2 & E2 & V2).
  exists H1, M1, H2, M2. split; [exact S1 |]. split.
  - now apply durationMinutes_parts.
  - intros a1 b1 c1 a2 b2 c2 Ra Rb Ha Hb.
    rewrite R1 in Ra. rewrite R2 in Rb. inversion Ra; inversion Rb; subst.
    unfold minute_of_day_12. rewrite (V1 Ha), (V2 Hb). auto.
Qed.

Lemma for_range_collect {X} (f : nat -> M (option X)) n :
  forall from acc w tr l tr',
    for_range n from
      (fun i (acc : list X) =>
         r <- f i ;;
         match r with
         | Some x => ret (Continue (acc ++ [x])%list)
         | None => ret (Continue acc)
         end) acc w tr = (Ok l, tr') ->
    forall x, In x l ->
      In x acc \/ exists i tr1 tr2, f i w tr1 = (Ok (Some x), tr2).
Proof.
  induction n as [| n IH]; intros from acc w tr l tr' H x Hx.
  - cbn in H. unfold ret in H. inversion H; subst. now left.
  - cbn [for_range] in H.
    apply bind_inv_ok in H. destruct H as (r & t1 & Hbody & H).
    apply bind_inv_ok in Hbody. destruct Hbody as (o & t2 & Hf & Hr).
    destruct o as [y |]; unfold ret in Hr; inversion Hr; subst.
    + destruct (IH _ _ _ _ _ _ H x Hx) as [Hin | Hex]; [| now right].
      apply in_app_or in Hin. destruct Hin as [Hin | [-> | []]]; [now left |].
      right. eauto.
    + exact (IH _ _ _ _ _ _ H x Hx).
Qed.

Lemma clock_search_shape ci s m :
  JS.clock_search ci s = Some m ->
  JS.all_digits (JS.cm_mm m) = true /\ JS.cm_mm m <> EmptyString.
Proof.
  induction s as [| c s IH]; cbn [JS.clock_search].
  - destruct (JS.clock_at ci EmptyString) as [m' |] eqn:E; [| discriminate].
    intros H; inversion H; subst. now destruct (clock_at_shape _ _ _ E) as (_ & _ & ? & ?).
  - destruct (JS.clock_at ci (String c s)) as [m' |] eqn:E; [| exact IH].
    intros H; inversion H; subst. now destruct (clock_at_shape _ _ _ E) as (_ & _ & ? & ?).
Qed.

Lemma parseTimeFromText_hour raw s :
  Grid.parseTimeFromText raw = Some s -> exists H, start_hour_of s = Some (Z.of_nat H).
Proof.
  unfold Grid.parseTimeFromText.
  destruct (negb (nonempty (JS.trim raw))); [discriminate |].
  destruct (JS.clock_search true (JS.trim raw)) as [m |] eqn:E; [| discriminate].
  destruct (clock_search_shape _ _ _ E) as [Hall Hne].
  intros H; inversion H; subst. eexists.
  exact (proj2 (clock_parts _ _ Hall Hne)).
Qed.

Lemma slot_of_row_inv page prefs courtName today row w tr slot tr' :
  Grid.slot_of_row page prefs courtName today row w tr = (Ok (Some slot), tr') ->
  exists h,
    start_hour_of (time_24h slot) = Some h
    /\ (nullish (start_hour prefs) 0 <= h)%Z /\ (h < nullish (end_hour prefs) 24)%Z
    /\ minutes slot = Some (nullish (min_minutes prefs) 60%Z).
Proof.
  unfold Grid.slot_of_row. intros H.
  apply bind_inv_ok in H. destruct H as (t & t1 & _ & H).
  destruct (Grid.parseTimeFromText (JS.trim t)) as [s |] eqn:E; [| discriminate].
  destruct (parseTimeFromText_hour _ _ E) as [h Hh].
  unfold start_hour_of in Hh. rewrite Hh in H. cbn [num_ltb num_geb] in H.
  destruct (Z.ltb_spec (Z.of_nat h) (nullish (start_hour prefs) 0%Z)); [discriminate |].
  destruct (Z.leb_spec (nullish (end_hour prefs) 24%Z) (Z.of_nat h)); [discriminate |].
  cbn [orb] in H.
  apply bind_inv_ok in H. destruct H as (k & t2 & _ & H).
  destruct (k =? 0); [discriminate |].
  apply bind_inv_ok in H. destruct H as (u & t3 & _ & H).
  unfold ret in H. inversion H; subst. cbn.
  exists (Z.of_nat h). unfold start_hour_of. auto.
Qed.

Lemma nullish_bounds prefs h :
  (0 <= h)%Z ->
  ((nullish (start_hour prefs) 0 <= h)%Z /\ (h < nullish (end_hour prefs) 24)%Z)
  <-> (in_hours prefs h /\ (end_hour prefs = None -> (h < 24)%Z)).
Proof.
  intros Hh. unfold in_hours, nullish.
  destruct (start_hour prefs) as [ps |], (end_hour prefs) as [pe |]; split.
  all: try (intros [H1 H2]; repeat split; try discriminate;
            try (intros x Hx; inversion Hx; subst); auto; lia).
  all: intros [[H1 H2] H3]; split;
    try apply (H1 _ eq_refl); try apply (H2 _ eq_refl); try apply (H3 eq_refl); lia.
Qed.

Lemma call_ok (c : Cmd) w tr (a : resp c) :
  respond w tr c = Ok a -> call c w tr = (Ok a, (tr ++ [c])%list).
Proof. intros H. unfold call. now rewrite H. Qed.

Lemma or_else_ok {A} (m : M A) (d : A) w tr a tr1 :
  m w tr = (Ok a, tr1) -> or_else m d w tr = (Ok a, tr1).
Proof. intros H. unfold or_else, try_catch. now rewrite H. Qed.

Lemma or_else_text w tr l :
  or_else (innerText l) EmptyString w tr
  = (Ok (text_or_empty w tr l), (tr ++ [InnerText l])%list).
Proof.
  unfold or_else, try_catch, innerText, call, text_or_empty, ret.
  now destruct (respond w tr (InnerText l)).
Qed.

Lemma kept_cons {X} t (r : option X) steps :
  kept ((t, r) :: steps) = ((match r with Some x => [x] | None => [] end) ++ kept steps)%list.
Proof. reflexivity. Qed.

Lemma for_range_collect_exact {X} (f : nat -> M (option X)) w n :
  forall from acc tr l tr',
    for_range n from
      (fun i (acc : list X) =>
         r <- f i ;;
         match r with
         | Some x => ret (Continue (acc ++ [x])%list)
         | None => ret (Continue acc)
         end) acc w tr = (Ok l, tr')
    <-> exists steps, runs_in_turn f w n from tr steps tr' /\ l = (acc ++ kept steps)%list.
Proof.
  induction n as [| n IH]; intros from acc tr l tr'; cbn [for_range]; split.
  - intros H. unfold ret in H. inversion H; subst. exists []. cbn.
    now rewrite app_nil_r.
  - intros (steps & Hrun & ->). destruct steps as [| [t r] steps]; cbn in Hrun; [| easy].
    subst. cbn. now rewrite app_nil_r.
  - intros H. apply bind_inv_ok in H. destruct H as (r & t1 & Hbody & H).
    apply bind_inv_ok in Hbody. destruct Hbody as (o & t2 & Hf & Hr).
    destruct o as [x |]; unfold ret in Hr; inversion Hr; subst.
    + apply IH in H. destruct H as (steps & Hrun & ->).
      exists ((tr, Some x) :: steps). split.
      * cbn. split; [reflexivity |]. eauto.
      * rewrite kept_cons, <- app_assoc. reflexivity.
    + apply IH in H. destruct H as (steps & Hrun & ->).
      exists ((tr, None) :: steps). split.
      * cbn. split; [reflexivity |]. eauto.
      * reflexivity.
  - intros (steps & Hrun & ->). destruct steps as [| [t r] steps]; cbn in Hrun; [easy |].
    destruct Hrun as (-> & tr1 & Hf & Hrun).
    unfold bind at 1. unfold bind at 1. rewrite Hf.
    destruct r as [x |]; unfold ret at 1; apply IH; exists steps; split; auto.
    rewrite kept_cons, <- app_assoc. reflexivity.
Qed.

Lemma runs_in_turn_nth {X} (f : nat -> M X) w n :
  forall from tr steps tr' i t r,
    runs_in_turn f w n from tr steps tr' ->
    nth_error steps i = Some (t, r) ->
    i < n /\ exists t', f (from + i) w t = (Ok r, t').
Proof.
  induction n as [| n IH]; intros from tr steps tr' i t r Hrun Hnth.
  - destruct steps; cbn in Hrun; [| easy]. now destruct i.
  - destruct steps as [| [t0 r0] steps]; cbn in Hrun; [easy |].
    destruct Hrun as (-> & tr1 & Hf & Hrun).
    destruct i as [| i]; cbn in Hnth.
    + inversion Hnth; subst. split; [lia |]. rewrite Nat.add_0_r. eauto.
    + destruct (IH _ _ _ _ _ _ _ Hrun Hnth) as (Hi & t' & Ht').
      split; [lia |]. replace (from + S i) with (S from + i) by lia. eauto.
Qed.

Lemma runs_in_turn_length {X} (f : nat -> M X) w n :
  forall from tr steps tr',
    runs_in_turn f w n from tr steps tr' -> List.length steps = n.
Proof.
  induction n as [| n IH]; intros from tr steps tr' Hrun.
  - destruct steps; cbn in Hrun; easy.
  - destruct steps as [| [t0 r0] steps]; cbn in Hrun; [easy |].
    destruct Hrun as (_ & tr1 & _ & Hrun). cbn. f_equal. eauto.
Qed.

Lemma kept_nth {X} (steps : list (Trace * option X)) i t x :
  nth_error steps i = Some (t, Some x) -> In x (kept steps).
Proof.
  intros H. apply nth_error_In in H. unfold kept. apply in_flat_map.
  exists (t, Some x). split; [exact H | now left].
Qed.

(** The scan of the markers is the row of its iterations. *)
Lemma extractSlotsFromScheduler_exact w page prefs label tr n :
  respond w tr (Count (Booking.bookNowSpans page)) = Ok n ->
  forall l tr',
    Booking.extractSlotsFromScheduler page prefs label w tr = (Ok l, tr')
    <-> exists steps,
          runs_in_turn
            (fun i => Booking.slot_of_span page prefs label (Nth (Booking.bookNowSpans page) i))
            w n 0 (tr ++ [Count (Booking.bookNowSpans page)])%list steps tr'
          /\ l = kept steps.
Proof.
  intros Hcount l tr'. unfold Booking.extractSlotsFromScheduler.
  rewrite (bind_ok _ _ _ _ _ _ (call_ok (Count (Booking.bookNowSpans page)) w tr n Hcount)).
  apply (for_range_collect_exact
           (fun i => Booking.slot_of_span page prefs label (Nth (Booking.bookNowSpans page) i))).
Qed.

(** What the iteration on a marker that shows an interval returns. *)
Lemma slot_of_span_decides page prefs label span w t s e t1 r t' :
  Booking.interval_of_span span w t = (Ok (Some (s, e)), t1) ->
  Booking.slot_of_span page prefs label span w t = (Ok r, t') ->
  exists h mins,
    start_hour_of s = Some h
    /\ Booking.durationMinutes s e = Some mins
    /\ ((exists slot, r = Some slot /\ time_24h slot = s /\ minutes slot = Some mins)
        <-> in_window prefs h mins).
Proof.
  intros Hint Hrun.
  destruct (interval_of_span_inv _ _ _ _ _ _ Hint) as (a & g1 & g2 & _ & _ & T1 & T2 & _).
  destruct (interval_times _ _ _ _ T1 T2) as (H1 & M1 & H2 & M2 & Hh & Hd & _).
  exists (Z.of_nat H1), (minute_of_day_24 H2 M2 - minute_of_day_24 H1 M1)%Z.
  split; [exact Hh |]. split; [exact Hd |].
  pose proof (passes_preferences_window prefs s _
                (minute_of_day_24 H2 M2 - minute_of_day_24 H1 M1)%Z Hh) as Hwin.
  rewrite <- Hd in Hwin. split.
  - intros (slot & -> & _). apply Hwin.
    destruct (slot_of_span_inv _ _ _ _ _ _ _ _ Hrun) as (s' & e' & t2 & Hint' & Hp & _).
    rewrite Hint in Hint'. inversion Hint'; subst. exact Hp.
  - intros Hw. apply Hwin in Hw.
    unfold Booking.slot_of_span, bind in Hrun. rewrite Hint in Hrun.
    unfold Booking.slot_of_interval in Hrun. rewrite Hw in Hrun. cbn [negb] in Hrun.
    apply bind_inv_ok in Hrun. destruct Hrun as (d & t2 & _ & Hrun).
    apply bind_inv_ok in Hrun. destruct Hrun as (date & t3 & _ & Hrun).
    apply bind_inv_ok in Hrun. destruct Hrun as (u & t4 & _ & Hrun).
    unfold ret in Hrun. inversion Hrun; subst.
    eexists. split; [reflexivity |]. cbn. rewrite Hd. auto.
Qed.

(** What the iteration on a table row that shows a time returns: the
    row is kept exactly when its hour is in the window and it holds a
    [Book Now] cell; [min_minutes] plays no part. *)
Lemma slot_of_row_decides page prefs courtName today row w t r t' time24h :
  Grid.parseTimeFromText (JS.trim (text_or_empty w t (First (Within row "th, td"))))
  = Some time24h ->
  Grid.slot_of_row page prefs courtName today row w t = (Ok r, t') ->
  exists h,
    start_hour_of time24h = Some h
    /\ ((exists slot,
            r = Some slot /\ time_24h slot = time24h
            /\ minutes slot = Some (nullish (min_minutes prefs) 60%Z))
        <-> ((nullish (start_hour prefs) 0 <= h)%Z
             /\ (h < nullish (end_hour prefs) 24)%Z
             /\ exists k,
                  respond w (t ++ [InnerText (First (Within row "th, td"))])%list
                          (Count (Within row Grid.bookNowSelector)) = Ok (S k))).
Proof.
  intros Hparse Hrun.
  destruct (parseTimeFromText_hour _ _ Hparse) as [h Hh].
  exists (Z.of_nat h). split; [exact Hh |].
  unfold Grid.slot_of_row in Hrun.
  rewrite (bind_ok _ _ _ _ _ _ (or_else_text w t _)) in Hrun.
  rewrite Hparse in Hrun.
  unfold start_hour_of in Hh. rewrite Hh in Hrun. cbn [num_ltb num_geb] in Hrun.
  destruct (Z.ltb_spec (Z.of_nat h) (nullish (start_hour prefs) 0%Z)).
  { cbn [orb] in Hrun. unfold ret in Hrun. inversion Hrun; subst. split.
    - intros (slot & Hs & _). discriminate.
    - intros (Hlo & _). lia. }
  destruct (Z.leb_spec (nullish (end_hour prefs) 24%Z) (Z.of_nat h)).
  { cbn [orb] in Hrun. unfold ret in Hrun. inversion Hrun; subst. split.
    - intros (slot & Hs & _). discriminate.
    - intros (_ & Hhi & _). lia. }
  cbn [orb] in Hrun.
  apply bind_inv_ok in Hrun. destruct Hrun as (k & t2 & Hcount & Hrun).
  apply (call_inv_ok (Count (Within row Grid.bookNowSelector))) in Hcount.
  destruct Hcount as [Hcount ->].
  destruct k as [| k]; cbn [Nat.eqb] in Hrun.
  - unfold ret in Hrun. inversion Hrun; subst. split.
    + intros (slot & Hs & _). discriminate.
    + intros (_ & _ & k & Hk). rewrite Hcount in Hk. discriminate.
  - apply bind_inv_ok in Hrun. destruct Hrun as (u & t3 & _ & Hrun).
    unfold ret in Hrun. inversion Hrun; subst. split.
    + intros _. repeat split; [lia | lia | now exists k].
    + intros _. eexists. repeat split.
Qed.

Lemma find_grid_first page w :
  forall k from tr acc n,
    k < n ->
    (forall i t, from <= i < from + k -> shows_grid w t (Nth (Loc page "table") i) = false) ->
    (forall t, shows_grid w t (Nth (Loc page "table") (from + k)) = true) ->
    for_range n from
      (fun i (found : option Locator) =>
         let t := Nth (Loc page "table") i in
         txt <- or_else (innerText t) EmptyString ;;
         let snippet := JS.slice0 500 txt in
         if Grid.looks_like_grid snippet then ret (Break (Some t)) else ret (Continue found))
      acc w tr
    = (Ok (Some (Nth (Loc page "table") (from + k))),
       (tr ++ table_reads page from (S k))%list).
Proof.
  unfold shows_grid.
  induction k as [| k IH]; intros from tr acc n Hn Hbefore Hat.
  - destruct n as [| n]; [lia |]. rewrite Nat.add_0_r in *.
    cbn [for_range]. unfold bind at 1. cbv zeta.
    rewrite (bind_ok _ _ _ _ _ _ (or_else_text w tr _)). rewrite Hat.
    unfold ret. reflexivity.
  - destruct n as [| n]; [lia |].
    cbn [for_range]. unfold bind at 1. cbv zeta.
    rewrite (bind_ok _ _ _ _ _ _ (or_else_text w tr _)).
    rewrite (Hbefore from tr ltac:(lia)). unfold ret at 1.
    rewrite (IH (S from) _ acc n ltac:(lia)).
    + replace (S from + k) with (from + S k) by lia.
      unfold table_reads. cbn [seq map]. now rewrite <- app_assoc.
    + intros i t Hi. apply Hbefore. lia.
    + intros t. replace (S from + k) with (from + S k) by lia. apply Hat.
Qed.

(** The scan of a court page whose [j]-th table is the first that looks
    like the scheduler is the row of the iterations on its rows. *)
Lemma scanSingleCourtPage_exact w page prefs courtName tr nt j n :
  respond w (tr ++ [WaitForTimeout page 2000])%list (Count (Loc page "table")) = Ok nt ->
  j < nt ->
  (forall i t, i < j -> shows_grid w t (Nth (Loc page "table") i) = false) ->
  (forall t, shows_grid w t (Nth (Loc page "table") j) = true) ->
  respond w (tr ++ [WaitForTimeout page 2000; Count (Loc page "table")]
                ++ table_reads page 0 (S j))%list
          (Count (Within (Nth (Loc page "table") j) "tr")) = Ok n ->
  forall l tr',
    Grid.scanSingleCourtPage page prefs courtName w tr = (Ok l, tr')
    <-> exists steps,
          runs_in_turn
            (fun i =>
               Grid.slot_of_row page prefs courtName
                 (JS.slice0 10
                    (now_iso w (tr ++ [WaitForTimeout page 2000; Count (Loc page "table")]
                                   ++ table_reads page 0 (S j)
                                   ++ [Count (Within (Nth (Loc page "table") j) "tr")])%list))
                 (Nth (Within (Nth (Loc page "table") j) "tr") i))
            w n 0
            (tr ++ [WaitForTimeout page 2000; Count (Loc page "table")]
                ++ table_reads page 0 (S j)
                ++ [Count (Within (Nth (Loc page "table") j) "tr")])%list
            steps tr'
          /\ l = kept steps.
Proof.
  intros Htables Hj Hbefore Hat Hrows l tr'.
  unfold Grid.scanSingleCourtPage.
  assert (Hwait : or_else (waitForTimeout page 2000) tt w tr
                  = (Ok tt, (tr ++ [WaitForTimeout page 2000])%list)).
  { unfold or_else, try_catch, waitForTimeout, call, ret.
    now destruct (respond w tr (WaitForTimeout page 2000)) as [[] | e]. }
  rewrite (bind_ok _ _ _ _ _ _ Hwait).
  rewrite (bind_ok _ _ _ _ _ _ (call_ok (Count (Loc page "table")) w _ nt Htables)).
  rewrite (bind_ok _ _ _ _ _ _
             (find_grid_first page w j 0 _ None nt Hj
                ltac:(intros i t Hi; apply Hbefore; lia) Hat)).
  cbv beta iota zeta.
  assert (Htr : (((tr ++ [WaitForTimeout page 2000]) ++ [Count (Loc page "table")])
                   ++ table_reads page 0 (S j))%list
                = (tr ++ [WaitForTimeout page 2000; Count (Loc page "table")]
                      ++ table_reads page 0 (S j))%list).
  { rewrite <- !app_assoc. reflexivity. }
  rewrite Htr.
  rewrite (bind_ok _ _ _ _ _ _
             (call_ok (Count (Within (Nth (Loc page "table") j) "tr")) w _ n Hrows)).
  unfold bind at 1. unfold todayIso at 1.
  assert (Htr2 : ((tr ++ [WaitForTimeout page 2000; Count (Loc page "table")]
                      ++ table_reads page 0 (S j))
                    ++ [Count (Within (Nth (Loc page "table") j) "tr")])%list
                 = (tr ++ [WaitForTimeout page 2000; Count (Loc page "table")]
                       ++ table_reads page 0 (S j)
                       ++ [Count (Within (Nth (Loc page "table") j) "tr")])%list).
  { rewrite <- !app_assoc. reflexivity. }
  rewrite Htr2.
  apply (for_range_collect_exact
           (fun i =>
              Grid.slot_of_row page prefs courtName
                (JS.slice0 10
                   (now_iso w (tr ++ [WaitForTimeout page 2000; Count (Loc page "table")]
                                  ++ table_reads page 0 (S j)
                                  ++ [Count (Within (Nth (Loc page "table") j) "tr")])%list))
                (Nth (Within (Nth (Loc page "table") j) "tr") i))).
Qed.

(** C5, as amended.  In the revision that reads the scheduler markers
    ([src/unnamed/part_003]) the scan returns, in page order, exactly the
    slots of the markers its iterations keep, and the iteration on a
    marker whose title holds an interval keeps it if and only if its start
    hour lies in the preferred window, the lower bound included and the
    upper excluded, and it lasts at least [min_minutes]; an absent
    preference filters nothing.  In [src/src/ubc.ts] the scan returns
    exactly the slots of the rows its iterations keep, and the iteration
    on a row that shows a time keeps it if and only if its hour is at
    least [start_hour] (0 when absent) and below [end_hour] (24 when
    absent) and the row holds a [Book Now] cell: no duration is read and
    [min_minutes] filters nothing, it is copied into the slot. *)
Theorem preference_filter_is_the_window :
  (forall w page prefs label span tr start24 end24 tr1 d,
      Booking.interval_of_span span w tr = (Ok (Some (start24, end24)), tr1) ->
      respond w tr1 (EvalDataDate span) = Ok d ->
      exists h mins,
        start_hour_of start24 = Some h
        /\ Booking.durationMinutes start24 end24 = Some mins
        /\ ((exists slot tr',
                Booking.slot_of_span page prefs label span w tr = (Ok (Some slot), tr')
                /\ time_24h slot = start24 /\ minutes slot = Some mins)
            <-> in_window prefs h mins)
        /\ (~ in_window prefs h mins ->
            Booking.slot_of_span page prefs label span w tr = (Ok None, tr1)))
  /\ (forall w page prefs label tr l tr',
         Booking.extractSlotsFromScheduler page prefs label w tr = (Ok l, tr') ->
         forall slot, In slot l ->
           exists h mins,
             start_hour_of (time_24h slot) = Some h /\ minutes slot = Some mins
             /\ in_window prefs h mins)
  /\ (forall w page prefs courtName today row tr t tr1 time24h k,
         or_else (innerText (First (Within row "th, td"))) EmptyString w tr = (Ok t, tr1) ->
         Grid.parseTimeFromText (JS.trim t) = Some time24h ->
         respond w tr1 (Count (Within row Grid.bookNowSelector)) = Ok (S k) ->
         exists h,
           start_hour_of time24h = Some h
           /\ ((exists slot tr',
                   Grid.slot_of_row page prefs courtName today row w tr
                   = (Ok (Some slot), tr')
                   /\ time_24h slot = time24h
                   /\ minutes slot = Some (nullish (min_minutes prefs) 60%Z))
               <-> ((nullish (start_hour prefs) 0 <= h)%Z
                    /\ (h < nullish (end_hour prefs) 24)%Z)))
  /\ (forall w page prefs courtName tr l tr',
         Grid.scanSingleCourtPage page prefs courtName w tr = (Ok l, tr') ->
         forall slot, In slot l ->
           exists h, start_hour_of (time_24h slot) = Some h /\ in_hours prefs h)
  /\ (forall w page prefs label tr n,
         respond w tr (Count (Booking.bookNowSpans page)) = Ok n ->
         forall l tr',
           Booking.extractSlotsFromScheduler page prefs label w tr = (Ok l, tr')
           <-> exists steps,
                 runs_in_turn
                   (fun i => Booking.slot_of_span page prefs label
                               (Nth (Booking.bookNowSpans page) i))
                   w n 0 (tr ++ [Count (Booking.bookNowSpans page)])%list steps tr'
                 /\ l = kept steps)
  /\ (forall w page prefs label n tr0 steps tr' i t r start24 end24 t1,
         runs_in_turn
           (fun i => Booking.slot_of_span page prefs label (Nth (Booking.bookNowSpans page) i))
           w n 0 tr0 steps tr' ->
         nth_error steps i = Some (t, r) ->
         Booking.interval_of_span (Nth (Booking.bookNowSpans page) i) w t
         = (Ok (Some (start24, end24)), t1) ->
         exists h mins,
           start_hour_of start24 = Some h
           /\ Booking.durationMinutes start24 end24 = Some mins
           /\ ((exists slot,
                   r = Some slot /\ In slot (kept steps)
                   /\ time_24h slot = start24 /\ minutes slot = Some mins)
               <-> in_window prefs h mins))
  /\ (forall w page prefs courtName tr nt j n,
         respond w (tr ++ [WaitForTimeout page 2000])%list (Count (Loc page "table")) = Ok nt ->
         j < nt ->
         (forall i t, i < j -> shows_grid w t (Nth (Loc page "table") i) = false) ->
         (forall t, shows_grid w t (Nth (Loc page "table") j) = true) ->
         respond w (tr ++ [WaitForTimeout page 2000; Count (Loc page "table")]
                       ++ table_reads page 0 (S j))%list
                 (Count (Within (Nth (Loc page "table") j) "tr")) = Ok n ->
         forall l tr',
           Grid.scanSingleCourtPage page prefs courtName w tr = (Ok l, tr')
           <-> exists steps,
                 runs_in_turn
                   (fun i =>
                      Grid.slot_of_row page prefs courtName
                        (JS.slice0 10
                           (now_iso w
                              (tr ++ [WaitForTimeout page 2000; Count (Loc page "table")]
                                  ++ table_reads page 0 (S j)
                                  ++ [Count (Within (Nth (Loc page "table") j) "tr")])%list))
                        (Nth (Within (Nth (Loc page "table") j) "tr") i))
                   w n 0
                   (tr ++ [WaitForTimeout page 2000; Count (Loc page "table")]
                       ++ table_reads page 0 (S j)
                       ++ [Count (Within (Nth (Loc page "table") j) "tr")])%list
                   steps tr'
                 /\ l = kept steps)
  /\ (forall w page prefs courtName today rows n tr0 steps tr' i t r time24h,
         runs_in_turn
           (fun i => Grid.slot_of_row page prefs courtName today (Nth rows i))
           w n 0 tr0 steps tr' ->
         nth_error steps i = Some (t, r) ->
         Grid.parseTimeFromText
           (JS.trim (text_or_empty w t (First (Within (Nth rows i) "th, td"))))
         = Some time24h ->
         exists h,
           start_hour_of time24h = Some h
           /\ ((exists slot,
                   r = Some slot /\ In slot (kept steps)
                   /\ time_24h slot = time24h
                   /\ minutes slot = Some (nullish (min_minutes prefs) 60%Z))
               <-> ((nullish (start_hour prefs) 0 <= h)%Z
                    /\ (h < nullish (end_hour prefs) 24)%Z
                    /\ exists k,
                         respond w
                           (t ++ [InnerText (First (Within (Nth rows i) "th, td"))])%list
                           (Count (Within (Nth rows i) Grid.bookNowSelector)) = Ok (S k)))).
Proof.
  split; [| split; [| split; [| split; [| split; [| split; [| split]]]]]].
  - intros w page prefs label span tr s e tr1 d Hint Hdate.
    destruct (interval_of_span_inv _ _ _ _ _ _ Hint) as (a & g1 & g2 & _ & _ & T1 & T2 & _).
    destruct (interval_times _ _ _ _ T1 T2) as (H1 & M1 & H2 & M2 & Hh & Hd & _).
    exists (Z.of_nat H1), (minute_of_day_24 H2 M2 - minute_of_day_24 H1 M1)%Z.
    split; [exact Hh |]. split; [exact Hd |].
    pose proof (passes_preferences_window prefs s _
                  (minute_of_day_24 H2 M2 - minute_of_day_24 H1 M1)%Z Hh) as Hwin.
    rewrite <- Hd in Hwin. split; [split |].
    + intros (slot & tr' & Hrun & _). apply Hwin.
      destruct (slot_of_span_inv _ _ _ _ _ _ _ _ Hrun) as (s' & e' & t' & Hint' & Hp & _).
      rewrite Hint in Hint'. inversion Hint'; subst. exact Hp.
    + intros Hw. apply Hwin in Hw.
      destruct (slot_of_interval_kept page prefs label span s e w tr1 d Hw Hdate)
        as (slot & tr' & Hrun & Ht & Hm).
      exists slot, tr'. unfold Booking.slot_of_span, bind. rewrite Hint.
      rewrite <- Hd. auto.
    + intros Hno. unfold Booking.slot_of_span, bind. rewrite Hint.
      apply slot_of_interval_dropped.
      destruct (Booking.passes_preferences prefs s (Booking.durationMinutes s e)) eqn:E;
        [| reflexivity].
      exfalso. apply Hno. now apply Hwin.
  - intros w page prefs label tr l tr' Hrun slot Hin.
    unfold Booking.extractSlotsFromScheduler in Hrun.
    apply bind_inv_ok in Hrun. destruct Hrun as (cnt & t1 & _ & Hloop).
    destruct (for_range_collect _ _ _ _ _ _ _ _ Hloop slot Hin) as [[] | (i & ta & tb & Hi)].
    destruct (slot_of_span_inv _ _ _ _ _ _ _ _ Hi) as (s & e & t' & Hint & Hp & Ht & Hm).
    destruct (interval_of_span_inv _ _ _ _ _ _ Hint) as (a & g1 & g2 & _ & _ & T1 & T2 & _).
    destruct (interval_times _ _ _ _ T1 T2) as (H1 & M1 & H2 & M2 & Hh & Hd & _).
    exists (Z.of_nat H1), (minute_of_day_24 H2 M2 - minute_of_day_24 H1 M1)%Z.
    rewrite Ht, Hm. split; [exact Hh |]. split; [exact Hd |].
    apply (passes_preferences_window prefs s _ _ Hh). now rewrite <- Hd.
  - intros w page prefs courtName today row tr t tr1 s k Htext Hparse Hcount.
    destruct (parseTimeFromText_hour _ _ Hparse) as [h Hh].
    exists (Z.of_nat h). split; [exact Hh |]. split.
    + intros (slot & tr' & Hrun & Ht & _).
      destruct (slot_of_row_inv _ _ _ _ _ _ _ _ _ Hrun) as (h' & Hh' & Hlo & Hhi & _).
      rewrite Ht, Hh in Hh'. inversion Hh'; subst. auto.
    + intros [Hlo Hhi]. unfold Grid.slot_of_row, bind. rewrite Htext, Hparse.
      unfold start_hour_of in Hh. rewrite Hh. cbn [num_ltb num_geb].
      destruct (Z.ltb_spec (Z.of_nat h) (nullish (start_hour prefs) 0%Z)); [lia |].
      destruct (Z.leb_spec (nullish (end_hour prefs) 24%Z) (Z.of_nat h)); [lia |].
      cbn [orb]. unfold count, call. rewrite Hcount. cbn [Nat.eqb].
      unfold url, ret. eexists. eexists. repeat split; reflexivity.
  - intros w page prefs courtName tr l tr' Hrun slot Hin.
    unfold Grid.scanSingleCourtPage in Hrun.
    apply bind_inv_ok in Hrun. destruct Hrun as (u0 & t0 & _ & Hrun).
    apply bind_inv_ok in Hrun. destruct Hrun as (tc & t1 & _ & Hrun).
    apply bind_inv_ok in Hrun. destruct Hrun as (grid & t2 & _ & Hrun).
    destruct grid as [g |].
    + apply bind_inv_ok in Hrun. destruct Hrun as (rc & t3 & _ & Hrun).
      apply bind_inv_ok in Hrun. destruct Hrun as (today & t4 & _ & Hloop).
      destruct (for_range_collect _ _ _ _ _ _ _ _ Hloop slot Hin)
        as [[] | (i & ta & tb & Hi)].
      destruct (slot_of_row_inv _ _ _ _ _ _ _ _ _ Hi) as (h & Hh & Hlo & Hhi & _).
      exists h. split; [exact Hh |].
      assert (H0 : (0 <= h)%Z).
      { unfold start_hour_of, num_of_nat in Hh.
        destruct (JS.parseInt _); inversion Hh; lia. }
      exact (proj1 (proj1 (nullish_bounds prefs h H0) (conj Hlo Hhi))).
    + apply bind_inv_ok in Hrun. destruct Hrun as (u1 & t3 & _ & Hrun).
      unfold ret in Hrun. inversion Hrun; subst. destruct Hin.
  - intros w page prefs label tr n Hcount l tr'.
    now apply extractSlotsFromScheduler_exact.
  - intros w page prefs label n tr0 steps tr' i t r s e t1 Hrun Hnth Hint.
    destruct (runs_in_turn_nth _ _ _ _ _ _ _ _ _ _ Hrun Hnth) as (_ & t' & Hstep).
    cbn [Nat.add] in Hstep.
    destruct (slot_of_span_decides _ _ _ _ _ _ _ _ _ _ _ Hint Hstep)
      as (h & mins & Hh & Hd & Hiff).
    exists h, mins. split; [exact Hh |]. split; [exact Hd |]. split.
    + intros (slot & Hr & _ & Ht & Hm). apply Hiff. now exists slot.
    + intros Hw. apply Hiff in Hw. destruct Hw as (slot & -> & Ht & Hm).
      exists slot. repeat split; auto. exact (kept_nth _ _ _ _ Hnth).
  - intros w page prefs courtName tr nt j n H1 H2 H3 H4 H5 l tr'.
    now apply scanSingleCourtPage_exact with (nt := nt).
  - intros w page prefs courtName today rows n tr0 steps tr' i t r time24h Hrun Hnth Hparse.
    destruct (runs_in_turn_nth _ _ _ _ _ _ _ _ _ _ Hrun Hnth) as (_ & t' & Hstep).
    cbn [Nat.add] in Hstep.
    destruct (slot_of_row_decides _ _ _ _ _ _ _ _ _ _ Hparse Hstep) as (h & Hh & Hiff).
    exists h. split; [exact Hh |]. split.
    + intros (slot & Hr & _ & Ht & Hm). apply Hiff. now exists slot.
    + intros Hw. apply Hiff in Hw. destruct Hw as (slot & -> & Ht & Hm).
      exists slot. repeat split; auto. exact (kept_nth _ _ _ _ Hnth).
Qed.

Lemma preference_filter_is_the_window_witness :
  (exists slot tr',
      Booking.slot_of_span 0 evening_prefs "Court 01" (Nth (Booking.bookNowSpans 0) 1)
        (world_of (marker_page ["3:00 PM-4:00 PM"; "7:00 PM-8:00 PM"])) []
      = (Ok (Some slot), tr')
      /\ time_24h slot = "19:00" /\ minutes slot = Some 60%Z)
  /\ (exists tr',
         Booking.slot_of_span 0 evening_prefs "Court 01" (Nth (Booking.bookNowSpans 0) 0)
           (world_of (marker_page ["3:00 PM-4:00 PM"; "7:00 PM-8:00 PM"])) []
         = (Ok None, tr'))
  /\ (exists l tr' steps,
         Booking.extractSlotsFromScheduler 0 evening_prefs "Court 01"
           (world_of (marker_page ["3:00 PM-4:00 PM"; "7:00 PM-8:00 PM"])) [] = (Ok l, tr')
         /\ runs_in_turn
              (fun i => Booking.slot_of_span 0 evening_prefs "Court 01"
                          (Nth (Booking.bookNowSpans 0) i))
              (world_of (marker_page ["3:00 PM-4:00 PM"; "7:00 PM-8:00 PM"]))
              2 0 [Count (Booking.bookNowSpans 0)] steps tr'
         /\ l = kept steps
         /\ map time_24h l = ["19:00"])
  /\ (exists l tr' steps,
         Grid.scanSingleCourtPage 0 evening_prefs "Court 01"
           (world_of (grid_page ["8:00 AM"; "7:00 PM"])) [] = (Ok l, tr')
         /\ l = kept steps
         /\ map time_24h l = ["19:00"]).
Proof.
  pose (w := world_of (marker_page ["3:00 PM-4:00 PM"; "7:00 PM-8:00 PM"])).
  pose (span := fun i => Nth (Booking.bookNowSpans 0) i).
  pose (tr1 := fun i => [IsVisible (span i); InnerText (span i); EvalSlotAvailable (span i);
                         GetAttribute (span i) "title"]).
  assert (Hlate : Booking.interval_of_span (span 1) w []
                  = (Ok (Some ("19:00", "20:00")), tr1 1)) by (vm_compute; reflexivity).
  assert (Hearly : Booking.interval_of_span (span 0) w []
                   = (Ok (Some ("15:00", "16:00")), tr1 0)) by (vm_compute; reflexivity).
  assert (Hdate : forall i, respond w (tr1 i) (EvalDataDate (span i)) = Ok EmptyString)
    by reflexivity.
  split; [| split; [| split]].
  - destruct (proj1 preference_filter_is_the_window w 0 evening_prefs "Court 01"
                (span 1) [] "19:00" "20:00" (tr1 1) EmptyString Hlate (Hdate 1))
      as (h & mins & Hh & Hm & [_ Hkeep] & _).
    vm_compute in Hh, Hm. inversion Hh; inversion Hm; subst.
    apply Hkeep. unfold in_window. cbn.
    repeat split; intros x Hx; inversion Hx; lia.
  - destruct (proj1 preference_filter_is_the_window w 0 evening_prefs "Court 01"
                (span 0) [] "15:00" "16:00" (tr1 0) EmptyString Hearly (Hdate 0))
      as (h & mins & Hh & Hm & _ & Hdrop).
    vm_compute in Hh. inversion Hh; subst.
    exists (tr1 0). apply Hdrop. intros [Hlo _].
    specialize (Hlo 18%Z eq_refl). lia.
  - destruct (Booking.extractSlotsFromScheduler 0 evening_prefs "Court 01" w [])
      as [[l | e] tr'] eqn:Hrun; [| vm_compute in Hrun; discriminate].
    destruct (proj1 (proj1 (proj2 (proj2 (proj2 (proj2 preference_filter_is_the_window))))
                       w 0 evening_prefs "Court 01" [] 2 eq_refl l tr') Hrun)
      as (steps & Hsteps & Hl).
    exists l, tr', steps. split; [first [exact Hrun | reflexivity] |]. split; [exact Hsteps |].
    split; [exact Hl |].
    vm_compute in Hrun. inversion Hrun. reflexivity.
  - destruct (Grid.scanSingleCourtPage 0 evening_prefs "Court 01"
                (world_of (grid_page ["8:00 AM"; "7:00 PM"])) [])
      as [[l | e] tr'] eqn:Hrun; [| vm_compute in Hrun; discriminate].
    destruct (proj1 (proj1 (proj2 (proj2 (proj2 (proj2 (proj2 (proj2
                       preference_filter_is_the_window))))))
                       (world_of (grid_page ["8:00 AM"; "7:00 PM"]))
                       0 evening_prefs "Court 01" [] 1 0 2
                       eq_refl (Nat.lt_0_1)
                       (fun i t (H : i < 0) => match Nat.nlt_0_r i H with end)
                       (fun t => eq_refl) eq_refl l tr') Hrun)
      as (steps & Hsteps & Hl).
    exists l, tr', steps. split; [first [exact Hrun | reflexivity] |]. split; [exact Hl |].
    vm_compute in Hrun. inversion Hrun. reflexivity.
Defined.

(** C5, as stated, fails on [src/src/ubc.ts]: with two hours asked for,
    the rows [8:00 AM] and [9:00 AM], one hour apart, are both kept and
    each is reported with 120 minutes.  The revision that reads the
    markers drops the one-hour markers of the same two times. *)
Lemma grid_min_minutes_filters_nothing :
  (exists l tr',
      Grid.scanSingleCourtPage 0 two_hour_prefs "Court 01"
        (world_of (grid_page ["8:00 AM"; "9:00 AM"])) [] = (Ok l, tr')
      /\ map (fun slot => (time_24h slot, minutes slot)) l
         = [("08:00", Some 120%Z); ("09:00", Some 120%Z)])
  /\ (exists tr',
         Booking.extractSlotsFromScheduler 0 two_hour_prefs "Court 01"
           (world_of (marker_page ["8:00 AM-9:00 AM"; "9:00 AM-10:00 AM"])) []
         = (Ok [], tr')).
Proof.
  split.
  - eexists. eexists. split; [vm_compute; reflexivity | reflexivity].
  - eexists. vm_compute. reflexivity.
Qed.

(** ** The minutes of a slot *)

Lemma clock24_parts h m :
  map JS.Number (JS.split ":" (clock24 h m)) = [Some h; Some m].
Proof.
  unfold clock24.
  destruct (toString_digits m) as (Hall & Hnz & Hval).
  destruct (padStart2_digits _ Hall Hnz) as (Hall' & Hnz' & Hval').
  destruct (clock_parts h _ Hall' Hnz') as [Hparts _].
  rewrite Hparts, Hval', Hval. reflexivity.
Qed.

(** C2, as stated, fails.  A marker titled [11:00 PM-12:00 AM] yields a
    slot of -1380 minutes; and in [src/src/ubc.ts] the row [8:00 AM] of one
    and the same table yields a slot of 60 minutes without preferences and
    of 90 minutes when [min_minutes] is 90. *)
Lemma scanner_minutes_not_the_range :
  (exists slot tr',
      Booking.extractSlotsFromScheduler 0 no_prefs "Court 01"
        (world_of (marker_page ["11:00 PM-12:00 AM"])) [] = (Ok [slot], tr')
      /\ time_24h slot = "23:00"
      /\ minutes slot = Some (-1380)%Z
      /\ ~ (exists d, minutes slot = Some d /\ (0 < d)%Z))
  /\ (exists s1 s2 tr1 tr2,
         Grid.scanSingleCourtPage 0 no_prefs "Court 01"
           (world_of (grid_page ["8:00 AM"])) [] = (Ok [s1], tr1)
         /\ Grid.scanSingleCourtPage 0 long_prefs "Court 01"
              (world_of (grid_page ["8:00 AM"])) [] = (Ok [s2], tr2)
         /\ time_24h s1 = "08:00" /\ time_24h s2 = "08:00"
         /\ minutes s1 = Some 60%Z /\ minutes s2 = Some 90%Z).
Proof.
  split.
  - eexists. eexists. split; [vm_compute; reflexivity |].
    cbn. repeat split. intros (d & Hd & Hpos). inversion Hd; subst. lia.
  - eexists. eexists. eexists. eexists.
    split; [vm_compute; reflexivity |]. split; [vm_compute; reflexivity |].
    cbn. auto.
Qed.

(** C2, amended.  In the revision that reads the scheduler markers, the
    minutes of every slot of a scan are [durationMinutes] of the interval in
    the title of its marker: the minute of the day of the end less that of
    the start, positive when the end is later in the day than the start.
    In [src/src/ubc.ts], where no interval is read, the minutes of every
    slot are [min_minutes], 60 when absent.  For two 24-hour times, the
    first earlier in the day than the second, [durationMinutes] is the
    positive number of minutes between them. *)
Theorem scanner_minutes :
  (forall w page prefs label tr l tr',
      Booking.extractSlotsFromScheduler page prefs label w tr = (Ok l, tr') ->
      forall slot, In slot l ->
        exists i tri a g1 g2 h1 m1 pm1 h2 m2 pm2,
          respond w tri (GetAttribute (Nth (Booking.bookNowSpans page) i) "title") = Ok a
          /\ JS.range_search (nullish a EmptyString) = Some (g1, g2)
          /\ read_label g1 = Some (h1, m1, pm1)
          /\ read_label g2 = Some (h2, m2, pm2)
          /\ (1 <= h1 <= 12 -> 1 <= h2 <= 12 ->
              minutes slot
              = Some (minute_of_day_12 h2 m2 pm2 - minute_of_day_12 h1 m1 pm1)%Z
              /\ ((minute_of_day_12 h1 m1 pm1 < minute_of_day_12 h2 m2 pm2)%Z ->
                  exists d, minutes slot = Some d /\ (0 < d)%Z)))
  /\ (forall w page prefs courtName tr l tr',
         Grid.scanSingleCourtPage page prefs courtName w tr = (Ok l, tr') ->
         forall slot, In slot l ->
           minutes slot = Some (nullish (min_minutes prefs) 60%Z))
  /\ (forall sh sm eh em,
         (minute_of_day_24 sh sm < minute_of_day_24 eh em)%Z ->
         exists d,
           Booking.durationMinutes (clock24 sh sm) (clock24 eh em) = Some d
           /\ d = (minute_of_day_24 eh em - minute_of_day_24 sh sm)%Z
           /\ (0 < d)%Z).
Proof.
  split; [| split].
  - intros w page prefs label tr l tr' Hrun slot Hin.
    unfold Booking.extractSlotsFromScheduler in Hrun.
    apply bind_inv_ok in Hrun. destruct Hrun as (cnt & t1 & _ & Hloop).
    destruct (for_range_collect _ _ _ _ _ _ _ _ Hloop slot Hin) as [[] | (i & ta & tb & Hi)].
    destruct (slot_of_span_inv _ _ _ _ _ _ _ _ Hi) as (s & e & t' & Hint & _ & _ & Hm).
    destruct (interval_of_span_inv _ _ _ _ _ _ Hint)
      as (a & g1 & g2 & Hattr & Hrange & T1 & T2 & _).
    destruct (to24h_parts _ _ T1) as (H1 & M1 & h1 & m1 & pm1 & R1 & P1 & _ & E1 & V1).
    destruct (to24h_parts _ _ T2) as (H2 & M2 & h2 & m2 & pm2 & R2 & P2 & _ & E2 & V2).
    exists i, (ta ++ [IsVisible (Nth (Booking.bookNowSpans page) i);
                      InnerText (Nth (Booking.bookNowSpans page) i);
                      EvalSlotAvailable (Nth (Booking.bookNowSpans page) i)])%list.
    exists a, g1, g2, h1, m1, pm1, h2, m2, pm2.
    repeat (split; [assumption |]).
    intros Hh1 Hh2.
    rewrite Hm, (durationMinutes_parts _ _ _ _ _ _ P1 P2).
    unfold minute_of_day_12. rewrite <- (V1 Hh1), <- (V2 Hh2), E1, E2.
    split; [reflexivity |]. intros Hlt. eexists. split; [reflexivity | lia].
  - intros w page prefs courtName tr l tr' Hrun slot Hin.
    unfold Grid.scanSingleCourtPage in Hrun.
    apply bind_inv_ok in Hrun. destruct Hrun as (u0 & t0 & _ & Hrun).
    apply bind_inv_ok in Hrun. destruct Hrun as (tc & t1 & _ & Hrun).
    apply bind_inv_ok in Hrun. destruct Hrun as (grid & t2 & _ & Hrun).
    destruct grid as [g |].
    + apply bind_inv_ok in Hrun. destruct Hrun as (rc & t3 & _ & Hrun).
      apply bind_inv_ok in Hrun. destruct Hrun as (today & t4 & _ & Hloop).
      destruct (for_range_collect _ _ _ _ _ _ _ _ Hloop slot Hin)
        as [[] | (i & ta & tb & Hi)].
      now destruct (slot_of_row_inv _ _ _ _ _ _ _ _ _ Hi) as (h & _ & _ & _ & Hm).
    + apply bind_inv_ok in Hrun. destruct Hrun as (u1 & t3 & _ & Hrun).
      unfold ret in Hrun. inversion Hrun; subst. destruct Hin.
  - intros sh sm eh em Hlt. eexists. split; [| split; [reflexivity | lia]].
    apply durationMinutes_parts; apply clock24_parts.
Qed.

Lemma scanner_minutes_witness :
  (exists slot tr',
      Booking.extractSlotsFromScheduler 0 no_prefs "Court 01"
        (world_of (marker_page ["7:00 PM-8:30 PM"])) [] = (Ok [slot], tr')
      /\ minutes slot = Some 90%Z)
  /\ Booking.durationMinutes (clock24 19 0) (clock24 20 30) = Some 90%Z.
Proof.
  pose (w := world_of (marker_page ["7:00 PM-8:30 PM"])).
  split.
  - assert (Hrun : exists slot tr',
               Booking.extractSlotsFromScheduler 0 no_prefs "Court 01" w [] = (Ok [slot], tr'))
      by (vm_compute; eauto).
    destruct Hrun as (slot & tr' & Hrun). exists slot, tr'. split; [exact Hrun |].
    destruct (proj1 scanner_minutes w 0 no_prefs "Court 01" [] [slot] tr' Hrun slot
                (or_introl eq_refl))
      as (i & tri & a & g1 & g2 & h1 & m1 & pm1 & h2 & m2 & pm2
          & Hattr & Hrange & R1 & R2 & Hmin).
    vm_compute in Hattr.
    destruct i as [| i].
    + inversion Hattr; subst a. vm_compute in Hrange. inversion Hrange; subst g1 g2.
      vm_compute in R1, R2. inversion R1; inversion R2; subst.
      exact (proj1 (Hmin ltac:(lia) ltac:(lia))).
    + destruct i; inversion Hattr; subst a; vm_compute in Hrange; discriminate.
  - destruct (proj2 (proj2 scanner_minutes) 19 0 20 30 ltac:(vm_compute; reflexivity))
      as (d & Hd & -> & _).
    exact Hd.
Defined.

(** ** The HTTP layer *)

Lemma substring_all s : String.substring 0 (String.length s) s = s.
Proof. induction s as [| c s IH]; cbn; [reflexivity | now rewrite IH]. Qed.

Lemma slice_from_app p s : slice_from (String.length p) (p ++ s) = s.
Proof.
  unfold slice_from. induction p as [| c p IH].
  - cbn [String.length append]. rewrite Nat.sub_0_r. apply substring_all.
  - cbn [String.length append String.substring Nat.sub]. exact IH.
Qed.

Lemma prefix_split p s : String.prefix p s = true -> s = p ++ slice_from (String.length p) s.
Proof.
  revert s. induction p as [| c p IH]; intros s H.
  - unfold slice_from. cbn. rewrite Nat.sub_0_r. now rewrite substring_all.
  - destruct s as [| d s]; [discriminate |]. cbn [String.prefix] in H.
    destruct (ascii_dec c d) as [-> | Hne]; [| discriminate].
    cbn [append]. f_equal. rewrite (IH s H) at 1. f_equal.
Qed.

Lemma prefix_app p s : String.prefix p (p ++ s) = true.
Proof.
  induction p as [| c p IH]; cbn [append String.prefix]; [now destruct s |].
  destruct (ascii_dec c c) as [_ | Hne]; [exact IH | now elim Hne].
Qed.

(** The token the middleware reads: what follows [Bearer ], empty when
    the header is missing or starts otherwise. *)
Lemma bearer_token_spec authorization token :
  token <> EmptyString ->
  (Server.bearer_token authorization = token <-> authorization = Some ("Bearer " ++ token)).
Proof.
  intros Hne. unfold Server.bearer_token, JS.startsWith. split.
  - destruct authorization as [h |]; cbn [nullish].
    + destruct (String.prefix "Bearer " h) eqn:E.
      * intros <-. f_equal. exact (prefix_split "Bearer " h E).
      * intros <-. now elim Hne.
    + cbn. intros <-. now elim Hne.
  - intros ->. cbn [nullish].
    rewrite (prefix_app "Bearer " token).
    exact (slice_from_app "Bearer " token).
Qed.

Lemma nonempty_iff s : nonempty s = true <-> s <> EmptyString.
Proof.
  destruct s; cbn; split; intros H; try discriminate; try reflexivity.
  now elim H.
Qed.

Lemma requireBearer_test w authorization :
  negb (nonempty (Server.bearer_token authorization))
  || Server.differs (Server.bearer_token authorization) (process_env w "BOOKER_GPT_TOKEN")
  = false
  <-> bears_token w authorization.
Proof.
  rewrite orb_false_iff, negb_false_iff, nonempty_iff. unfold bears_token. split.
  - intros [Hne Hsame]. exists (Server.bearer_token authorization).
    split; [exact Hne |]. split.
    + now apply (bearer_token_spec authorization _ Hne).
    + unfold Server.differs in Hsame.
      destruct (process_env w "BOOKER_GPT_TOKEN") as [e |]; [| discriminate].
      apply negb_false_iff, String.eqb_eq in Hsame. now subst.
  - intros (token & Hne & Hauth & Henv).
    apply (bearer_token_spec authorization token Hne) in Hauth.
    rewrite Hauth, Henv. split; [exact Hne |].
    unfold Server.differs. now rewrite String.eqb_refl.
Qed.

Lemma requireBearer_run w tr authorization (next : M Response) :
  (bears_token w authorization ->
   Server.requireBearer authorization next w tr = next w tr)
  /\ (~ bears_token w authorization ->
      Server.requireBearer authorization next w tr = (Ok unauthorized, tr)).
Proof.
  unfold Server.requireBearer, bind, env.
  destruct (negb (nonempty (Server.bearer_token authorization))
            || Server.differs (Server.bearer_token authorization)
                 (process_env w "BOOKER_GPT_TOKEN")) eqn:E.
  - split; [| reflexivity]. intros H. apply requireBearer_test in H. congruence.
  - split; [reflexivity |]. intros H. elim H. now apply requireBearer_test.
Qed.

(** The middleware lets a request through exactly when its
    [Authorization] header is [Bearer ] followed by the non-empty value of
    [BOOKER_GPT_TOKEN]; any other request is answered 401
    [{ error: "Unauthorized" }] and the route handler is not run. *)
Theorem requireBearer_accepts_iff :
  forall (w : World) (tr : Trace) (authorization : option string) (next : M Response),
    (bears_token w authorization ->
     Server.requireBearer authorization next w tr = next w tr)
    /\ (~ bears_token w authorization ->
        Server.requireBearer authorization next w tr = (Ok unauthorized, tr)).
Proof. intros w tr authorization next. apply requireBearer_run. Qed.

Lemma requireBearer_accepts_iff_witness :
  Server.requireBearer (Some "Bearer s3cret-token-42") (ret unauthorized)
    (token_world empty_list_page) [] = (Ok unauthorized, [])
  /\ Server.requireBearer (Some "bearer s3cret-token-42")
       (ret {| status := 200; body := [] |}) (token_world empty_list_page) []
     = (Ok unauthorized, []).
Proof.
  split.
  - apply (proj1 (requireBearer_accepts_iff (token_world empty_list_page) []
                    (Some "Bearer s3cret-token-42") (ret unauthorized))).
    exists "s3cret-token-42". repeat split. discriminate.
  - apply (proj2 (requireBearer_accepts_iff (token_world empty_list_page) []
                    (Some "bearer s3cret-token-42") (ret {| status := 200; body := [] |}))).
    intros (token & _ & Hauth & _). discriminate.
Defined.

Lemma grid_checkAvailability_result prefs w tr l tr' :
  Grid.checkAvailability prefs w tr = (Ok l, tr') ->
  l <> [] /\ exists tr1, tr' = (tr1 ++ [Close])%list.
Proof.
  intros H. unfold Grid.checkAvailability in H.
  apply bind_inv_ok in H. destruct H as (p0 & tr0 & _ & H).
  apply try_finally_inv_ok in H. destruct H as (tr1 & H & Hclose).
  split.
  - apply bind_inv_ok in H. destruct H as (p1 & tr2 & _ & H).
    apply bind_inv_ok in H. destruct H as (found & tr3 & Hfound & H).
    destruct found as [slots |].
    + unfold ret in H. inversion H; subst.
      unfold Grid.scan_or_nothing, try_catch in Hfound.
      destruct (bind (Grid.scanCourtsAndSlots p1 prefs) _ w tr2) as [[o | e] t] eqn:E;
        [| unfold ret in Hfound; discriminate].
      inversion Hfound; subst. apply bind_inv_ok in E. destruct E as (s & t' & _ & E).
      destruct (0 <? List.length s) eqn:Hlen; unfold ret in E; inversion E; subst.
      destruct l; [discriminate | discriminate].
    + unfold Grid.placeholder, bind, todayIso, Grid.BASE_URL, read, ret in H.
      inversion H. discriminate.
  - exists tr1. unfold call in Hclose. now inversion Hclose.
Qed.

(** [POST /check_now] of [src/src/index.ts] in front of
    [checkAvailability] of [src/src/ubc.ts].  A request without the
    token is answered 401 and a body the schema rejects 400, in both cases
    before any browser is launched; an answer 200 carries at least one
    slot and is sent after the browser has been closed; and when
    [checkAvailability] rejects, so does the handler: no answer is sent. *)
Theorem check_now_opens_the_browser_last :
  forall (w : World) (tr : Trace) (authorization : option string)
         (parsed : Result Preferences),
    (~ bears_token w authorization ->
     Server.check_now Grid.checkAvailability authorization parsed w tr
     = (Ok unauthorized, tr))
    /\ (forall e, bears_token w authorization -> parsed = Err e ->
        Server.check_now Grid.checkAvailability authorization parsed w tr
        = (Ok {| status := 400; body := [("error", JString (message e))] |}, tr))
    /\ (forall resp tr',
          Server.check_now Grid.checkAvailability authorization parsed w tr = (Ok resp, tr') ->
          status resp = 200 ->
          exists slots tr1,
            body resp = [("slots", JSlots slots)] /\ slots <> []
            /\ tr' = (tr1 ++ [Close])%list)
    /\ (forall prefs e tr',
          bears_token w authorization -> parsed = Ok prefs ->
          Grid.checkAvailability prefs w tr = (Err e, tr') ->
          Server.check_now Grid.checkAvailability authorization parsed w tr = (Err e, tr')).
Proof.
  intros w tr authorization parsed. unfold Server.check_now.
  destruct (requireBearer_test w authorization) as [Hyes Hno].
  split; [| split; [| split]].
  - intros H. now apply requireBearer_run.
  - intros e Hb ->. now rewrite (proj1 (requireBearer_run w tr authorization _) Hb).
  - intros resp tr' H Hs.
    unfold Server.requireBearer, bind at 1, env in H.
    destruct (negb (nonempty (Server.bearer_token authorization))
              || Server.differs (Server.bearer_token authorization)
                   (process_env w "BOOKER_GPT_TOKEN")).
    + unfold ret in H. inversion H; subst. discriminate.
    + destruct parsed as [prefs | e].
      * apply bind_inv_ok in H. destruct H as (slots & t1 & Hrun & H).
        unfold ret in H. inversion H; subst.
        destruct (grid_checkAvailability_result _ _ _ _ _ Hrun) as (Hne & tr1 & ->).
        exists slots, tr1. auto.
      * unfold ret in H. inversion H; subst. discriminate.
  - intros prefs e tr' Hb -> Hrun.
    rewrite (proj1 (requireBearer_run w tr authorization _) Hb).
    unfold bind. now rewrite Hrun.
Qed.

Lemma check_now_opens_the_browser_last_witness :
  Server.check_now Grid.checkAvailability (Some "Bearer guess") (Ok no_prefs)
    (token_world empty_list_page) [] = (Ok unauthorized, []).
Proof.
  apply (proj1 (check_now_opens_the_browser_last (token_world empty_list_page) []
                  (Some "Bearer guess") (Ok no_prefs))).
  intros (token & _ & Hauth & Henv). inversion Hauth; subst. discriminate.
Defined.

(** [POST /check_now] of the later revisions always answers, whatever
    [checkAvailability] does: 200 with the slots it returned, 400
    [Invalid request] when the body is rejected and also when
    [checkAvailability] itself rejects, 401 without the token. *)
Theorem check_now_guarded_always_answers :
  forall (printed : string) (checkAvailability : Preferences -> M (list Slot))
         (w : World) (tr : Trace) (authorization : option string)
         (parsed : Result Preferences),
    exists resp tr',
      Server.check_now_guarded printed checkAvailability authorization parsed w tr
      = (Ok resp, tr')
      /\ (status resp = 200 \/ status resp = 400 \/ status resp = 401)
      /\ (status resp = 200 ->
          exists prefs slots,
            parsed = Ok prefs /\ checkAvailability prefs w tr = (Ok slots, tr')
            /\ body resp = [("slots", JSlots slots)])
      /\ (forall prefs e tr1,
            bears_token w authorization -> parsed = Ok prefs ->
            checkAvailability prefs w tr = (Err e, tr1) ->
            tr' = tr1
            /\ resp = {| status := 400;
                         body := [("error", JString "Invalid request");
                                  ("detail", JString (Server.detail_of printed e))] |}).
Proof.
  intros printed checkAvailability w tr authorization parsed.
  unfold Server.check_now_guarded, Server.requireBearer, bind at 1, env.
  destruct (negb (nonempty (Server.bearer_token authorization))
            || Server.differs (Server.bearer_token authorization)
                 (process_env w "BOOKER_GPT_TOKEN")) eqn:E.
  - eexists. eexists. split; [reflexivity |]. cbn. split; [auto |].
    split; [discriminate |].
    intros prefs e tr1 Hb. apply requireBearer_test in Hb. congruence.
  - unfold try_catch, bind, lift, ret.
    destruct parsed as [prefs | e].
    + destruct (checkAvailability prefs w tr) as [[slots | e] t1] eqn:Hrun.
      * eexists. eexists. split; [reflexivity |]. cbn. split; [auto |].
        split; [intros _; exists prefs, slots; auto |].
        intros p e t Hb Hp. inversion Hp; subst. congruence.
      * eexists. eexists. split; [reflexivity |]. cbn. split; [auto |].
        split; [discriminate |].
        intros p e' t Hb Hp Hrun'. inversion Hp; subst.
        rewrite Hrun in Hrun'. inversion Hrun'; subst. auto.
    + eexists. eexists. split; [reflexivity |]. cbn. split; [auto |].
      split; [discriminate |]. intros p e' t Hb Hp. discriminate.
Qed.

(** ** Durations *)

(** [durationMinutes] is the signed difference of the two times in
    minutes: zero for equal times, not positive when the end is not later
    in the day than the start (an interval across midnight is not
    wrapped), and additive along a chain of times. *)
Theorem durationMinutes_signed_difference :
  forall ah am bh bm chh cm : nat,
    Booking.durationMinutes (clock24 ah am) (clock24 bh bm)
    = Some (minute_of_day_24 bh bm - minute_of_day_24 ah am)%Z
    /\ Booking.durationMinutes (clock24 ah am) (clock24 ah am) = Some 0%Z
    /\ ((minute_of_day_24 bh bm <= minute_of_day_24 ah am)%Z ->
        exists d, Booking.durationMinutes (clock24 ah am) (clock24 bh bm) = Some d
                  /\ (d <= 0)%Z)
    /\ (exists d1 d2,
           Booking.durationMinutes (clock24 ah am) (clock24 bh bm) = Some d1
           /\ Booking.durationMinutes (clock24 bh bm) (clock24 chh cm) = Some d2
           /\ Booking.durationMinutes (clock24 ah am) (clock24 chh cm) = Some (d1 + d2)%Z
           /\ Booking.durationMinutes (clock24 bh bm) (clock24 ah am) = Some (- d1)%Z).
Proof.
  intros ah am bh bm chh cm.
  assert (H : forall sh sm eh em,
             Booking.durationMinutes (clock24 sh sm) (clock24 eh em)
             = Some (minute_of_day_24 eh em - minute_of_day_24 sh sm)%Z).
  { intros. apply durationMinutes_parts; apply clock24_parts. }
  split; [apply H |]. split; [rewrite H; f_equal; lia |]. split.
  - intros Hle. eexists. split; [apply H | lia].
  - eexists. eexists. rewrite !H. repeat split; f_equal; lia.
Qed.

Lemma durationMinutes_signed_difference_witness :
  exists d, Booking.durationMinutes (clock24 23 0) (clock24 0 0) = Some d /\ (d <= 0)%Z.
Proof.
  apply (proj1 (proj2 (proj2 (durationMinutes_signed_difference 23 0 0 0 0 0)))).
  vm_compute. discriminate.
Defined.

(** [getDesiredMinutes] answers 60 or 120, 60 when [min_minutes] is
    absent, and never less than a [min_minutes] of at most 120 (the
    largest the API's schema lets through). *)
Theorem getDesiredMinutes_covers_request :
  forall prefs : Preferences,
    (Grid.getDesiredMinutes prefs = 60%Z \/ Grid.getDesiredMinutes prefs = 120%Z)
    /\ (min_minutes prefs = None -> Grid.getDesiredMinutes prefs = 60%Z)
    /\ (forall m, min_minutes prefs = Some m -> (m <= 120)%Z ->
        (m <= Grid.getDesiredMinutes prefs)%Z).
Proof.
  intros prefs. unfold Grid.getDesiredMinutes.
  destruct (min_minutes prefs) as [m |]; cbn [nullish].
  - destruct (Z.leb_spec m 60); repeat split; auto; try discriminate;
      intros m' Hm; inversion Hm; subst; lia.
  - cbn. repeat split; auto. discriminate.
Qed.

Lemma getDesiredMinutes_covers_request_witness :
  (90 <= Grid.getDesiredMinutes long_prefs)%Z.
Proof.
  apply (proj2 (proj2 (getDesiredMinutes_covers_request long_prefs)) 90%Z eq_refl).
  lia.
Defined.

(** ** Court names *)

Lemma hd_filter_nonempty l :
  hd EmptyString (filter nonempty l) = EmptyString
  \/ (In (hd EmptyString (filter nonempty l)) l
      /\ hd EmptyString (filter nonempty l) <> EmptyString).
Proof.
  induction l as [| x l IH]; [now left |].
  cbn [filter]. destruct (nonempty x) eqn:E.
  - right. cbn [hd]. split; [now left | now apply nonempty_iff].
  - destruct IH as [IH | [IH Hne]]; [now left | right]. split; [now right | exact Hne].
Qed.


(** ** The region check *)

Lemma has_iff set region : Region.has set region = true <-> In region set.
Proof.
  unfold Region.has. rewrite existsb_exists. split.
  - intros (x & Hin & Heq). apply String.eqb_eq in Heq. now subst.
  - intros Hin. exists region. split; [exact Hin | apply String.eqb_refl].
Qed.

Lemma add_keeps set region x : In x set -> In x (Region.add set region).
Proof.
  unfold Region.add. destruct (Region.has set region); [auto |].
  intros H. apply in_or_app. now left.
Qed.

Lemma checkRegion_keeps region check set x :
  In x set -> In x (snd (Region.checkRegion region check set)).
Proof.
  unfold Region.checkRegion.
  destruct (negb (Region.has set region) && negb (check region)); cbn [snd]; [auto |].
  apply add_keeps.
Qed.

Lemma checkRegions_keeps calls : forall set x,
  In x set -> In x (snd (Region.checkRegions calls set)).
Proof.
  induction calls as [| [region check] rest IH]; intros set x Hin; [exact Hin |].
  cbn [Region.checkRegions].
  destruct (Region.checkRegion region check set) as [r set'] eqn:E.
  destruct (Region.checkRegions rest set') as [rs set''] eqn:E'.
  cbn [snd]. change set'' with (snd (rs, set'')). rewrite <- E'. apply IH.
  change set' with (snd (r, set')). rewrite <- E. now apply checkRegion_keeps.
Qed.

(** A region that was accepted once is accepted ever after, whatever
    [check] says of it then and whatever calls came in between, and that
    later call leaves the set as it is; a call that is rejected leaves
    the set as it is too. *)
Theorem checkRegion_remembers :
  forall (region : string) (check check' : string -> bool)
         (calls : list (string * (string -> bool))) (validRegions : list string),
    (fst (Region.checkRegion region check validRegions) = Ok tt ->
     Region.checkRegion region check'
       (snd (Region.checkRegions calls (snd (Region.checkRegion region check validRegions))))
     = (Ok tt,
        snd (Region.checkRegions calls (snd (Region.checkRegion region check validRegions)))))
    /\ (fst (Region.checkRegion region check validRegions) <> Ok tt ->
        Region.checkRegion region check validRegions
        = (Err (Region.not_accepted region), validRegions)).
Proof.
  intros region check check' calls set. split.
  - intros Hok.
    assert (Hin : In region (snd (Region.checkRegion region check set))).
    { unfold Region.checkRegion in *.
      destruct (negb (Region.has set region) && negb (check region)); [discriminate |].
      cbn [snd]. unfold Region.add.
      destruct (Region.has set region) eqn:E; [now apply has_iff |].
      apply in_or_app. right. now left. }
    apply (checkRegions_keeps calls) in Hin. apply has_iff in Hin.
    unfold Region.checkRegion at 1. rewrite Hin. cbn [negb andb].
    unfold Region.add. now rewrite Hin.
  - intros Hno. unfold Region.checkRegion in *.
    destruct (negb (Region.has set region) && negb (check region)); [reflexivity |].
    now elim Hno.
Qed.

Lemma checkRegion_remembers_witness :
  Region.checkRegion "us-east-1" (fun _ => false)
    (snd (Region.checkRegions [("bad region", fun _ => false)]
            (snd (Region.checkRegion "us-east-1" (fun _ => true) []))))
  = (Ok tt, ["us-east-1"]).
Proof.
  exact (proj1 (checkRegion_remembers "us-east-1" (fun _ => true) (fun _ => false)
                  [("bad region", fun _ => false)] []) eq_refl).
Defined.

Lemma checkRegions_checked check regions : forall set,
  Forall (fun x => check x = true) set ->
  fst (Region.checkRegions (map (fun r => (r, check)) regions) set)
  = map (fun r => if check r then Ok tt else Err (Region.not_accepted r)) regions
  /\ Forall (fun x => check x = true)
       (snd (Region.checkRegions (map (fun r => (r, check)) regions) set)).
Proof.
  induction regions as [| r rest IH]; intros set Hset; [now split |].
  cbn [map Region.checkRegions].
  destruct (Region.checkRegion r check set) as [a set'] eqn:E.
  destruct (Region.checkRegions (map (fun r0 => (r0, check)) rest) set') as [rs set''] eqn:E'.
  unfold Region.checkRegion in E.
  assert (Hset' : Forall (fun x => check x = true) set' /\
                  a = if check r then Ok tt else Err (Region.not_accepted r)).
  { destruct (Region.has set r) eqn:Hhas; cbn [negb andb] in E.
    - inversion E; subst. unfold Region.add. rewrite Hhas. split; [exact Hset |].
      apply has_iff in Hhas. rewrite Forall_forall in Hset. now rewrite (Hset _ Hhas).
    - destruct (check r) eqn:Hc; cbn [negb] in E; inversion E; subst.
      + unfold Region.add. rewrite Hhas. split; [| reflexivity].
        apply Forall_app. split; [exact Hset | now constructor].
      + now split. }
  destruct Hset' as [Hset' ->]. destruct (IH set' Hset') as [IH1 IH2].
  rewrite E' in IH1, IH2. cbn [fst snd] in *. split; [now rewrite IH1 | exact IH2].
Qed.

(** With one and the same [check], the memory changes no answer: from an
    empty set, every call of a sequence is accepted exactly when [check]
    accepts its region, and the set only ever holds regions [check]
    accepts. *)
Theorem checkRegion_cache_is_transparent :
  forall (check : string -> bool) (regions : list string),
    fst (Region.checkRegions (map (fun r => (r, check)) regions) [])
    = map (fun r => if check r then Ok tt else Err (Region.not_accepted r)) regions
    /\ Forall (fun x => check x = true)
         (snd (Region.checkRegions (map (fun r => (r, check)) regions) [])).
Proof.
  intros check regions. apply checkRegions_checked. constructor.
Qed.

(** ** What a run does *)

Lemma yields_ret {A} P (Q : A -> Prop) a : Q a -> yields P Q (ret a).
Proof.
  intros Ha w tr r tr' H. inversion H; subst. split.
  - exists []. now rewrite app_nil_r.
  - intros a' E. now inversion E; subst.
Qed.

Lemma yields_throw {A} P (Q : A -> Prop) e : yields P Q (throw e).
Proof.
  intros w tr r tr' H. inversion H; subst. split.
  - exists []. now rewrite app_nil_r.
  - discriminate.
Qed.

Lemma yields_call P c : P c = true -> yields P (fun _ => True) (call c).
Proof.
  intros Hc w tr r tr' H. inversion H; subst. split; [| auto].
  exists [c]. split; [reflexivity |]. cbn. now rewrite Hc.
Qed.

Lemma yields_silent {A} P (m : M A) :
  (forall w tr, snd (m w tr) = tr) -> yields P (fun _ => True) m.
Proof.
  intros Hm w tr r tr' H. split; [| auto].
  exists []. rewrite app_nil_r. specialize (Hm w tr). rewrite H in Hm. now cbn in Hm.
Qed.

Lemma yields_weaken {A} P (Q Q' : A -> Prop) m :
  yields P Q m -> (forall a, Q a -> Q' a) -> yields P Q' m.
Proof.
  intros Hm HQ w tr r tr' H. destruct (Hm _ _ _ _ H) as [Hext Hres].
  split; [exact Hext |]. intros a E. apply HQ, Hres, E.
Qed.

Lemma yields_bind {A B} P (Q : A -> Prop) (R : B -> Prop) (m : M A) (k : A -> M B) :
  yields P Q m -> (forall a, Q a -> yields P R (k a)) -> yields P R (bind m k).
Proof.
  intros Hm Hk w tr r tr'. unfold bind.
  destruct (m w tr) as [[a | e] tr1] eqn:E; intros H.
  - destruct (Hm _ _ _ _ E) as [(x1 & -> & H1) Ha].
    destruct (Hk a (Ha a eq_refl) _ _ _ _ H) as [(x2 & -> & H2) Hr].
    split; [| exact Hr]. exists (x1 ++ x2)%list.
    split; [now rewrite app_assoc |]. rewrite forallb_app. now rewrite H1, H2.
  - inversion H; subst. destruct (Hm _ _ _ _ E) as [Hext _].
    split; [exact Hext | discriminate].
Qed.

Lemma yields_try_catch {A} P (Q : A -> Prop) (m : M A) (h : JsError -> M A) :
  yields P Q m -> (forall e, yields P Q (h e)) -> yields P Q (try_catch m h).
Proof.
  intros Hm Hh w tr r tr'. unfold try_catch.
  destruct (m w tr) as [[a | e] tr1] eqn:E; intros H.
  - inversion H; subst. exact (Hm _ _ _ _ E).
  - destruct (Hm _ _ _ _ E) as [(x1 & -> & H1) _].
    destruct (Hh e _ _ _ _ H) as [(x2 & -> & H2) Hr].
    split; [| exact Hr]. exists (x1 ++ x2)%list.
    split; [now rewrite app_assoc |]. rewrite forallb_app. now rewrite H1, H2.
Qed.

Lemma yields_or_else {A} P (Q : A -> Prop) (m : M A) (d : A) :
  yields P Q m -> Q d -> yields P Q (or_else m d).
Proof.
  intros Hm Hd. apply yields_try_catch; [exact Hm |]. intros e. now apply yields_ret.
Qed.

Lemma yields_try_finally {A} P (Q : A -> Prop) (m : M A) (f : M unit) :
  yields P Q m -> issues_only P f -> yields P Q (try_finally m f).
Proof.
  intros Hm Hf w tr r tr'. unfold try_finally.
  destruct (m w tr) as [r0 tr1] eqn:E.
  destruct (f w tr1) as [[u | e] tr2] eqn:E'; intros H; inversion H; subst.
  - destruct (Hm _ _ _ _ E) as [(x1 & -> & H1) Hr].
    destruct (Hf _ _ _ _ E') as [(x2 & -> & H2) _].
    split; [| exact Hr]. exists (x1 ++ x2)%list.
    split; [now rewrite app_assoc |]. rewrite forallb_app. now rewrite H1, H2.
  - destruct (Hm _ _ _ _ E) as [(x1 & -> & H1) _].
    destruct (Hf _ _ _ _ E') as [(x2 & -> & H2) _].
    split; [| discriminate]. exists (x1 ++ x2)%list.
    split; [now rewrite app_assoc |]. rewrite forallb_app. now rewrite H1, H2.
Qed.

(** A loop whose body keeps [I], from a state that satisfies it. *)
Lemma yields_for_range {S} P (I : S -> Prop) (body : nat -> S -> M (LoopStep S)) n :
  (forall i s, I s ->
     yields P (fun r => match r with Continue s' | Break s' => I s' end) (body i s)) ->
  forall from s, I s -> yields P I (for_range n from body s).
Proof.
  intros Hbody. induction n as [| n IH]; intros from s Hs; cbn [for_range].
  - now apply yields_ret.
  - eapply yields_bind; [apply (Hbody from s Hs) |].
    intros [s' | s'] Hs'; [now apply IH | now apply yields_ret].
Qed.

Lemma yields_for_of {X S} P (I : S -> Prop) (body : X -> S -> M (LoopStep S)) xs :
  (forall x s, In x xs -> I s ->
     yields P (fun r => match r with Continue s' | Break s' => I s' end) (body x s)) ->
  forall s, I s -> yields P I (for_of xs body s).
Proof.
  induction xs as [| x xs IH]; intros Hbody s Hs; cbn [for_of].
  - now apply yields_ret.
  - eapply yields_bind; [apply (Hbody x s (or_introl eq_refl) Hs) |].
    intros [s' | s'] Hs'; [| now apply yields_ret].
    apply IH; [| exact Hs']. intros y t Hy. apply Hbody. now right.
Qed.

Ltac open_calls :=
  unfold clickAndWaitForPage, newSession;
  unfold goto, waitForEventPage, waitForLoadState, waitForTimeout, waitForNavigation,
    waitForURL, waitForSelector, title, isVisible, isChecked, count, click, click_force,
    fill, waitFor, waitForHidden, innerText, getAttribute, Grid.BASE_URL, Grid.env_ubc_user, Grid.env_ubc_pass, Booking.BASE_URL,
    Booking.env_or_empty.

Ltac yields_step :=
  lazymatch goal with
  | |- yields _ _ (ret _) =>
      first [ apply (yields_ret _ (fun _ => True)); exact I
            | apply yields_ret; try exact I ]
  | |- yields _ _ (throw _) => apply yields_throw
  | |- yields _ _ (call ?c) => apply (yields_call _ c); reflexivity
  | |- yields _ _ (bind _ _) => eapply yields_bind; [| intros ? ?]
  | |- yields _ _ (or_else _ _) => apply yields_or_else; [| try exact I]
  | |- yields _ _ (try_catch _ _) => apply yields_try_catch; [| intros ?]
  | |- yields _ _ (url _) => apply yields_silent; reflexivity
  | |- yields _ _ todayIso => apply yields_silent; reflexivity
  | |- yields _ _ (read _) => apply yields_silent; reflexivity
  | |- yields _ _ (lift _) => apply yields_silent; reflexivity
  | |- yields _ _ (env _) => apply yields_silent; reflexivity
  | |- yields _ _ (if ?c then _ else _) => destruct c
  | |- yields _ _ (match ?x with _ => _ end) => destruct x
  | |- _ => progress cbv beta zeta
  end.

(** Loops whose state carries nothing the proof needs. *)
Ltac yields_loop :=
  lazymatch goal with
  | |- yields _ _ (for_range _ _ _ _) =>
      apply (yields_for_range _ (fun _ => True)); [intros ? ? ? | exact I]
  | |- yields _ _ (for_of _ _ _) =>
      apply (yields_for_of _ (fun _ => True)); [intros ? ? ? ? | exact I]
  end.

Ltac yields_steps := open_calls; repeat first [yields_step | yields_loop]; try exact I.

(** The same, stopping in front of every loop. *)
Ltac yields_upto_loop := open_calls; repeat yields_step; try exact I.

(** ** Scans only read *)

Lemma debugListClickable_passive page : issues_only passive (Grid.debugListClickable page).
Proof. unfold issues_only, Grid.debugListClickable. yields_steps. Qed.

Lemma slot_of_row_passive page prefs courtName today row :
  issues_only passive (Grid.slot_of_row page prefs courtName today row).
Proof. unfold issues_only, Grid.slot_of_row. yields_steps. Qed.

Lemma scanSingleCourtPage_passive page prefs courtName :
  issues_only passive (Grid.scanSingleCourtPage page prefs courtName).
Proof.
  unfold issues_only, Grid.scanSingleCourtPage. yields_steps.
  - apply slot_of_row_passive.
  - apply debugListClickable_passive.
Qed.

Lemma inferCourtName_passive button : issues_only passive (Grid.inferCourtName button).
Proof. unfold issues_only, Grid.inferCourtName. yields_steps. Qed.

Lemma slot_of_span_passive page prefs label span :
  issues_only passive (Booking.slot_of_span page prefs label span).
Proof.
  unfold issues_only, Booking.slot_of_span, Booking.interval_of_span,
    Booking.slot_of_interval.
  yields_steps.
Qed.

Lemma extractSlotsFromScheduler_passive page prefs label :
  issues_only passive (Booking.extractSlotsFromScheduler page prefs label).
Proof.
  unfold issues_only, Booking.extractSlotsFromScheduler. yields_steps.
  apply slot_of_span_passive.
Qed.

Lemma label_near_button_passive button dflt :
  issues_only passive (Booking.label_near_button button dflt).
Proof. unfold issues_only, Booking.label_near_button. yields_steps. Qed.

Lemma label_on_page_passive page dflt :
  issues_only passive (Booking.label_on_page page dflt).
Proof. unfold issues_only, Booking.label_on_page. yields_steps. Qed.

(** The scan of one court page only reads, in both revisions: between
    the moment the page is open and the moment its slots are known, no
    navigation, click or typing is issued, whatever the page answers. *)
Theorem court_scan_only_reads :
  forall (page : Page) (prefs : Preferences) (label : string) (w : World) (tr : Trace),
    (exists ext,
        snd (Grid.scanSingleCourtPage page prefs label w tr) = (tr ++ ext)%list
        /\ forallb passive ext = true)
    /\ (exists ext,
           snd (Booking.extractSlotsFromScheduler page prefs label w tr) = (tr ++ ext)%list
           /\ forallb passive ext = true)
    /\ passive (Click (Loc page "a") false) = false
    /\ passive (Fill (Loc page "input") "x") = false
    /\ passive (Goto page "about:blank" "load") = false.
Proof.
  intros page prefs label w tr. split; [| split; [| repeat split]].
  - destruct (Grid.scanSingleCourtPage page prefs label w tr) as [r tr'] eqn:H.
    exact (proj1 (scanSingleCourtPage_passive page prefs label _ _ _ _ H)).
  - destruct (Booking.extractSlotsFromScheduler page prefs label w tr) as [r tr'] eqn:H.
    exact (proj1 (extractSlotsFromScheduler_passive page prefs label _ _ _ _ H)).
Qed.

(** ** A check makes no booking *)

Lemma yields_impl {A} (P P' : Cmd -> bool) (Q : A -> Prop) (m : M A) :
  (forall c, P c = true -> P' c = true) -> yields P Q m -> yields P' Q m.
Proof.
  intros HP Hm w tr r tr' H. destruct (Hm _ _ _ _ H) as [(ext & -> & Hext) Hr].
  split; [| exact Hr]. exists ext. split; [reflexivity |].
  rewrite forallb_forall in *. auto.
Qed.

Lemma passive_no_booking c : passive c = true -> no_booking c = true.
Proof. destruct c; cbn; intros H; try reflexivity; discriminate. Qed.

Lemma no_booking_no_order c : no_booking c = true -> no_order c = true.
Proof.
  unfold no_booking, no_order, is_booking_click, is_order_click.
  destruct c; try reflexivity.
  destruct (mentions "Place My Order" l); [| reflexivity].
  now rewrite orb_true_r.
Qed.

Lemma grid_ensureLoggedIn_no_booking page :
  issues_only no_booking (Grid.ensureLoggedIn page).
Proof.
  unfold issues_only, Grid.ensureLoggedIn. yields_upto_loop.
  - apply (yields_for_of _ (fun found : option Locator =>
             match found with
             | Some b => exists p, In b (Grid.cwlButtonCandidates p)
             | None => True
             end)); [| exact I].
    intros x s Hx Hs. yields_upto_loop; eauto.
  - cbv beta iota in *. match goal with H : ex _ |- _ => destruct H as (p & Hin) end.
    apply (yields_call _ (Click l false)). unfold Grid.cwlButtonCandidates in Hin.
    destruct Hin as [<- | [<- | [<- | [<- | []]]]]; reflexivity.
Qed.

Lemma grid_scanCourtsAndSlots_no_booking page prefs :
  issues_only no_booking (Grid.scanCourtsAndSlots page prefs).
Proof.
  unfold issues_only, Grid.scanCourtsAndSlots. yields_steps.
  all: apply (yields_impl passive); [exact passive_no_booking |].
  all: first [ apply debugListClickable_passive
             | apply inferCourtName_passive
             | apply scanSingleCourtPage_passive ].
Qed.

Lemma grid_checkAvailability_no_booking prefs :
  issues_only no_booking (Grid.checkAvailability prefs).
Proof.
  unfold issues_only, Grid.checkAvailability. open_calls.
  eapply yields_bind; [yields_steps |]. intros page _.
  apply yields_try_finally; [| apply (yields_call _ Close); reflexivity].
  unfold Grid.open_list, Grid.scan_or_nothing, Grid.placeholder. yields_steps.
  - apply grid_ensureLoggedIn_no_booking.
  - apply grid_scanCourtsAndSlots_no_booking.
Qed.

Lemma booking_ensureLoggedIn_no_booking page :
  issues_only no_booking (Booking.ensureLoggedIn page).
Proof.
  unfold issues_only, Booking.ensureLoggedIn. yields_upto_loop.
  - apply (yields_for_of _ (fun found : option Locator =>
             match found with
             | Some b => exists p, In b (map First (Booking.candidates p))
             | None => True
             end)); [| exact I].
    intros x s Hx Hs. yields_upto_loop; eauto using in_map.
  - cbv beta iota in *. match goal with H : ex _ |- _ => destruct H as (p & Hin) end.
    apply (yields_call _ (Click l false)). unfold Booking.candidates in Hin.
    destruct Hin as [<- | [<- | [<- | [<- | []]]]]; reflexivity.
Qed.

Lemma booking_scanCourtsAndSlots_no_booking page prefs :
  issues_only no_booking (Booking.scanCourtsAndSlots page prefs).
Proof.
  unfold issues_only, Booking.scanCourtsAndSlots. yields_steps.
  all: apply (yields_impl passive); [exact passive_no_booking |].
  all: first [ apply label_near_button_passive
             | apply label_on_page_passive
             | apply extractSlotsFromScheduler_passive ].
Qed.

Lemma booking_checkAvailability_no_booking prefs :
  issues_only no_booking (Booking.checkAvailability prefs).
Proof.
  unfold issues_only, Booking.checkAvailability. open_calls.
  eapply yields_bind; [yields_steps |]. intros page _.
  apply yields_try_finally; [| apply (yields_call _ Close); reflexivity].
  unfold Booking.open_list, Booking.placeholder. yields_steps.
  - apply booking_ensureLoggedIn_no_booking.
  - apply booking_scanCourtsAndSlots_no_booking.
Qed.

(** [checkAvailability] makes no booking, in either revision: whatever
    the portal answers and however the run ends, it never clicks a control
    whose locator mentions [Book Now], [Reserve] or [Place My Order]. *)
Theorem checkAvailability_makes_no_booking :
  forall (prefs : Preferences) (w : World) (tr : Trace),
    (exists ext,
        snd (Grid.checkAvailability prefs w tr) = (tr ++ ext)%list
        /\ forallb no_booking ext = true)
    /\ (exists ext,
           snd (Booking.checkAvailability prefs w tr) = (tr ++ ext)%list
           /\ forallb no_booking ext = true)
    /\ (forall page i force,
           no_booking (Click (Nth (Booking.bookNowSpans page) i) force) = false
           /\ no_booking (Click (Booking.reserveButton page) force) = false
           /\ no_booking (Click (Booking.placeOrderButton page) force) = false).
Proof.
  intros prefs w tr. split; [| split; [| intros page i force; repeat split]].
  - destruct (Grid.checkAvailability prefs w tr) as [r tr'] eqn:E.
    exact (proj1 (grid_checkAvailability_no_booking prefs _ _ _ _ E)).
  - destruct (Booking.checkAvailability prefs w tr) as [r tr'] eqn:E.
    exact (proj1 (booking_checkAvailability_no_booking prefs _ _ _ _ E)).
Qed.

(** ** One order at most *)

Lemma orders_app (a b : Trace) : orders (a ++ b)%list = orders a + orders b.
Proof. unfold orders. now rewrite filter_app, length_app. Qed.

Lemma orders_none ext : forallb no_order ext = true -> orders ext = 0.
Proof.
  unfold orders. induction ext as [| c ext IH]; [reflexivity |].
  cbn [forallb filter]. intros H. apply andb_prop in H. destruct H as [Hc Hext].
  unfold no_order in Hc. apply negb_true_iff in Hc. rewrite Hc. auto.
Qed.

Lemma once_of_none {A} (Q : A -> Prop) (m : M A) :
  yields no_order Q m -> orders_at_most_once m.
Proof.
  intros Hm w tr r tr' H. destruct (Hm _ _ _ _ H) as [(ext & -> & Hext) _].
  exists ext. split; [reflexivity |]. rewrite (orders_none _ Hext). lia.
Qed.

Lemma once_bind {A B} (Q : A -> Prop) (m : M A) (k : A -> M B) :
  yields no_order Q m -> (forall a, Q a -> orders_at_most_once (k a)) ->
  orders_at_most_once (bind m k).
Proof.
  intros Hm Hk w tr r tr'. unfold bind.
  destruct (m w tr) as [[a | e] tr1] eqn:E; intros H.
  - destruct (Hm _ _ _ _ E) as [(x1 & -> & H1) Ha].
    destruct (Hk a (Ha a eq_refl) _ _ _ _ H) as (x2 & -> & H2).
    exists (x1 ++ x2)%list. split; [now rewrite app_assoc |].
    rewrite orders_app, (orders_none _ H1). exact H2.
  - inversion H; subst. destruct (Hm _ _ _ _ E) as [(x1 & -> & H1) _].
    exists x1. split; [reflexivity |]. rewrite (orders_none _ H1). lia.
Qed.

(** One click, then none. *)
Lemma once_then_none {B} (c : Cmd) (k : resp c -> M B) :
  (forall a, issues_only no_order (k a)) -> orders_at_most_once (bind (call c) k).
Proof.
  intros Hk w tr r tr'. unfold bind, call.
  destruct (respond w tr c) as [a | e]; intros H.
  - destruct (Hk a _ _ _ _ H) as [(x2 & -> & H2) _].
    exists ([c] ++ x2)%list. split; [now rewrite app_assoc |].
    rewrite orders_app, (orders_none _ H2). unfold orders. cbn.
    destruct (is_order_click c); cbn; lia.
  - inversion H; subst. exists [c]. split; [reflexivity |].
    unfold orders. cbn. destruct (is_order_click c); cbn; lia.
Qed.

Lemma once_try_catch {A} (m : M A) (h : JsError -> M A) :
  orders_at_most_once m -> (forall e, issues_only no_order (h e)) ->
  orders_at_most_once (try_catch m h).
Proof.
  intros Hm Hh w tr r tr'. unfold try_catch.
  destruct (m w tr) as [[a | e] tr1] eqn:E; intros H.
  - inversion H; subst. exact (Hm _ _ _ _ E).
  - destruct (Hm _ _ _ _ E) as (x1 & -> & H1).
    destruct (Hh e _ _ _ _ H) as [(x2 & -> & H2) _].
    exists (x1 ++ x2)%list. split; [now rewrite app_assoc |].
    rewrite orders_app, (orders_none _ H2). lia.
Qed.

Lemma once_try_finally {A} (m : M A) (f : M unit) :
  orders_at_most_once m -> issues_only no_order f ->
  orders_at_most_once (try_finally m f).
Proof.
  intros Hm Hf w tr r tr'. unfold try_finally.
  destruct (m w tr) as [r0 tr1] eqn:E.
  destruct (f w tr1) as [[u | e] tr2] eqn:E'; intros H; inversion H; subst.
  - destruct (Hm _ _ _ _ E) as (x1 & -> & H1).
    destruct (Hf _ _ _ _ E') as [(x2 & -> & H2) _].
    exists (x1 ++ x2)%list. split; [now rewrite app_assoc |].
    rewrite orders_app, (orders_none _ H2). lia.
  - destruct (Hm _ _ _ _ E) as (x1 & -> & H1).
    destruct (Hf _ _ _ _ E') as [(x2 & -> & H2) _].
    exists (x1 ++ x2)%list. split; [now rewrite app_assoc |].
    rewrite orders_app, (orders_none _ H2). lia.
Qed.

Ltac once_step :=
  lazymatch goal with
  | |- orders_at_most_once (ret _) =>
      apply (once_of_none (fun _ => True)); apply yields_ret; exact I
  | |- orders_at_most_once (bind _ _) => eapply once_bind; [| intros ? ?]
  | |- orders_at_most_once (if ?c then _ else _) => destruct c
  | |- orders_at_most_once (match ?x with _ => _ end) => destruct x
  | |- _ => progress cbv beta zeta
  end.

Lemma step5_once page request courtName :
  orders_at_most_once (Booking.step5 page request courtName).
Proof.
  unfold Booking.step5.
  eapply once_bind; [yields_steps |]. intros v _.
  destruct (negb v); [once_step |].
  unfold click at 1.
  apply (once_then_none (Click (Booking.placeOrderButton page) false)). intros u.
  unfold issues_only. yields_steps.
Qed.

Lemma step4_once page request courtName :
  orders_at_most_once (Booking.step4 page request courtName).
Proof.
  unfold Booking.step4. cbv zeta.
  eapply once_bind; [yields_steps |]. intros v _.
  eapply once_bind; [yields_steps |]. intros u _.
  apply step5_once.
Qed.

Ltac once_upto_loop := repeat (once_step; try solve [yields_upto_loop]).

Lemma select_you_no_order page rowCount :
  issues_only no_order (Booking.select_you page rowCount).
Proof. unfold issues_only, Booking.select_you. yields_steps. Qed.

Lemma select_first_available_no_order page rowCount :
  issues_only no_order (Booking.select_first_available page rowCount).
Proof. unfold issues_only, Booking.select_first_available. yields_steps. Qed.

Lemma step3_once page request courtName :
  orders_at_most_once (Booking.step3 page request courtName).
Proof.
  unfold Booking.step3, Booking.all. once_upto_loop.
  - apply select_you_no_order.
  - destruct (negb (nonempty _)); [apply select_first_available_no_order | yields_steps].
  - apply (yields_for_of _ (fun found : option Locator =>
             match found with
             | Some b => exists sel, In sel Booking.nextButtonSelectors /\ b = First (Loc page sel)
             | None => True
             end)); [| exact I].
    intros x s Hx Hs. yields_upto_loop; eauto.
  - cbv beta iota in *.
    match goal with H : ex _ |- _ => destruct H as (sel & Hin & ->) end.
    apply (yields_call _ (Click (First (Loc page sel)) false)).
    unfold Booking.nextButtonSelectors in Hin.
    repeat (destruct Hin as [<- | Hin]; [reflexivity |]). destruct Hin.
  - apply step4_once.
  - yields_steps.
Qed.

Lemma relogin_no_order page newUrl : issues_only no_order (Booking.relogin page newUrl).
Proof. unfold issues_only, Booking.relogin. yields_steps. Qed.

Lemma step2_once page request courtName :
  orders_at_most_once (Booking.step2 page request courtName).
Proof.
  unfold Booking.step2. once_upto_loop.
  - destruct (JS.includes _ _ || JS.includes _ _);
      [apply relogin_no_order | yields_steps].
  - apply step3_once.
  - apply step3_once.
Qed.

Lemma find_target_marker page label spanCount :
  yields no_order
    (fun target : option Locator =>
       match target with
       | Some span => exists i, span = Nth (Booking.bookNowSpans page) i
       | None => True
       end)
    (Booking.find_target page label spanCount).
Proof.
  unfold Booking.find_target.
  apply (yields_for_range _ (fun target : option Locator =>
           match target with
           | Some span => exists i, span = Nth (Booking.bookNowSpans page) i
           | None => True
           end)); [| exact I].
  intros i s Hs. yields_upto_loop; eauto.
Qed.

Lemma step1_once page request courtName :
  orders_at_most_once (Booking.step1 page request courtName).
Proof.
  unfold Booking.step1.
  eapply once_bind; [yields_steps |]. intros label _.
  eapply once_bind; [yields_steps |]. intros spanCount _.
  eapply once_bind; [apply find_target_marker |]. intros [span |] Hspan.
  - destruct Hspan as (i & ->).
    eapply once_bind; [yields_steps |]. intros u _.
    eapply once_bind; [yields_steps |]. intros u' _.
    apply step2_once.
  - once_step.
Qed.

Lemma arrive_no_order page request : issues_only no_order (Booking.arrive page request).
Proof.
  unfold issues_only, Booking.arrive. yields_steps.
  apply (yields_impl no_booking); [exact no_booking_no_order |].
  apply booking_ensureLoggedIn_no_booking.
Qed.

(** [bookSlot] clicks [Place My Order] at most once in a run, whatever
    the portal answers: no failure, retry or exception leads to a second
    order.  (The count is of clicks on a locator that mentions
    [Place My Order]; a booking that goes through has one.) *)
Theorem bookSlot_orders_at_most_once :
  (forall (request : BookingRequest) (w : World) (tr : Trace),
      exists ext,
        snd (Booking.bookSlot request w tr) = (tr ++ ext)%list /\ orders ext <= 1)
  /\ (forall page, orders [Click (Booking.placeOrderButton page) false] = 1)
  /\ orders (snd (Booking.bookSlot (sample_request "09:00")
                    (world_of you_disabled_page) [])) = 1.
Proof.
  split; [| split; [reflexivity | vm_compute; reflexivity]].
  intros request w tr.
  assert (H : orders_at_most_once (Booking.bookSlot request)).
  { unfold Booking.bookSlot.
    eapply once_bind; [yields_steps |]. intros page _.
    apply once_try_finally; [| apply (yields_call _ Close); reflexivity].
    apply once_try_catch; [| intros e; unfold issues_only; yields_steps].
    unfold Booking.pipeline.
    eapply once_bind; [apply arrive_no_order |]. intros [p name] _.
    apply step1_once. }
  destruct (Booking.bookSlot request w tr) as [r tr'] eqn:E.
  exact (H _ _ _ _ E).
Qed.

(** ** Exceptions during a scan *)

Lemma never_throws_ret {A} (a : A) : never_throws (ret a).
Proof. intros w tr. now exists a, tr. Qed.

Lemma never_throws_bind {A B} (m : M A) (k : A -> M B) :
  never_throws m -> (forall a, never_throws (k a)) -> never_throws (bind m k).
Proof.
  intros Hm Hk w tr. destruct (Hm w tr) as (a & tr1 & E).
  unfold bind. rewrite E. apply Hk.
Qed.

Lemma never_throws_try_catch {A} (m : M A) (h : JsError -> M A) :
  (forall e, never_throws (h e)) -> never_throws (try_catch m h).
Proof.
  intros Hh w tr. unfold try_catch.
  destruct (m w tr) as [[a | e] tr1]; [now exists a, tr1 | apply Hh].
Qed.

Lemma never_throws_or_else {A} (m : M A) (d : A) : never_throws (or_else m d).
Proof. apply never_throws_try_catch. intros e. apply never_throws_ret. Qed.

Lemma never_throws_for_range {S} (body : nat -> S -> M (LoopStep S)) n :
  (forall i s, never_throws (body i s)) ->
  forall from s, never_throws (for_range n from body s).
Proof.
  intros Hbody. induction n as [| n IH]; intros from s; cbn [for_range].
  - apply never_throws_ret.
  - apply never_throws_bind; [apply Hbody |].
    intros [s' | s']; [apply IH | apply never_throws_ret].
Qed.

Lemma inferCourtName_never_throws button : never_throws (Grid.inferCourtName button).
Proof.
  unfold Grid.inferCourtName. apply never_throws_try_catch.
  intros e. apply never_throws_ret.
Qed.

(** After its first count, the debug listing cannot fail. *)
Lemma debugListClickable_run page w tr :
  Grid.debugListClickable page w tr
  = match respond w tr (Count (clickable page)) with
    | Ok cnt =>
        for_range (Nat.min cnt 30) 0
          (fun i (_ : unit) =>
             let el := Nth (clickable page) i in
             _ <- or_else (call (EvalTagName el)) "UNKNOWN" ;;
             _ <- or_else (getAttribute el "role") None ;;
             _ <- or_else (innerText el) EmptyString ;;
             _ <- or_else (getAttribute el "value") None ;;
             ret (Continue tt))
          tt w (tr ++ [Count (clickable page)])%list
    | Err e => (Err e, (tr ++ [Count (clickable page)])%list)
    end.
Proof.
  unfold Grid.debugListClickable, bind at 1, count, call, clickable.
  now destruct (respond w tr _).
Qed.

Lemma debugListClickable_after_count page cnt w tr :
  respond w tr (Count (clickable page)) = Ok cnt ->
  exists tr', Grid.debugListClickable page w tr = (Ok tt, tr').
Proof.
  intros H. rewrite debugListClickable_run, H.
  destruct (never_throws_for_range
              (fun i (_ : unit) =>
                 let el := Nth (clickable page) i in
                 _ <- or_else (call (EvalTagName el)) "UNKNOWN" ;;
                 _ <- or_else (getAttribute el "role") None ;;
                 _ <- or_else (innerText el) EmptyString ;;
                 _ <- or_else (getAttribute el "value") None ;;
                 ret (Continue tt))
              (Nat.min cnt 30)) with (from := 0) (s := tt) (w := w)
              (tr := (tr ++ [Count (clickable page)])%list) as ([] & tr' & E).
  - intros i s. cbv zeta.
    repeat (apply never_throws_bind; [apply never_throws_or_else | intros ?]).
    apply never_throws_ret.
  - exists tr'. exact E.
Qed.

(** [scanCourtsAndSlots] of [src/src/ubc.ts] contains the failures of the
    courts it visits: it rejects only when the count of [Choose] buttons
    is rejected or when, there being none, the count of the debug
    listing is; with at least one [Choose] button it always returns a
    list. *)
Theorem grid_scan_contains_failures :
  forall (page : Page) (prefs : Preferences) (w : World) (tr : Trace),
    (forall n, respond w tr (Count (Grid.chooseButtons page)) = Ok (S n) ->
       exists slots tr', Grid.scanCourtsAndSlots page prefs w tr = (Ok slots, tr'))
    /\ (forall e tr',
          Grid.scanCourtsAndSlots page prefs w tr = (Err e, tr') ->
          respond w tr (Count (Grid.chooseButtons page)) = Err e
          \/ (respond w tr (Count (Grid.chooseButtons page)) = Ok 0
              /\ respond w (tr ++ [Count (Grid.chooseButtons page)])%list
                   (Count (clickable page)) = Err e)).
Proof.
  intros page prefs w tr.
  assert (Hloop : forall n, respond w tr (Count (Grid.chooseButtons page)) = Ok (S n) ->
            exists slots tr', Grid.scanCourtsAndSlots page prefs w tr = (Ok slots, tr')).
  { intros n Hcount. unfold Grid.scanCourtsAndSlots, bind at 1, count, call.
    rewrite Hcount. cbn [Nat.eqb]. cbv zeta. unfold bind at 1, Grid.BASE_URL, read.
    apply never_throws_for_range. intros i s.
    apply never_throws_bind; [apply inferCourtName_never_throws | intros name].
    apply never_throws_bind.
    - apply never_throws_try_catch. intros e. apply never_throws_ret.
    - intros slots'. apply never_throws_try_catch. intros e. apply never_throws_ret. }
  split; [exact Hloop |].
  intros e tr' H.
  destruct (respond w tr (Count (Grid.chooseButtons page))) as [[| n] | e0] eqn:Hcount.
  - right. split; [reflexivity |].
    unfold Grid.scanCourtsAndSlots, bind at 1, count, call in H. rewrite Hcount in H.
    cbn [Nat.eqb] in H. unfold bind in H.
    destruct (respond w (tr ++ [Count (Grid.chooseButtons page)])%list
                (Count (clickable page))) as [cnt | e1] eqn:Hdebug.
    + destruct (debugListClickable_after_count page cnt w _ Hdebug) as (t & E).
      rewrite E in H. unfold ret in H. discriminate.
    + rewrite debugListClickable_run, Hdebug in H. now inversion H.
  - destruct (Hloop n eq_refl) as (slots & t & E). rewrite E in H. discriminate.
  - left. unfold Grid.scanCourtsAndSlots, bind at 1, count, call in H.
    rewrite Hcount in H. now inversion H.
Qed.

Lemma grid_scan_contains_failures_witness :
  exists slots tr',
    Grid.scanCourtsAndSlots 0 no_prefs (world_of (grid_page ["8:00 AM"])) []
    = (Ok slots, tr').
Proof.
  exact (proj1 (grid_scan_contains_failures 0 no_prefs (world_of (grid_page ["8:00 AM"])) [])
               1 eq_refl).
Defined.

(** ** The later [checkAvailability] *)

(** [checkAvailability] of the revision that reads the scheduler markers
    never returns an empty list either: a scan that finds no slot yields
    the placeholder slot.  But a scan that throws is not recovered
    there: the error reaches the caller, after the browser has been
    closed. *)
Theorem booking_checkAvailability_never_empty :
  forall (w : World) (prefs : Preferences) (tr : Trace),
    (forall l tr', Booking.checkAvailability prefs w tr = (Ok l, tr') -> l <> [])
    /\ (forall page tr1 tr2,
          reaches_list Booking.open_list w tr page tr1 ->
          Booking.scanCourtsAndSlots page prefs w tr1 = (Ok [], tr2) ->
          respond w tr2 Close = Ok tt ->
          Booking.checkAvailability prefs w tr
          = (Ok [stub_slot (JS.slice0 10 (now_iso w tr2))
                           (nullish (process_env w "UBC_BASE_URL") DEFAULT_BASE_URL) prefs],
             (tr2 ++ [Close])%list))
    /\ (forall page tr1 e tr2,
          reaches_list Booking.open_list w tr page tr1 ->
          Booking.scanCourtsAndSlots page prefs w tr1 = (Err e, tr2) ->
          respond w tr2 Close = Ok tt ->
          Booking.checkAvailability prefs w tr = (Err e, (tr2 ++ [Close])%list)).
Proof.
  intros w prefs tr. split; [| split].
  - intros l tr' H. unfold Booking.checkAvailability in H.
    apply bind_inv_ok in H. destruct H as (p0 & tr0 & _ & H).
    apply try_finally_inv_ok in H. destruct H as (tr1 & H & _).
    apply bind_inv_ok in H. destruct H as (p1 & tr2 & _ & H).
    apply bind_inv_ok in H. destruct H as (slots & tr3 & _ & H).
    destruct (0 <? List.length slots) eqn:Hlen.
    + unfold read in H. inversion H; subst. intros Hnil.
      pose proof (array_sort_perm (Booking.compare_slots w) slots) as Hperm.
      rewrite Hnil in Hperm. apply Permutation_sym, Permutation_nil in Hperm.
      subst. discriminate.
    + unfold Booking.placeholder, bind, todayIso, Booking.BASE_URL, read, ret in H.
      inversion H. discriminate.
  - intros page tr1 tr2 Hreach Hscan Hclose.
    unfold reaches_list in Hreach. apply bind_inv_ok in Hreach.
    destruct Hreach as (p0 & tr0 & Hsession & Hopen).
    unfold Booking.checkAvailability. rewrite (bind_ok _ _ _ _ _ _ Hsession).
    unfold try_finally. rewrite (bind_ok _ _ _ _ _ _ Hopen).
    rewrite (bind_ok _ _ _ _ _ _ Hscan). cbn [List.length Nat.ltb Nat.leb].
    unfold Booking.placeholder, bind, todayIso, Booking.BASE_URL, read, ret, call.
    now rewrite Hclose.
  - intros page tr1 e tr2 Hreach Hscan Hclose.
    unfold reaches_list in Hreach. apply bind_inv_ok in Hreach.
    destruct Hreach as (p0 & tr0 & Hsession & Hopen).
    unfold Booking.checkAvailability. rewrite (bind_ok _ _ _ _ _ _ Hsession).
    unfold try_finally. rewrite (bind_ok _ _ _ _ _ _ Hopen).
    rewrite (bind_err _ _ _ _ _ _ Hscan). unfold call. now rewrite Hclose.
Qed.

Lemma booking_checkAvailability_never_empty_witness :
  exists l tr',
    Booking.checkAvailability no_prefs (world_of empty_list_page) [] = (Ok l, tr')
    /\ l <> [].
Proof.
  destruct (Booking.checkAvailability no_prefs (world_of empty_list_page) [])
    as [[l | e] tr'] eqn:E.
  - exists l, tr'. split; [reflexivity |].
    exact (proj1 (booking_checkAvailability_never_empty (world_of empty_list_page)
                    no_prefs []) l tr' E).
  - vm_compute in E. discriminate.
Defined.

(** ** The result of a booking *)

Lemma well_formed_failure request msg : well_formed_result request (failure msg).
Proof. unfold well_formed_result, failure. cbn. auto. Qed.

Ltac result_goals :=
  try apply well_formed_failure;
  try (unfold well_formed_result; cbn; split; [reflexivity | eexists; reflexivity]).

Lemma step5_result page request courtName :
  yields any_command (well_formed_result request) (Booking.step5 page request courtName).
Proof. unfold Booking.step5. yields_steps; result_goals. Qed.

Lemma step4_result page request courtName :
  yields any_command (well_formed_result request) (Booking.step4 page request courtName).
Proof. unfold Booking.step4. yields_steps; apply step5_result. Qed.

Lemma step3_result page request courtName :
  yields any_command (well_formed_result request) (Booking.step3 page request courtName).
Proof.
  unfold Booking.step3, Booking.all, Booking.select_you, Booking.select_first_available.
  yields_steps; result_goals; apply step4_result.
Qed.

Lemma step2_result page request courtName :
  yields any_command (well_formed_result request) (Booking.step2 page request courtName).
Proof.
  unfold Booking.step2, Booking.relogin.
  yields_steps; result_goals; apply step3_result.
Qed.

Lemma step1_result page request courtName :
  yields any_command (well_formed_result request) (Booking.step1 page request courtName).
Proof.
  unfold Booking.step1, Booking.find_target.
  yields_steps; result_goals; apply step2_result.
Qed.

Lemma bookSlot_well_formed request w tr r tr' :
  Booking.bookSlot request w tr = (Ok r, tr') -> well_formed_result request r.
Proof.
  intros H.
  assert (Hy : yields any_command (well_formed_result request) (Booking.bookSlot request)).
  { unfold Booking.bookSlot. open_calls.
    eapply yields_bind; [yields_steps |]. intros page _.
    apply yields_try_finally; [| apply (yields_call _ Close); reflexivity].
    apply yields_try_catch.
    - unfold Booking.pipeline.
      eapply yields_bind with (Q := fun _ => True).
      + unfold Booking.arrive, Booking.ensureLoggedIn. yields_steps.
      + intros [p name] _. apply step1_result.
    - intros e. apply yields_ret. apply well_formed_failure. }
  exact (proj2 (Hy _ _ _ _ H) r eq_refl).
Qed.

(** Every result [bookSlot] returns is well formed: a success carries the
    fixed message and a slot with the time and the duration (in minutes)
    that were asked for; a failure carries no slot and no confirmation
    number. *)
Theorem bookSlot_result_shape :
  forall (request : BookingRequest) (w : World) (tr : Trace)
         (r : BookingResult) (tr' : Trace),
    Booking.bookSlot request w tr = (Ok r, tr') ->
    well_formed_result request r.
Proof. exact bookSlot_well_formed. Qed.

Lemma bookSlot_result_shape_witness :
  exists r tr',
    Booking.bookSlot (sample_request "09:00") (world_of you_disabled_page) [] = (Ok r, tr')
    /\ well_formed_result (sample_request "09:00") r.
Proof.
  destruct (Booking.bookSlot (sample_request "09:00") (world_of you_disabled_page) [])
    as [[r | e] tr'] eqn:E.
  - exists r, tr'. split; [reflexivity |].
    exact (bookSlot_result_shape _ _ _ _ _ E).
  - vm_compute in E. discriminate.
Defined.

(** Once [Place My Order] has been clicked and the page has settled,
    the booking is reported as a success unless the page shows an error
    text and none of the confirmation words: a confirmation is not
    required, and a page that shows nothing at all counts as success.
    Otherwise the result is the failure [Booking failed: ] followed by the
    error text. *)
Theorem success_needs_no_confirmation :
  forall (page : Page) (request : BookingRequest) (courtName : string)
         (w : World) (tr : Trace),
    respond w tr (IsVisible (Booking.placeOrderButton page)) = Ok true ->
    respond w (tr ++ [IsVisible (Booking.placeOrderButton page)])%list
            (Click (Booking.placeOrderButton page) false) = Ok tt ->
    respond w (tr ++ [IsVisible (Booking.placeOrderButton page);
                      Click (Booking.placeOrderButton page) false])%list
            (WaitForLoadState page "networkidle") = Ok tt ->
    respond w (tr ++ [IsVisible (Booking.placeOrderButton page);
                      Click (Booking.placeOrderButton page) false;
                      WaitForLoadState page "networkidle"])%list
            (WaitForTimeout page 3000) = Ok tt ->
    let pageText := text_or_empty w (ordered page tr) (Loc page "body") in
    let errorText :=
      text_or_empty w (ordered page tr ++ [InnerText (Loc page "body")])%list
                    (orderError page) in
    exists r tr',
      Booking.step5 page request courtName w tr = (Ok r, tr')
      /\ (success r = true <->
          (errorText = EmptyString \/ Booking.has_confirmation pageText = true))
      /\ (success r = false -> result_message r = "Booking failed: " ++ errorText).
Proof.
  intros page request courtName w tr Hvis Hclick Hload Hwait pageText errorText.
  unfold Booking.step5.
  rewrite (bind_ok _ _ _ _ _ _
             (or_else_ok _ false _ _ _ _
                (call_ok (IsVisible (Booking.placeOrderButton page)) w tr true Hvis))).
  cbn [negb].
  rewrite (bind_ok _ _ _ _ _ _
             (call_ok (Click (Booking.placeOrderButton page) false) w _ tt Hclick)).
  rewrite <- app_assoc. cbn [app].
  rewrite (bind_ok _ _ _ _ _ _ (call_ok (WaitForLoadState page "networkidle") w _ tt Hload)).
  rewrite <- app_assoc. cbn [app].
  rewrite (bind_ok _ _ _ _ _ _ (call_ok (WaitForTimeout page 3000) w _ tt Hwait)).
  rewrite <- app_assoc. cbn [app]. fold (ordered page tr).
  rewrite (bind_ok _ _ _ _ _ _ (or_else_text w (ordered page tr) (Loc page "body"))).
  fold pageText. fold (orderError page).
  rewrite (bind_ok _ _ _ _ _ _ (or_else_text w _ (orderError page))).
  fold errorText.
  destruct (nonempty errorText) eqn:Hne; cbn [andb].
  - destruct (Booking.has_confirmation pageText) eqn:Hconf; cbn [negb].
    + match goal with
      | |- context [bind (or_else ?m ?d) ?k w ?t] =>
          destruct (never_throws_or_else m d w t) as (n & tr1 & E);
          rewrite (bind_ok _ k _ _ _ _ E)
      end.
      unfold ret. eexists. eexists. split; [reflexivity |]. cbn.
      split; [split; auto | discriminate].
    + unfold ret. eexists. eexists. split; [reflexivity |]. cbn. split; [split |].
      * discriminate.
      * apply nonempty_iff in Hne. intros [H | H]; [contradiction | discriminate].
      * reflexivity.
  - assert (errorText = EmptyString) as Hempty by (now destruct errorText).
    match goal with
    | |- context [bind (or_else ?m ?d) ?k w ?t] =>
        destruct (never_throws_or_else m d w t) as (n & tr1 & E);
        rewrite (bind_ok _ k _ _ _ _ E)
    end.
    unfold ret. eexists. eexists. split; [reflexivity |]. cbn.
    split; [split; auto | discriminate].
Qed.

Lemma success_needs_no_confirmation_witness :
  exists r tr',
    Booking.step5 0 (sample_request "09:00") "Court 01" (world_of silent_page) []
    = (Ok r, tr')
    /\ success r = true.
Proof.
  destruct (success_needs_no_confirmation 0 (sample_request "09:00") "Court 01"
              (world_of silent_page) [] eq_refl eq_refl eq_refl eq_refl)
    as (r & tr' & E & Hiff & _).
  exists r, tr'. split; [exact E |]. apply Hiff. left. reflexivity.
Defined.

(** ** The marker that is clicked *)

Lemma after_call {B} (c : Cmd) (k : resp c -> M B) P (Q : B -> Prop) w t :
  (forall a, yields P Q (k a)) ->
  exists rest, snd (bind (call c) k w t) = (t ++ [c] ++ rest)%list.
Proof.
  intros Hk. unfold bind, call. destruct (respond w t c) as [a | e].
  - destruct (k a w (t ++ [c])%list) as [r tr'] eqn:E.
    destruct (Hk a _ _ _ _ E) as [(ext & -> & _) _].
    exists ext. cbn [snd]. now rewrite <- app_assoc.
  - exists []. cbn [snd]. now rewrite app_nil_r.
Qed.

Lemma find_target_first page label w :
  forall k from tr acc n,
    k < n ->
    (forall i tr2, from <= i < from + k -> exists a,
        respond w tr2 (GetAttribute (Nth (Booking.bookNowSpans page) i) "title") = Ok a
        /\ title_holds label a = false) ->
    (forall tr2, exists a,
        respond w tr2 (GetAttribute (Nth (Booking.bookNowSpans page) (from + k)) "title")
        = Ok a
        /\ title_holds label a = true) ->
    for_range n from
      (fun i (targetSpan : option Locator) =>
         let span := Nth (Booking.bookNowSpans page) i in
         a <- getAttribute span "title" ;;
         let titleAttr := nullish a EmptyString in
         if JS.includes (JS.toLowerCase titleAttr) (JS.toLowerCase label)
         then ret (Break (Some span))
         else ret (Continue targetSpan))
      acc w tr
    = (Ok (Some (Nth (Booking.bookNowSpans page) (from + k))),
       (tr ++ title_reads page from (S k))%list).
Proof.
  unfold title_holds.
  induction k as [| k IH]; intros from tr acc n Hn Hbefore Hat.
  - destruct n as [| n]; [lia |]. rewrite Nat.add_0_r in *.
    destruct (Hat tr) as (a & Ha & Hyes).
    cbn [for_range]. unfold bind at 1. unfold bind at 1.
    unfold getAttribute, call. rewrite Ha. cbv zeta. rewrite Hyes.
    unfold ret. reflexivity.
  - destruct n as [| n]; [lia |].
    destruct (Hbefore from tr ltac:(lia)) as (a & Ha & Hno).
    cbn [for_range]. unfold bind at 1. unfold bind at 1.
    unfold getAttribute, call. rewrite Ha. cbv zeta. rewrite Hno.
    unfold ret at 1.
    rewrite (IH (S from) _ acc n ltac:(lia)).
    + replace (S from + k) with (from + S k) by lia.
      unfold title_reads. cbn [seq map]. now rewrite <- app_assoc.
    + intros i tr2 Hi. apply Hbefore. lia.
    + intros tr2. replace (S from + k) with (from + S k) by lia. apply Hat.
Qed.

(** For a request whose [time_24h] has the form [HH:MM], STEP 1 of
    [bookSlot] clicks the first marker, in page order, whose title
    contains the 12-hour label of the requested time, wherever in the
    title the label stands: the titles are read up to that marker, which
    is then clicked.  (So a request for 16:00 clicks a marker titled
    [3:00 PM-4:00 PM] that comes before the one for 16:00.) *)
Theorem bookSlot_clicks_first_containing :
  forall (w : World) (page : Page) (request : BookingRequest) (courtName : string)
         (tr : Trace) (label : string) (n k : nat),
    is_hhmm (req_time_24h request) = true ->
    Booking.time12h (req_time_24h request) = Ok label ->
    respond w tr (Count (Booking.bookNowSpans page)) = Ok n ->
    k < n ->
    (forall i tr2, i < k -> exists a,
        respond w tr2 (GetAttribute (Nth (Booking.bookNowSpans page) i) "title") = Ok a
        /\ title_holds label a = false) ->
    (forall tr2, exists a,
        respond w tr2 (GetAttribute (Nth (Booking.bookNowSpans page) k) "title") = Ok a
        /\ title_holds label a = true) ->
    exists rest,
      snd (Booking.step1 page request courtName w tr)
      = (tr ++ [Count (Booking.bookNowSpans page)] ++ title_reads page 0 (S k)
            ++ [Click (Nth (Booking.bookNowSpans page) k) false] ++ rest)%list.
Proof.
  intros w page request courtName tr label n k Hform Hlabel Hcount Hk Hbefore Hat.
  unfold Booking.step1.
  rewrite (bind_ok (lift _) _ w tr label tr) by (unfold lift; now rewrite Hlabel).
  rewrite (bind_ok _ _ _ _ _ _ (call_ok (Count (Booking.bookNowSpans page)) w tr n Hcount)).
  assert (Hfind : Booking.find_target page label n w
                    (tr ++ [Count (Booking.bookNowSpans page)])%list
                  = (Ok (Some (Nth (Booking.bookNowSpans page) k)),
                     ((tr ++ [Count (Booking.bookNowSpans page)])
                        ++ title_reads page 0 (S k))%list)).
  { unfold Booking.find_target.
    apply (find_target_first page label w k 0 _ None n Hk).
    - intros i tr2 Hi. apply Hbefore. lia.
    - exact Hat. }
  rewrite (bind_ok _ _ _ _ _ _ Hfind).
  unfold click.
  destruct (after_call (Click (Nth (Booking.bookNowSpans page) k) false)
              (fun _ => waitForTimeout page 2000 ;; Booking.step2 page request courtName)
              any_command (well_formed_result request) w
              ((tr ++ [Count (Booking.bookNowSpans page)]) ++ title_reads page 0 (S k))%list)
    as (rest & Hrest).
  { intros u. yields_steps. apply step2_result. }
  rewrite <- !app_assoc in Hrest. rewrite app_assoc in Hrest.
  exists rest. cbv beta iota. rewrite <- Hrest.
  rewrite <- !app_assoc. reflexivity.
Qed.

Lemma bookSlot_clicks_first_containing_witness :
  exists rest,
    snd (Booking.step1 0 (sample_request "16:00") "Court 01"
           (world_of (marker_page ["3:00 PM-4:00 PM"; "4:00 PM-5:00 PM"])) [])
    = ([Count (Booking.bookNowSpans 0);
        GetAttribute (Nth (Booking.bookNowSpans 0) 0) "title";
        Click (Nth (Booking.bookNowSpans 0) 0) false] ++ rest)%list.
Proof.
  refine (bookSlot_clicks_first_containing
            (world_of (marker_page ["3:00 PM-4:00 PM"; "4:00 PM-5:00 PM"]))
            0 (sample_request "16:00") "Court 01" [] "4:00 PM" 2 0
            eq_refl eq_refl eq_refl _ _ _).
  - lia.
  - intros i tr2 Hi. lia.
  - intros tr2. eexists. split; reflexivity.
Defined.

(** ** [POST /book] *)

Lemma bookSlot_success_after_order request w tr r tr' :
  Booking.bookSlot request w tr = (Ok r, tr') ->
  success r = true ->
  exists page, In (Click (Booking.placeOrderButton page) false) tr'.
Proof.
  intros H Hs. unfold Booking.bookSlot in H.
  apply bind_inv_ok in H. destruct H as (page0 & tr0 & _ & H).
  apply try_finally_inv_ok in H. destruct H as (tr1 & H & Hc).
  unfold call in Hc. inversion Hc; subst tr'.
  unfold try_catch in H.
  destruct (Booking.pipeline page0 request w tr0) as [[r0 | e] tr2] eqn:Hp.
  - inversion H; subst. unfold Booking.pipeline in Hp.
    apply bind_inv_ok in Hp. destruct Hp as ([page courtName] & tr3 & _ & Hstep).
    destruct (step1_success page request courtName _ _ _ _ Hstep Hs) as (Hin & _).
    exists page. apply in_or_app. now left.
  - unfold ret in H. inversion H; subst. discriminate.
Qed.

(** [POST /book] in front of [bookSlot] always answers.  It answers 200
    only when [bookSlot] reported a success, hence only after
    [Place My Order] has been clicked, and then with the slot that was
    asked for; every failure, of the body, of the booking or of the
    browser, is answered 400, and a request without the token 401. *)
Theorem book_answers_200_only_after_order :
  forall (printed : string) (w : World) (tr : Trace) (authorization : option string)
         (parsed : Result BookingRequest),
    exists resp tr',
      Server.book printed Booking.bookSlot authorization parsed w tr = (Ok resp, tr')
      /\ (status resp = 200 \/ status resp = 400 \/ status resp = 401)
      /\ (status resp = 200 ->
          exists request r page,
            parsed = Ok request
            /\ Booking.bookSlot request w tr = (Ok r, tr')
            /\ body resp = Server.json_of_result r
            /\ success r = true
            /\ well_formed_result request r
            /\ In (Click (Booking.placeOrderButton page) false) tr').
Proof.
  intros printed w tr authorization parsed.
  unfold Server.book, Server.requireBearer, bind at 1, env.
  destruct (negb (nonempty (Server.bearer_token authorization))
            || Server.differs (Server.bearer_token authorization)
                 (process_env w "BOOKER_GPT_TOKEN")).
  - eexists. eexists. split; [reflexivity |]. cbn. split; [auto | discriminate].
  - unfold try_catch, bind, lift, ret.
    destruct parsed as [request | e].
    + destruct (Booking.bookSlot request w tr) as [[r | e] t1] eqn:Hrun.
      * destruct (success r) eqn:Hs.
        -- eexists. eexists. split; [reflexivity |]. cbn. split; [auto |].
           intros _. destruct (bookSlot_success_after_order _ _ _ _ _ Hrun Hs) as (page & Hin).
           exists request, r, page. repeat split; auto.
           exact (bookSlot_well_formed _ _ _ _ _ Hrun).
        -- eexists. eexists. split; [reflexivity |]. cbn. split; [auto | discriminate].
      * eexists. eexists. split; [reflexivity |]. cbn. split; [auto | discriminate].
    + eexists. eexists. split; [reflexivity |]. cbn. split; [auto | discriminate].
Qed.

(** ** Typing the credentials *)

Lemma yields_run {A} P (Q : A -> Prop) (m : M A) w tr a tr' :
  yields P Q m -> m w tr = (Ok a, tr') ->
  exists ext, tr' = (tr ++ ext)%list /\ forallb P ext = true.
Proof. intros Hm H. exact (proj1 (Hm _ _ _ _ H)). Qed.

(** When [ensureLoggedIn] of [src/unnamed/part_003] returns after having
    seen the [Login] control, both [UBC_USER] and [UBC_PASS] are set and
    not empty, and the run has ended with: wait for the two fields, type
    [UBC_USER] into the username field and [UBC_PASS] into the password
    field, click the submit button, wait for the network, and at most one
    navigation back to the court list.  Nothing was typed before. *)
Theorem ensureLoggedIn_types_credentials :
  forall (w : World) (page : Page) (tr : Trace) (page' : Page) (tr' : Trace),
    Booking.ensureLoggedIn page w tr = (Ok page', tr') ->
    respond w tr (IsVisible (Booking.loginButton page)) = Ok true ->
    exists user pass before after,
      process_env w "UBC_USER" = Some user /\ user <> EmptyString
      /\ process_env w "UBC_PASS" = Some pass /\ pass <> EmptyString
      /\ tr' = (tr ++ before ++ types_credentials page' user pass ++ after)%list
      /\ forallb no_fill before = true
      /\ (after = []
          \/ after = [Goto page' (nullish (process_env w "UBC_BASE_URL") DEFAULT_BASE_URL)
                        "networkidle"]).
Proof.
  intros w page tr page' tr' H Hvis.
  unfold Booking.ensureLoggedIn in H.
  rewrite (bind_ok _ _ _ _ _ _
             (or_else_ok _ false _ _ _ _
                (call_ok (IsVisible (Booking.loginButton page)) w tr true Hvis))) in H.
  cbn [negb] in H.
  apply bind_inv_ok in H. destruct H as (maybeNewPage & t1 & E1 & H).
  apply (yields_run no_fill (fun _ => True)) in E1; [| yields_steps].
  destruct E1 as (x1 & -> & X1).
  cbv zeta in H.
  apply bind_inv_ok in H. destruct H as (u2 & t2 & E2 & H).
  apply (yields_run no_fill (fun _ => True)) in E2; [| yields_steps].
  destruct E2 as (x2 & -> & X2).
  apply bind_inv_ok in H. destruct H as (cwlButton & t3 & E3 & H).
  apply (yields_run no_fill (fun _ => True)) in E3; [| yields_steps].
  destruct E3 as (x3 & -> & X3).
  apply bind_inv_ok in H. destruct H as (authPage & t4 & E4 & H).
  apply (yields_run no_fill (fun _ => True)) in E4; [| yields_steps].
  destruct E4 as (x4 & -> & X4).
  unfold bind at 1, Booking.env_or_empty at 1, read at 1 in H.
  unfold bind at 1, Booking.env_or_empty at 1, read at 1 in H.
  destruct (process_env w "UBC_USER") as [user |] eqn:Huser;
    [| cbn in H; discriminate].
  destruct (process_env w "UBC_PASS") as [pass |] eqn:Hpass;
    [| cbn [nullish nonempty negb orb] in H; rewrite orb_true_r in H; discriminate].
  cbn [nullish] in H.
  destruct (nonempty user) eqn:Nu; [| cbn in H; discriminate].
  destruct (nonempty pass) eqn:Np; [| cbn in H; discriminate].
  cbn [negb orb] in H. cbv zeta in H.
  fold (cwlUsername authPage) (cwlPassword authPage) (cwlSubmit authPage) in H.
  apply bind_inv_ok in H. destruct H as (u5 & t5 & E5 & H).
  apply (call_inv_ok (WaitFor (cwlUsername authPage))) in E5. destruct E5 as [_ ->].
  apply bind_inv_ok in H. destruct H as (u6 & t6 & E6 & H).
  apply (call_inv_ok (WaitFor (cwlPassword authPage))) in E6. destruct E6 as [_ ->].
  apply bind_inv_ok in H. destruct H as (u7 & t7 & E7 & H).
  apply (call_inv_ok (Fill (cwlUsername authPage) user)) in E7. destruct E7 as [_ ->].
  apply bind_inv_ok in H. destruct H as (u8 & t8 & E8 & H).
  apply (call_inv_ok (Fill (cwlPassword authPage) pass)) in E8. destruct E8 as [_ ->].
  apply bind_inv_ok in H. destruct H as (u9 & t9 & E9 & H).
  apply (call_inv_ok (Click (cwlSubmit authPage) false)) in E9. destruct E9 as [_ ->].
  apply bind_inv_ok in H. destruct H as (u10 & t10 & E10 & H).
  apply (call_inv_ok (WaitForLoadState authPage "networkidle")) in E10.
  destruct E10 as [_ ->].
  unfold bind at 1, Booking.BASE_URL at 1, read at 1 in H. cbv zeta in H.
  unfold bind at 1, url at 1 in H.
  exists user, pass, ([IsVisible (Booking.loginButton page)] ++ x1 ++ x2 ++ x3 ++ x4)%list.
  match type of H with
  | context [if ?c then _ else _] => destruct c
  end.
  - apply bind_inv_ok in H. destruct H as (u11 & t11 & E11 & H).
    apply (call_inv_ok (Goto authPage _ "networkidle")) in E11. destruct E11 as [_ ->].
    unfold ret in H. inversion H; subst.
    eexists. repeat split; [now apply nonempty_iff | now apply nonempty_iff | | | right; reflexivity].
    + unfold types_credentials. rewrite <- !app_assoc. reflexivity.
    + rewrite !forallb_app. cbn [forallb no_fill andb]. now rewrite X1, X2, X3, X4.
  - unfold bind, ret in H. inversion H; subst.
    exists []. repeat split; [now apply nonempty_iff | now apply nonempty_iff | | | now left].
    + unfold types_credentials. rewrite <- !app_assoc. reflexivity.
    + rewrite !forallb_app. cbn [forallb no_fill andb]. now rewrite X1, X2, X3, X4.
Qed.

Lemma ensureLoggedIn_types_credentials_witness :
  exists user pass before after,
    user <> EmptyString /\ pass <> EmptyString
    /\ snd (Booking.ensureLoggedIn 0 login_world [])
       = (before ++ types_credentials 0 user pass ++ after)%list.
Proof.
  destruct (Booking.ensureLoggedIn 0 login_world []) as [[p | e] t] eqn:E;
    [| vm_compute in E; discriminate].
  assert (p = 0) by (vm_compute in E; now inversion E). subst p.
  destruct (ensureLoggedIn_types_credentials login_world 0 [] 0 t E eq_refl)
    as (user & pass & before & after & _ & Hu & _ & Hp & Ht & _).
  exists user, pass, before, after. auto.
Defined.

(** ** Notifications *)

Lemma postMessage_run token text chat net tr :
  Notify.postMessage token text chat net tr
  = match Notify.reply net tr (Notify.Fetch (Notify.sendMessageUrl token) chat text) with
    | Ok (true, _) =>
        (Ok tt, (tr ++ [Notify.Fetch (Notify.sendMessageUrl token) chat text])%list)
    | Ok (false, status) =>
        match Notify.reply net
                (tr ++ [Notify.Fetch (Notify.sendMessageUrl token) chat text])%list
                Notify.RespText with
        | Ok body =>
            (Err (mkError ("Telegram sendMessage failed: " ++ JS.toString status
                           ++ " " ++ body)),
             (tr ++ [Notify.Fetch (Notify.sendMessageUrl token) chat text;
                     Notify.RespText])%list)
        | Err e =>
            (Err e, (tr ++ [Notify.Fetch (Notify.sendMessageUrl token) chat text;
                            Notify.RespText])%list)
        end
    | Err e => (Err e, (tr ++ [Notify.Fetch (Notify.sendMessageUrl token) chat text])%list)
    end.
Proof.
  unfold Notify.postMessage, Notify.bind, Notify.call, Notify.throw, Notify.ret.
  destruct (Notify.reply net tr _) as [[[|] status] | e]; cbn [fst snd negb]; try reflexivity.
  rewrite <- app_assoc. cbn [app].
  now destruct (Notify.reply net _ Notify.RespText).
Qed.

Lemma notify_run :
  forall (env : Notify.Env) (payload : Notify.NotifyPayload)
         (net : Notify.Net) (tr : list Notify.Out),
    (forall via tr',
        Notify.notify env payload net tr = (Ok via, tr') ->
        exists o,
          tr' = (tr ++ [o])%list /\ is_send o = true
          /\ match via with
             | Notify.ViaTelegram chat =>
                 chat <> EmptyString
                 /\ exists t,
                      Notify.telegram env = Some t
                      /\ Notify.chat_of t payload = Some chat
                      /\ o = Notify.Fetch (Notify.sendMessageUrl (Notify.botToken t)) chat
                                          (Notify.text payload)
             | Notify.ViaEmail recipient =>
                 recipient <> EmptyString
                 /\ ~ chat_available env payload
                 /\ exists s transport,
                      Notify.smtp env = Some s
                      /\ recipient = Notify.recipient_of s payload
                      /\ o = Notify.SendMail transport
                               {| Notify.m_from := Notify.from s;
                                  Notify.m_to := recipient;
                                  Notify.m_subject := "UBC Tennis Booker";
                                  Notify.m_text := Notify.text payload |}
             end)
    /\ (~ chat_available env payload -> ~ recipient_available env payload ->
        Notify.notify env payload net tr = (Err Notify.nothing_available, tr)).
Proof.
  intros env payload net tr.
  assert (Hmail : forall via tr',
             Notify.notify_by_mail env payload net tr = (Ok via, tr') ->
             exists o,
               tr' = (tr ++ [o])%list /\ is_send o = true
               /\ exists recipient s transport,
                    via = Notify.ViaEmail recipient
                    /\ recipient <> EmptyString
                    /\ Notify.smtp env = Some s
                    /\ recipient = Notify.recipient_of s payload
                    /\ o = Notify.SendMail transport
                             {| Notify.m_from := Notify.from s;
                                Notify.m_to := recipient;
                                Notify.m_subject := "UBC Tennis Booker";
                                Notify.m_text := Notify.text payload |}).
  { intros via tr' H. unfold Notify.notify_by_mail in H.
    destruct (Notify.smtp env) as [s |] eqn:Hs; [| discriminate].
    destruct (nonempty (Notify.recipient_of s payload)) eqn:Hne; [| discriminate].
    unfold Notify.bind, Notify.sendEmail, Notify.call, Notify.ret in H. rewrite Hs in H.
    destruct (Notify.reply net tr _) as [[] | e]; [| discriminate].
    inversion H; subst. eexists. split; [reflexivity |]. split; [reflexivity |].
    eexists. exists s. eexists. repeat split. now apply nonempty_iff. }
  assert (Hnone : ~ recipient_available env payload ->
                  Notify.notify_by_mail env payload net tr
                  = (Err Notify.nothing_available, tr)).
  { intros Hno. unfold Notify.notify_by_mail.
    destruct (Notify.smtp env) as [s |] eqn:Hs; [| reflexivity].
    destruct (nonempty (Notify.recipient_of s payload)) eqn:Hne; [| reflexivity].
    elim Hno. exists s. split; [exact Hs | now apply nonempty_iff]. }
  split.
  - intros via tr' H. unfold Notify.notify in H.
    destruct (Notify.telegram env) as [t |] eqn:Ht.
    + destruct (Notify.chat_of t payload) as [[| c s] |] eqn:Hc.
      * destruct (Hmail _ _ H) as (o & Htr & Hsend & r & s & tp & -> & Hne & Hs & Hr & Ho).
        exists o. repeat split; auto.
        -- intros (t' & c' & s' & Ht' & Hc'). congruence.
        -- exists s, tp. auto.
      * unfold Notify.bind, Notify.sendTelegram in H. rewrite Ht in H.
        rewrite postMessage_run in H.
        destruct (Notify.reply net tr _) as [[[|] status] | e].
        -- unfold Notify.ret in H. inversion H; subst.
           eexists. split; [reflexivity |]. split; [reflexivity |].
           split; [discriminate |]. exists t. auto.
        -- destruct (Notify.reply net _ Notify.RespText); discriminate.
        -- discriminate.
      * destruct (Hmail _ _ H) as (o & Htr & Hsend & r & s & tp & -> & Hne & Hs & Hr & Ho).
        exists o. repeat split; auto.
        -- intros (t' & c' & s' & Ht' & Hc'). congruence.
        -- exists s, tp. auto.
    + destruct (Hmail _ _ H) as (o & Htr & Hsend & r & s & tp & -> & Hne & Hs & Hr & Ho).
      exists o. repeat split; auto.
      * intros (t' & c' & s' & Ht' & Hc'). congruence.
      * exists s, tp. auto.
  - intros Hchat Hrec. unfold Notify.notify.
    destruct (Notify.telegram env) as [t |] eqn:Ht; [| now apply Hnone].
    destruct (Notify.chat_of t payload) as [[| c s] |] eqn:Hc; try now apply Hnone.
    elim Hchat. now exists t, c, s.
Qed.

(** [notify] of [src/notify.ts] returns only after exactly one message
    has been handed over: to the Telegram API when a bot is configured
    and a chat is at hand (the one of the request, else the configured
    one, blanks trimmed), otherwise as a mail to the requested or the
    configured recipient.  When neither a chat nor a recipient is at
    hand it throws and nothing is sent. *)
Theorem notify_hands_over_once :
  forall (env : Notify.Env) (payload : Notify.NotifyPayload)
         (net : Notify.Net) (tr : list Notify.Out),
    (forall via tr',
        Notify.notify env payload net tr = (Ok via, tr') ->
        exists o,
          tr' = (tr ++ [o])%list /\ is_send o = true
          /\ match via with
             | Notify.ViaTelegram chat =>
                 chat <> EmptyString
                 /\ exists t,
                      Notify.telegram env = Some t
                      /\ Notify.chat_of t payload = Some chat
                      /\ o = Notify.Fetch (Notify.sendMessageUrl (Notify.botToken t)) chat
                                          (Notify.text payload)
             | Notify.ViaEmail recipient =>
                 recipient <> EmptyString
                 /\ ~ chat_available env payload
                 /\ exists s transport,
                      Notify.smtp env = Some s
                      /\ recipient = Notify.recipient_of s payload
                      /\ o = Notify.SendMail transport
                               {| Notify.m_from := Notify.from s;
                                  Notify.m_to := recipient;
                                  Notify.m_subject := "UBC Tennis Booker";
                                  Notify.m_text := Notify.text payload |}
             end)
    /\ (~ chat_available env payload -> ~ recipient_available env payload ->
        Notify.notify env payload net tr = (Err Notify.nothing_available, tr)).
Proof. exact notify_run. Qed.

Lemma notify_hands_over_once_witness :
  Notify.notify {| Notify.smtp := None; Notify.telegram := None |} plain_payload
    (obliging (fun _ => None)) []
  = (Err Notify.nothing_available, []).
Proof.
  apply (proj2 (notify_hands_over_once {| Notify.smtp := None; Notify.telegram := None |}
                  plain_payload (obliging (fun _ => None)) [])).
  - intros (t & c & s & Ht & _). discriminate.
  - intros (s & Hs & _). discriminate.
Defined.

(** When a bot is configured and a chat is at hand, [notify] never falls
    back to mail: whatever the Telegram API answers, no mail is sent, and
    when the API refuses the request [notify] throws
    [Telegram sendMessage failed: <status> <body>], SMTP configured or
    not. *)
Theorem notify_telegram_failure_is_final :
  forall (env : Notify.Env) (payload : Notify.NotifyPayload)
         (net : Notify.Net) (tr : list Notify.Out),
    chat_available env payload ->
    (exists ext,
        snd (Notify.notify env payload net tr) = (tr ++ ext)%list
        /\ forallb (fun o => negb (is_mail o)) ext = true)
    /\ (forall t chat status body,
          Notify.telegram env = Some t ->
          Notify.chat_of t payload = Some chat ->
          Notify.reply net tr
            (Notify.Fetch (Notify.sendMessageUrl (Notify.botToken t)) chat
                          (Notify.text payload)) = Ok (false, status) ->
          Notify.reply net
            (tr ++ [Notify.Fetch (Notify.sendMessageUrl (Notify.botToken t)) chat
                                 (Notify.text payload)])%list
            Notify.RespText = Ok body ->
          fst (Notify.notify env payload net tr)
          = Err (mkError ("Telegram sendMessage failed: " ++ JS.toString status
                          ++ " " ++ body))).
Proof.
  intros env payload net tr (t & c & s & Ht & Hc).
  unfold Notify.notify. rewrite Ht, Hc.
  unfold Notify.bind, Notify.sendTelegram. rewrite Ht. rewrite postMessage_run.
  split.
  - destruct (Notify.reply net tr _) as [[[|] status] | e].
    + eexists. split; reflexivity.
    + destruct (Notify.reply net _ Notify.RespText); eexists; split; reflexivity.
    + eexists. split; reflexivity.
  - intros t' chat status body Ht' Hc' Hfetch Htext.
    inversion Ht'; subst t'. rewrite Hc in Hc'. inversion Hc'; subst chat.
    now rewrite Hfetch, Htext.
Qed.

Lemma notify_telegram_failure_is_final_witness :
  Notify.notify both_env plain_payload (refusing (fun _ => None)) []
  = (Err (mkError "Telegram sendMessage failed: 403 Forbidden"),
     [Notify.Fetch "https://api.telegram.org/bot123:abc/sendMessage" "42"
                   "Court 3 is free at 19:00";
      Notify.RespText]).
Proof.
  assert (Hchat : chat_available both_env plain_payload).
  { eexists. eexists. eexists. split; reflexivity. }
  pose proof (proj2 (notify_telegram_failure_is_final both_env plain_payload
                       (refusing (fun _ => None)) [] Hchat)
                _ "42" 403 "Forbidden" eq_refl eq_refl eq_refl eq_refl) as Hfst.
  destruct (Notify.notify both_env plain_payload (refusing (fun _ => None)) [])
    as [r t] eqn:E.
  cbn [fst] in Hfst. subst r. f_equal.
  vm_compute in E. now inversion E.
Defined.

Ltac split_cases :=
  repeat match goal with
    | |- context [match ?x with _ => _ end] => destruct x eqn:?
    | |- context [if ?x then _ else _] => destruct x eqn:?
    end.

Ltac answer_goal :=
  eexists; eexists; (split; [reflexivity |]);
  unfold Notify.notify_failed, Notify.no_recipient, Notify.no_notifier, unauthorized;
  cbn [status];
  repeat split;
  try (intros; discriminate);
  try (intros; reflexivity);
  try (intros [H | [H | H]]; discriminate);
  try (intros _; eexists; split; [reflexivity | reflexivity]);
  try tauto;
  try lia.

Lemma net_requireBearer_test net authorization :
  negb (nonempty (Server.bearer_token authorization))
  || Server.differs (Server.bearer_token authorization)
       (Notify.net_env net "BOOKER_GPT_TOKEN")
  = false
  <-> net_bears_token net authorization.
Proof.
  rewrite orb_false_iff, negb_false_iff, nonempty_iff. unfold net_bears_token. split.
  - intros [Hne Hsame]. exists (Server.bearer_token authorization).
    split; [exact Hne |]. split.
    + now apply (bearer_token_spec authorization _ Hne).
    + unfold Server.differs in Hsame.
      destruct (Notify.net_env net "BOOKER_GPT_TOKEN") as [e |]; [| discriminate].
      apply negb_false_iff, String.eqb_eq in Hsame. now subst.
  - intros (token & Hne & Hauth & Henv).
    apply (bearer_token_spec authorization token Hne) in Hauth.
    rewrite Hauth, Henv. split; [exact Hne |].
    unfold Server.differs. now rewrite String.eqb_refl.
Qed.

Lemma net_requireBearer_run net tr authorization (next : Notify.N Response) :
  (net_bears_token net authorization ->
   Notify.requireBearer authorization next net tr = next net tr)
  /\ (~ net_bears_token net authorization ->
      Notify.requireBearer authorization next net tr = (Ok unauthorized, tr)).
Proof.
  unfold Notify.requireBearer, Notify.bind, Notify.getenv.
  destruct (negb (nonempty (Server.bearer_token authorization))
            || Server.differs (Server.bearer_token authorization)
                 (Notify.net_env net "BOOKER_GPT_TOKEN")) eqn:E.
  - split; [| reflexivity]. intros H. apply net_requireBearer_test in H. congruence.
  - split; [reflexivity |]. intros H. elim H. now apply net_requireBearer_test.
Qed.

Lemma net_bears_dec net authorization :
  net_bears_token net authorization \/ ~ net_bears_token net authorization.
Proof.
  destruct (negb (nonempty (Server.bearer_token authorization))
            || Server.differs (Server.bearer_token authorization)
                 (Notify.net_env net "BOOKER_GPT_TOKEN")) eqn:E.
  - right. intros H. apply net_requireBearer_test in H. congruence.
  - left. now apply net_requireBearer_test.
Qed.

Ltac route_close :=
  intros;
  repeat match goal with
    | H : ~ ?P, H' : ?P |- _ => elim (H H')
    | H : Ok _ = Err _ |- _ => discriminate H
    | H : Err _ = Ok _ |- _ => discriminate H
    | H : Ok _ = Ok _ |- _ => inversion H; clear H; subst
    | H : Err _ = Err _ |- _ => inversion H; clear H; subst
    | H : ?x = (_, _), H' : ?x = (_, _) |- _ => rewrite H in H'
    | H : (_, _) = (_, _) |- _ => inversion H; clear H; subst
    end;
  try discriminate; try reflexivity; try (now left); try (now right); auto.

Lemma trace_first {X} (tr : list X) a o rest :
  (tr ++ a)%list = (tr ++ o :: rest)%list -> a = o :: rest.
Proof. apply app_inv_head. Qed.

Ltac inline_close :=
  intros;
  repeat match goal with
    | H : ~ ?P, H' : ?P |- _ => elim (H H')
    | H : _ \/ _ |- _ => destruct H
    | H : Ok _ = Err _ |- _ => discriminate H
    | H : Err _ = Ok _ |- _ => discriminate H
    | H : Ok _ = Ok _ |- _ => inversion H; clear H; subst
    | H : Err _ = Err _ |- _ => inversion H; clear H; subst
    | H : ?tr = (?tr ++ _ :: _)%list |- _ =>
        rewrite <- (app_nil_r tr) in H at 1; apply trace_first in H; discriminate H
    | H : (?tr ++ _)%list = (?tr ++ _ :: _)%list |- _ =>
        apply trace_first in H; inversion H; clear H; subst
    | H : delivered _ _ _ = _ |- _ => unfold delivered in H
    | H : ?x = _, H' : context [?x] |- _ =>
        match x with Notify.reply _ _ _ => rewrite H in H' end
    end;
  try discriminate; try reflexivity; try (now left); try (now right); auto.


(** [POST /notify] of [src/unnamed/part_001], in front of [notify],
    always answers: 401 without the token and nothing else is done; with
    the token, 200 with [notify]'s result when [notify] returned, hence
    after exactly one message has been handed over, and 502
    [Notify failed] with the error's message otherwise, be it that the
    body was rejected (then nothing is sent), that nothing was available or
    that the message could not be delivered. *)
Theorem notify_route_answers :
  forall (printed : string) (env : Notify.Env) (authorization : option string)
         (parsed : Result Notify.NotifyPayload) (net : Notify.Net)
         (tr : list Notify.Out),
    exists resp tr',
      Notify.notify_route printed env authorization parsed net tr = (Ok resp, tr')
      /\ (status resp = 200 \/ status resp = 401 \/ status resp = 502)
      /\ (status resp = 200 ->
          exists payload via o,
            parsed = Ok payload
            /\ Notify.notify env payload net tr = (Ok via, tr')
            /\ body resp = Notify.json_of_via via
            /\ tr' = (tr ++ [o])%list /\ is_send o = true)
      /\ (forall e, parsed = Err e ->
          status resp = 401 \/ resp = Notify.notify_failed printed e)
      /\ (~ net_bears_token net authorization -> resp = unauthorized /\ tr' = tr)
      /\ (net_bears_token net authorization ->
          (forall payload via tr1,
              parsed = Ok payload ->
              Notify.notify env payload net tr = (Ok via, tr1) ->
              resp = {| status := 200; body := Notify.json_of_via via |} /\ tr' = tr1)
          /\ (forall payload e tr1,
                 parsed = Ok payload ->
                 Notify.notify env payload net tr = (Err e, tr1) ->
                 resp = Notify.notify_failed printed e /\ tr' = tr1)
          /\ (forall e, parsed = Err e ->
                resp = Notify.notify_failed printed e /\ tr' = tr)).
Proof.
  intros printed env authorization parsed net tr.
  unfold Notify.notify_route.
  destruct (net_requireBearer_run net tr authorization
              (Notify.try_catch
                 (Notify.bind (Notify.lift parsed)
                    (fun payload =>
                       Notify.bind (Notify.notify env payload)
                         (fun result =>
                            Notify.ret {| status := 200;
                                          body := Notify.json_of_via result |})))
                 (fun err => Notify.ret (Notify.notify_failed printed err))))
    as [Hin Hout].
  destruct (net_bears_dec net authorization) as [Hb | Hnb].
  2:{ rewrite (Hout Hnb). exists unauthorized, tr. split; [reflexivity |].
      cbn [unauthorized status]. repeat split; route_close. }
  rewrite (Hin Hb). clear Hin Hout.
  unfold Notify.try_catch.
  destruct parsed as [payload | e0].
  2:{ unfold Notify.bind, Notify.lift, Notify.ret.
      exists (Notify.notify_failed printed e0), tr. split; [reflexivity |].
      cbn [Notify.notify_failed status]. repeat split; route_close. }
  unfold Notify.bind at 1, Notify.lift at 1. unfold Notify.bind.
  destruct (Notify.notify env payload net tr) as [[via | e] tr1] eqn:E.
  - destruct (proj1 (notify_run env payload net tr) via tr1 E) as (o & -> & Hsend & _).
    unfold Notify.ret. eexists. eexists. split; [reflexivity |]. cbn [status body].
    split; [auto |]. split; [intros _; exists payload, via, o; auto |].
    repeat split; route_close.
  - unfold Notify.ret.
    exists (Notify.notify_failed printed e), tr1. split; [reflexivity |].
    cbn [Notify.notify_failed status]. repeat split; route_close.
Qed.

(** ** The first notifier *)

(** [notifyAny] of [src/unnamed/part_000].  With the bot and its chat
    configured, an answered request counts as delivered whatever its
    status: [notifyAny] returns and no mail is sent; only a request that is
    rejected leads on to the mail.  With nothing configured it returns
    without having sent anything, and without an error. *)
Theorem notifyAny_takes_any_answer :
  forall (emailTo : option string) (text : string) (net : Notify.Net)
         (tr : list Notify.Out),
    (forall token chat answer,
        Notify.net_env net "TELEGRAM_BOT_TOKEN" = Some token -> token <> EmptyString ->
        Notify.net_env net "TELEGRAM_CHAT_ID" = Some chat -> chat <> EmptyString ->
        Notify.reply net tr (Notify.Fetch (Notify.sendMessageUrl token) chat text)
        = Ok answer ->
        NotifyAny.notifyAny emailTo text net tr
        = (Ok tt, (tr ++ [Notify.Fetch (Notify.sendMessageUrl token) chat text])%list))
    /\ (~ telegram_set net -> ~ mail_set net emailTo ->
        NotifyAny.notifyAny emailTo text net tr = (Ok tt, tr))
    /\ (forall r tr',
          NotifyAny.notifyAny emailTo text net tr = (r, tr') ->
          exists ext, tr' = (tr ++ ext)%list /\ List.length ext <= 2
                      /\ List.length (filter is_mail ext) <= 1).
Proof.
  intros emailTo text net tr. split; [| split].
  - intros token chat answer Htoken Hne1 Hchat Hne2 Hreply.
    unfold NotifyAny.notifyAny, Notify.bind at 1, Notify.try_catch, NotifyAny.sendTelegram.
    unfold Notify.bind, Notify.getenv, Notify.call, Notify.ret.
    rewrite Htoken, Hchat.
    destruct token as [| c1 s1]; [now elim Hne1 |].
    destruct chat as [| c2 s2]; [now elim Hne2 |].
    now rewrite Hreply.
  - intros Htele Hmail.
    unfold NotifyAny.notifyAny, Notify.bind at 1, Notify.try_catch, NotifyAny.sendTelegram.
    unfold Notify.bind at 1, Notify.getenv at 1.
    unfold Notify.bind at 1, Notify.getenv at 1.
    assert (Hno : match Notify.net_env net "TELEGRAM_BOT_TOKEN",
                        Notify.net_env net "TELEGRAM_CHAT_ID" with
                  | Some (String _ _), Some (String _ _) => False
                  | _, _ => True
                  end).
    { destruct (Notify.net_env net "TELEGRAM_BOT_TOKEN") as [[| c1 s1] |] eqn:E1; auto.
      destruct (Notify.net_env net "TELEGRAM_CHAT_ID") as [[| c2 s2] |] eqn:E2; auto.
      apply Htele. unfold telegram_set. now rewrite E1, E2. }
    destruct (Notify.net_env net "TELEGRAM_BOT_TOKEN") as [[| c1 s1] |];
      destruct (Notify.net_env net "TELEGRAM_CHAT_ID") as [[| c2 s2] |];
      try contradiction;
      unfold Notify.ret at 1; cbv iota;
      unfold NotifyAny.mail_fallback, Notify.bind, Notify.getenv;
      (destruct (Notify.truthy emailTo) eqn:T1;
       destruct (Notify.truthy (Notify.net_env net "SMTP_USER")) eqn:T2;
       destruct (Notify.truthy (Notify.net_env net "SMTP_PASS")) eqn:T3;
       destruct (Notify.truthy (Notify.net_env net "EMAIL_TO")) eqn:T4;
       cbn [andb]; try reflexivity;
       elim Hmail; unfold mail_set; rewrite ?T1, ?T2, ?T3, ?T4; auto).
  - intros r tr' H.
    unfold NotifyAny.notifyAny, Notify.bind at 1, Notify.try_catch, NotifyAny.sendTelegram in H.
    unfold Notify.bind at 1, Notify.getenv at 1 in H.
    unfold Notify.bind at 1, Notify.getenv at 1 in H.
    assert (Hmailrun : forall recipient subject t r0 t0,
               NotifyAny.sendEmail recipient subject text net t = (r0, t0) ->
               exists o, t0 = (t ++ [o])%list).
    { intros recipient subject t r0 t0 Hs.
      unfold NotifyAny.sendEmail, Notify.bind, Notify.getenv, Notify.call in Hs.
      inversion Hs. eexists. reflexivity. }
    assert (Hrest : forall t r0 t0,
               NotifyAny.mail_fallback emailTo text net t = (r0, t0) ->
               t0 = t \/ exists o, t0 = (t ++ [o])%list).
    { intros t r0 t0 Hs.
      unfold NotifyAny.mail_fallback, Notify.bind at 1 2 3, Notify.getenv in Hs.
      destruct (Notify.truthy emailTo && _ && _).
      - right. exact (Hmailrun _ _ _ _ _ Hs).
      - destruct (Notify.truthy _ && _ && _).
        + right. exact (Hmailrun _ _ _ _ _ Hs).
        + left. unfold Notify.ret in Hs. now inversion Hs. }
    destruct (Notify.net_env net "TELEGRAM_BOT_TOKEN") as [[| c1 s1] |];
      destruct (Notify.net_env net "TELEGRAM_CHAT_ID") as [[| c2 s2] |];
      try (unfold Notify.ret at 1 in H; cbv iota in H;
           destruct (Hrest _ _ _ H) as [-> | (o & ->)];
           [exists []; rewrite app_nil_r; cbn; repeat split; lia
           | exists [o]; cbn; repeat split; try lia; destruct (is_mail o); cbn; lia]).
    unfold Notify.bind at 1, Notify.call at 1 in H.
    destruct (Notify.reply net tr _) as [u | e].
    + unfold Notify.ret at 1 2 in H. inversion H; subst.
      eexists. split; [reflexivity |]. cbn. split; lia.
    + unfold Notify.ret at 1 in H.
      destruct (Hrest _ _ _ H) as [-> | (o & ->)].
      * eexists. split; [reflexivity |]. cbn. split; lia.
      * exists [Notify.Fetch (Notify.sendMessageUrl (String c1 s1)) (String c2 s2) text; o].
        split; [now rewrite <- app_assoc |]. cbn. split; [lia |].
        destruct (is_mail o); cbn; lia.
Qed.

Lemma notifyAny_takes_any_answer_witness :
  NotifyAny.notifyAny None "Court 3 is free at 19:00" (refusing telegram_only) []
  = (Ok tt, [Notify.Fetch "https://api.telegram.org/bot123:abc/sendMessage" "42"
                          "Court 3 is free at 19:00"]).
Proof.
  refine (proj1 (notifyAny_takes_any_answer None "Court 3 is free at 19:00"
                   (refusing telegram_only) [])
                "123:abc" "42" (false, 403) eq_refl _ eq_refl _ eq_refl);
    discriminate.
Defined.

(** ** The courts a scan visits *)

Lemma yields_for_range_bounded {S} P (I : S -> Prop)
  (body : nat -> S -> M (LoopStep S)) n :
  forall from,
    (forall i s, from <= i < from + n -> I s ->
       yields P (fun r => match r with Continue s' | Break s' => I s' end) (body i s)) ->
    forall s, I s -> yields P I (for_range n from body s).
Proof.
  induction n as [| n IH]; intros from Hbody s Hs; cbn [for_range].
  - now apply yields_ret.
  - eapply yields_bind; [apply (Hbody from s ltac:(lia) Hs) |].
    intros [s' | s'] Hs'; [| now apply yields_ret].
    apply IH; [| exact Hs']. intros i t Hi. apply Hbody. lia.
Qed.

Ltac court_call :=
  lazymatch goal with
  | |- yields _ _ (call ?c) =>
      apply (yields_call _ c); unfold court_below; cbn -[Nat.ltb];
      first [reflexivity | apply Nat.ltb_lt; lia]
  end.

Ltac court_steps :=
  open_calls; repeat first [court_call | yields_step | yields_loop]; try exact I.

Lemma debugListClickable_courts page :
  issues_only (court_below 10) (Grid.debugListClickable page).
Proof. unfold issues_only, Grid.debugListClickable. court_steps. Qed.

Lemma slot_of_row_courts page prefs courtName today j i :
  issues_only (court_below 10)
    (Grid.slot_of_row page prefs courtName today
       (Nth (Within (Nth (Loc page "table") j) "tr") i)).
Proof. unfold issues_only, Grid.slot_of_row. court_steps. Qed.

Lemma scanSingleCourtPage_courts page prefs courtName :
  issues_only (court_below 10) (Grid.scanSingleCourtPage page prefs courtName).
Proof.
  unfold issues_only, Grid.scanSingleCourtPage. open_calls.
  eapply yields_bind; [court_steps |]. intros u _.
  eapply yields_bind; [court_steps |]. intros tableCount _.
  eapply yields_bind.
  - apply (yields_for_range _ (fun found : option Locator =>
             match found with
             | Some t => exists j, t = Nth (Loc page "table") j
             | None => True
             end)); [| exact I].
    intros i s Hs. court_steps; eauto.
  - intros [t |] Ht.
    + destruct Ht as (j & ->). court_steps. apply slot_of_row_courts.
    + court_steps. apply debugListClickable_courts.
Qed.

Lemma inferCourtName_courts page i :
  i < 10 -> issues_only (court_below 10) (Grid.inferCourtName (Nth (Grid.chooseButtons page) i)).
Proof. intros Hi. unfold issues_only, Grid.inferCourtName. court_steps. Qed.

Lemma grid_scanCourtsAndSlots_courts page prefs :
  issues_only (court_below 10) (Grid.scanCourtsAndSlots page prefs).
Proof.
  unfold issues_only, Grid.scanCourtsAndSlots. open_calls.
  eapply yields_bind; [court_steps |]. intros totalCourts _.
  destruct (totalCourts =? 0).
  - court_steps. apply debugListClickable_courts.
  - cbv zeta. eapply yields_bind; [court_steps |]. intros base _.
    apply (yields_for_range_bounded _ (fun _ => True)); [| exact I].
    intros i s Hi _.
    assert (Hlt : i < 10) by lia.
    court_steps.
    all: first [now apply inferCourtName_courts | apply scanSingleCourtPage_courts].
Qed.

Lemma slot_of_span_courts page prefs label i :
  issues_only (court_below 10)
    (Booking.slot_of_span page prefs label (Nth (Booking.bookNowSpans page) i)).
Proof.
  unfold issues_only, Booking.slot_of_span, Booking.interval_of_span,
    Booking.slot_of_interval.
  court_steps.
Qed.

Lemma extractSlotsFromScheduler_courts page prefs label :
  issues_only (court_below 10) (Booking.extractSlotsFromScheduler page prefs label).
Proof.
  unfold issues_only, Booking.extractSlotsFromScheduler. court_steps.
  apply slot_of_span_courts.
Qed.

Lemma label_near_button_courts page i dflt :
  i < 10 ->
  issues_only (court_below 10)
    (Booking.label_near_button (Nth (Booking.chooseButtons page) i) dflt).
Proof. intros Hi. unfold issues_only, Booking.label_near_button. court_steps. Qed.

Lemma label_on_page_courts page dflt :
  issues_only (court_below 10) (Booking.label_on_page page dflt).
Proof. unfold issues_only, Booking.label_on_page. court_steps. Qed.

Lemma booking_scanCourtsAndSlots_courts page prefs :
  issues_only (court_below 10) (Booking.scanCourtsAndSlots page prefs).
Proof.
  unfold issues_only, Booking.scanCourtsAndSlots. open_calls.
  eapply yields_bind; [court_steps |]. intros cnt _. cbv zeta.
  eapply yields_bind; [court_steps |]. intros base _.
  apply (yields_for_range_bounded _ (fun _ => True)); [| exact I].
  intros i s Hi _.
  assert (Hlt : i < 10) by lia.
  court_steps.
  all: first [ now apply label_near_button_courts
             | apply label_on_page_courts
             | apply extractSlotsFromScheduler_courts ].
Qed.

(** A scan visits ten courts at most, in both revisions: whatever the
    number of [Choose] buttons on the list, no command of
    [scanCourtsAndSlots] concerns the button of index ten or a later
    one. *)
Theorem scan_visits_ten_courts_at_most :
  (forall page prefs w tr,
      exists ext,
        snd (Grid.scanCourtsAndSlots page prefs w tr) = (tr ++ ext)%list
        /\ forallb (court_below 10) ext = true)
  /\ (forall page prefs w tr,
         exists ext,
           snd (Booking.scanCourtsAndSlots page prefs w tr) = (tr ++ ext)%list
           /\ forallb (court_below 10) ext = true)
  /\ (forall page i,
         court_of (GetAttribute (Nth (Grid.chooseButtons page) i) "href") = Some i
         /\ court_of (Click (Nth (Booking.chooseButtons page) i) false) = Some i).
Proof.
  split; [| split].
  - intros page prefs w tr.
    destruct (Grid.scanCourtsAndSlots page prefs w tr) as [r tr'] eqn:E.
    exact (proj1 (grid_scanCourtsAndSlots_courts page prefs _ _ _ _ E)).
  - intros page prefs w tr.
    destruct (Booking.scanCourtsAndSlots page prefs w tr) as [r tr'] eqn:E.
    exact (proj1 (booking_scanCourtsAndSlots_courts page prefs _ _ _ _ E)).
  - intros page i. split; reflexivity.
Qed.
